(** * The YGG torrent provider (ygg/ygg.py), embedded in Rocq

    The provider is a CouchPotato plugin: it derives its endpoints from a
    configured base url, checks that a session is still alive, builds
    search urls, scrapes result pages (following the pagination), enriches
    a result from its detail page and rejects movie bundles.

    Conventions of the embedding.
    - Python strings are byte strings ([string], UTF-8 for the accented
      literals of the source); whitespace is ASCII whitespace.
    - Python integers are [Z].
    - Dictionaries ([YGG.urls], a result, the search parameters) are
      [gmap string pyval].
    - Methods are written in a state-and-exception monad: a raised
      exception leaves the state as it was at the point of the raise.
    - What the source imports (the HTTP transport, the HTML parser, the
      host's helpers that are not pure string functions) is an interface,
      the class [Externals]; the fixed regular expressions of the source
      are written in a small regular-expression syntax whose matcher
      follows Python's backtracking order. *)

From stdpp Require Import gmap strings list fin_maps pretty.
From Stdlib Require Import ZArith Lia Ascii.

#[global] Arguments String.append !s1 s2 : simpl nomatch.

(* ===================================================================== *)
(** * Part I: definitions                                                 *)
(* ===================================================================== *)

(** ** Byte strings *)

Module Str.

(** [str.isspace] on an ASCII byte: space, \t, \n, \v, \f, \r. *)
Definition is_space (c : ascii) : bool :=
  let n := nat_of_ascii c in
  Nat.eqb n 32 || (Nat.leb 9 n && Nat.leb n 13).

Definition is_digit (c : ascii) : bool :=
  let n := nat_of_ascii c in
  Nat.leb 48 n && Nat.leb n 57.

Definition digit_val (c : ascii) : Z := Z.of_nat (nat_of_ascii c - 48).

Fixpoint rev_onto (s acc : string) : string :=
  match s with
  | EmptyString => acc
  | String c s' => rev_onto s' (String c acc)
  end.

Definition rev (s : string) : string := rev_onto s EmptyString.

Fixpoint lstrip (s : string) : string :=
  match s with
  | EmptyString => EmptyString
  | String c s' => if is_space c then lstrip s' else s
  end.

Definition rstrip (s : string) : string := rev (lstrip (rev s)).

(** [s.strip()] *)
Definition strip (s : string) : string := rstrip (lstrip s).

(** [s[len(p):]] when [s.startswith(p)]. *)
Fixpoint drop_prefix (p s : string) : option string :=
  match p with
  | EmptyString => Some s
  | String a p' =>
      match s with
      | EmptyString => None
      | String b s' => if Ascii.eqb a b then drop_prefix p' s' else None
      end
  end.

Definition startswith (p s : string) : bool :=
  match drop_prefix p s with Some _ => true | None => false end.

(** [sub in s] *)
Fixpoint contains (sub s : string) : bool :=
  startswith sub s ||
  match s with
  | EmptyString => false
  | String _ s' => contains sub s'
  end.

Fixpoint take (n : nat) (s : string) : string :=
  match n, s with
  | S n', String c s' => String c (take n' s')
  | _, _ => EmptyString
  end.

(** [s.split(sep)] for a one-byte separator. *)
Fixpoint split (sep : ascii) (s : string) : list string :=
  match s with
  | EmptyString => [EmptyString]
  | String c s' =>
      if Ascii.eqb c sep then EmptyString :: split sep s'
      else match split sep s' with
           | w :: ws => String c w :: ws
           | [] => [String c EmptyString]
           end
  end.

(** [sep.join(l)] *)
Fixpoint join (sep : string) (l : list string) : string :=
  match l with
  | [] => EmptyString
  | [x] => x
  | x :: xs => x +:+ sep +:+ join sep xs
  end.

(** The whitespace-separated words of [s] ([s.split()]). *)
Fixpoint words_go (s : string) (cur : string) : list string :=
  match s with
  | EmptyString =>
      match cur with EmptyString => [] | _ => [rev cur] end
  | String c s' =>
      if is_space c
      then match cur with
           | EmptyString => words_go s' EmptyString
           | _ => rev cur :: words_go s' EmptyString
           end
      else words_go s' (String c cur)
  end.

Definition words (s : string) : list string := words_go s EmptyString.

Fixpoint all_chars (p : ascii -> bool) (s : string) : bool :=
  match s with
  | EmptyString => true
  | String c s' => p c && all_chars p s'
  end.

(** Value of a run of decimal digits, most significant first. *)
Fixpoint digits_val (s : string) (acc : Z) : Z :=
  match s with
  | EmptyString => acc
  | String c s' => digits_val s' (10 * acc + digit_val c)%Z
  end.

End Str.

(** ** The regular expressions of the source

    The fragment of Python's [re] that the fixed patterns of ygg.py (and of
    the host helper [getImdb]) are written in.  [rmatch] returns every way
    the expression can match at the current position, in the order Python's
    backtracking matcher tries them (greedy repetitions longest first, the
    left alternative first), so the head of the list is the match [re]
    reports. *)

Module Re.

Inductive re : Type :=
| Bos                                        (* ^ *)
| Eos                                        (* $ *)
| Lit (s : string)                           (* literal text *)
| Rep (p : ascii -> bool) (lo : nat) (hi : option nat)
                                             (* [class]{lo,hi}, greedy *)
| Seq (r1 r2 : re)
| Alt (r1 r2 : re)                           (* r1|r2 *)
| Opt (r : re)                               (* r? *)
| Grp (r : re).                              (* (r) *)

(** \d, \s and [^/\s] on bytes. *)
Definition digit : ascii -> bool := Str.is_digit.
Definition not_slash_space (c : ascii) : bool :=
  negb (Ascii.eqb c "/") && negb (Str.is_space c).

Definition plus (p : ascii -> bool) : re := Rep p 1 None.

Record mstate : Type := MState {
  pos : nat;                 (* bytes consumed since the subject's start *)
  rest : string;             (* what is left of the subject *)
  groups : list string       (* the groups closed so far, first first *)
}.

Definition allows (hi : option nat) : bool :=
  match hi with Some 0 => false | _ => true end.

Definition dec (hi : option nat) : option nat :=
  match hi with Some n => Some (Nat.pred n) | None => None end.

(** The runs of at most [hi] bytes of class [p] at the head of [s], as
    (length, remainder), longest first. *)
Fixpoint runs (p : ascii -> bool) (hi : option nat) (s : string)
  : list (nat * string) :=
  match s with
  | EmptyString => [(0, EmptyString)]
  | String c s' =>
      if p c && allows hi
      then map (fun nr => (S (fst nr), snd nr)) (runs p (dec hi) s')
             ++ [(0, s)]
      else [(0, s)]
  end.

Fixpoint rmatch (r : re) (m : mstate) : list mstate :=
  match r with
  | Bos => if Nat.eqb (pos m) 0 then [m] else []
  | Eos =>
      (* the end, or just before a final newline *)
      match rest m with
      | EmptyString => [m]
      | String c EmptyString => if Ascii.eqb c "010" then [m] else []
      | _ => []
      end
  | Lit s =>
      match Str.drop_prefix s (rest m) with
      | Some t => [MState (pos m + String.length s) t (groups m)]
      | None => []
      end
  | Rep p lo hi =>
      map (fun nr => MState (pos m + fst nr) (snd nr) (groups m))
          (List.filter (fun nr => Nat.leb lo (fst nr)) (runs p hi (rest m)))
  | Seq r1 r2 => List.concat (map (rmatch r2) (rmatch r1 m))
  | Alt r1 r2 => rmatch r1 m ++ rmatch r2 m
  | Opt r1 => rmatch r1 m ++ [m]
  | Grp r1 =>
      map (fun m' => MState (pos m') (rest m')
                       (groups m' ++ [Str.take (pos m' - pos m) (rest m)]))
          (rmatch r1 m)
  end.

Definition match_at (r : re) (p : nat) (s : string) : option mstate :=
  head (rmatch r (MState p s [])).

(** [re.search(r, s)]: the leftmost position at which [r] matches. *)
Fixpoint search_from (r : re) (p : nat) (s : string) : option mstate :=
  match match_at r p s with
  | Some m => Some m
  | None =>
      match s with
      | EmptyString => None
      | String _ s' => search_from r (S p) s'
      end
  end.

Definition search (r : re) (s : string) : option mstate :=
  search_from r 0 s.

(** [m.group(i)], [i >= 1]. *)
Definition group (m : mstate) (i : nat) : option string :=
  groups m !! (i - 1).

(** [re.findall(r, s)] for an expression with exactly one group and no
    empty match: the group of each successive non-overlapping match.
    [skip] counts the bytes of the previous match still to step over. *)
Fixpoint findall_go (r : re) (p : nat) (s : string) (skip : nat)
  : list string :=
  match s with
  | EmptyString => []
  | String _ s' =>
      match skip with
      | S k => findall_go r (S p) s' k
      | O =>
          match match_at r p s with
          | Some m =>
              default EmptyString (group m 1)
                :: findall_go r (S p) s' (pos m - p - 1)
          | None => findall_go r (S p) s' 0
          end
      end
  end.

Definition findall (r : re) (s : string) : list string :=
  findall_go r 0 s 0.

End Re.

(** ** Python values, exceptions and the method monad *)

Module Py.

Inductive exn : Type :=
| AttributeError        (* an attribute or method of [None] *)
| IndexError            (* a list index out of range *)
| KeyError              (* a missing dictionary key *)
| TypeError
| ValueError
| RecursionError        (* maximum recursion depth exceeded *)
| HostError (what : string).   (* raised by an external collaborator *)

Inductive outcome (A : Type) : Type :=
| Ok (a : A)
| Raise (e : exn).
Arguments Ok {A} a.
Arguments Raise {A} e.

Inductive pyval : Type :=
| VNone
| VBool (b : bool)
| VInt (z : Z)
| VStr (s : string)
| VFloat (mantissa : Z) (exponent : Z)
| VMethod (name : string).     (* a bound method of the provider *)

(** [str(v)], as [str.format] and [%s] insert a value. *)
Definition py_str (v : pyval) : string :=
  match v with
  | VNone => "None"
  | VBool true => "True"
  | VBool false => "False"
  | VInt z => pretty z
  | VStr s => s
  | VFloat m e => pretty m +:+ "e" +:+ pretty e
  | VMethod n => "<bound method YGG." +:+ n +:+ ">"
  end.

(** A computation over a state [St] that returns an [A] or raises. *)
Definition M (St A : Type) : Type := St -> outcome A * St.

Definition ret {St A} (a : A) : M St A := fun st => (Ok a, st).

Definition bind {St A B} (c : M St A) (k : A -> M St B) : M St B :=
  fun st =>
    match c st with
    | (Ok a, st') => k a st'
    | (Raise e, st') => (Raise e, st')
    end.

Definition raise {St A} (e : exn) : M St A := fun st => (Raise e, st).

Definition get {St} : M St St := fun st => (Ok st, st).

Definition modify {St} (f : St -> St) : M St unit :=
  fun st => (Ok tt, f st).

(** The value of an expression that may raise. *)
Definition lift {St A} (o : outcome A) : M St A := fun st => (o, st).

(** [x.attr] where [x] may be [None]. *)
Definition not_none {St A} (o : option A) : M St A :=
  match o with Some a => ret a | None => raise AttributeError end.

(** [try: body / except: handler] with a bare [except]. *)
Definition try_except {St A} (body : M St A) (handler : exn -> M St A)
  : M St A :=
  fun st =>
    match body st with
    | (Ok a, st') => (Ok a, st')
    | (Raise e, st') => handler e st'
    end.

(** A [for] loop whose body may [break]. *)
Inductive flow : Type := Continue | Break.

Fixpoint for_each {St A} (l : list A) (body : A -> M St flow)
  : M St unit :=
  match l with
  | [] => ret tt
  | x :: l' =>
      bind (body x) (fun f =>
        match f with
        | Break => ret tt
        | Continue => for_each l' body
        end)
  end.

(** [l[i]] for a non-negative index. *)
Definition index {St A} (l : list A) (i : nat) : M St A :=
  match l !! i with Some a => ret a | None => raise IndexError end.

(** [int(s)] on a string: surrounding whitespace, an optional sign,
    then at least one digit and nothing else. *)
Definition py_int (s : string) : option Z :=
  let t := Str.strip s in
  let signed :=
    match t with
    | String c d =>
        if Ascii.eqb c "-" then (-1, d)%Z
        else if Ascii.eqb c "+" then (1, d)%Z
        else (1, t)%Z
    | EmptyString => (1, t)%Z
    end in
  match snd signed with
  | EmptyString => None
  | d => if Str.all_chars Str.is_digit d
         then Some (fst signed * Str.digits_val d 0)%Z
         else None
  end.

(** [string.rjust(width, fill)] *)
Definition rjust (width : nat) (fill : ascii) (s : string) : string :=
  Nat.iter (width - String.length s) (String fill) s.

(** [template.format(arg)] with one positional argument, for templates
    whose replacement fields are the automatic [{}] ([{{] and [}}] are
    the escaped braces).  A second [{}] has no argument left; any other
    use of a brace is outside this fragment and is given as a
    [ValueError] (the theorems below keep to brace-free prefixes). *)
Fixpoint format_go (tpl arg : string) (used : bool) : outcome string :=
  let cons c o :=
    match o with Ok s => Ok (String c s) | Raise e => Raise e end in
  match tpl with
  | EmptyString => Ok EmptyString
  | String c t =>
      if Ascii.eqb c "{" then
        match t with
        | String c2 t2 =>
            if Ascii.eqb c2 "}" then
              if used then Raise IndexError
              else match format_go t2 arg true with
                   | Ok s => Ok (arg +:+ s)
                   | Raise e => Raise e
                   end
            else if Ascii.eqb c2 "{" then cons c (format_go t2 arg used)
            else Raise ValueError
        | EmptyString => Raise ValueError
        end
      else if Ascii.eqb c "}" then
        match t with
        | String c2 t2 =>
            if Ascii.eqb c2 "}" then cons c (format_go t2 arg used)
            else Raise ValueError
        | EmptyString => Raise ValueError
        end
      else cons c (format_go t arg used)
  end.

Definition format (tpl : string) (arg : pyval) : outcome string :=
  format_go tpl (py_str arg) false.

(** [v.format(arg)] where [v] is a dictionary value: [None] has no
    [format]. *)
Definition format_val (v arg : pyval) : outcome string :=
  match v with
  | VStr tpl => format tpl arg
  | _ => Raise AttributeError
  end.

(** [d[k]] *)
Definition getitem {St} (d : gmap string pyval) (k : string)
  : M St pyval :=
  match d !! k with Some v => ret v | None => raise KeyError end.

End Py.

Declare Scope py_scope.
Delimit Scope py_scope with py.
Notation "x <- c ;; k" := (Py.bind c (fun x => k))
  (at level 100, c at next level, right associativity) : py_scope.
Notation "c ;; k" := (Py.bind c (fun _ => k))
  (at level 100, right associativity) : py_scope.

Local Open Scope py_scope.

(** ** Parsed HTML documents

    What [BeautifulSoup(data, 'html.parser')] returns: a tree of tags and
    text nodes; the document itself is the root tag.  An [element] is a
    node together with its chain of parents, nearest first, which is what
    [.parent] walks. *)

Module Html.

#[warnings="-register-all"]
Inductive node : Type :=
| Text (s : string)
| Tag (name : string) (attrs : list (string * string))
      (children : list node).

Record element : Type := Element {
  here : node;
  parents : list node
}.

(** The proper descendants of [n] in document order ([n.descendants]). *)
Fixpoint descendants (anc : list node) (n : node) : list element :=
  match n with
  | Text _ => []
  | Tag _ _ cs =>
      (fix go (l : list node) : list element :=
         match l with
         | [] => []
         | c :: l' =>
             Element c (n :: anc) :: descendants (n :: anc) c ++ go l'
         end) cs
  end.

Definition root (doc : node) : element := Element doc [].

(** [n.getText()]: the text nodes below [n], concatenated. *)
Fixpoint get_text (n : node) : string :=
  match n with
  | Text s => s
  | Tag _ _ cs =>
      (fix go (l : list node) : string :=
         match l with
         | [] => EmptyString
         | c :: l' => get_text c +:+ go l'
         end) cs
  end.

Fixpoint assoc (k : string) (l : list (string * string)) : option string :=
  match l with
  | [] => None
  | (k', v) :: l' => if String.eqb k k' then Some v else assoc k l'
  end.

(** [n[k]] / [n.get(k)] *)
Definition attr (k : string) (n : node) : option string :=
  match n with
  | Text _ => None
  | Tag _ attrs _ => assoc k attrs
  end.

Definition is_tag (name : string) (n : node) : bool :=
  match n with
  | Text _ => false
  | Tag name' _ _ => String.eqb name name'
  end.

(** [class_=c]: [class] is a multi-valued attribute, matched token by
    token. *)
Definition has_class (c : string) (n : node) : bool :=
  match attr "class" n with
  | Some v => existsb (String.eqb c) (Str.words v)
  | None => false
  end.

(** [text=t]: a string node equal to [t]. *)
Definition text_is (t : string) (n : node) : bool :=
  match n with
  | Text s => String.eqb s t
  | Tag _ _ _ => false
  end.

(** [href=pattern] *)
Definition href_matches (pat : string -> bool) (n : node) : bool :=
  match n with
  | Text _ => false
  | Tag _ _ _ =>
      match attr "href" n with Some v => pat v | None => false end
  end.

(** [e.find_all(...)] and [e.find(...)] *)
Definition find_all (p : node -> bool) (e : element) : list element :=
  List.filter (fun d => p (here d)) (descendants (parents e) (here e)).

Definition find (p : node -> bool) (e : element) : option element :=
  head (find_all p e).

(** [e.parent] *)
Definition parent (e : element) : option element :=
  match parents e with
  | [] => None
  | n :: anc => Some (Element n anc)
  end.

(** Position of the first match in the document, and
    [x.find_next(...)] for the node [x] at position [i]: the first match
    among the nodes that follow [x] in document order. *)
Fixpoint first_index {A} (p : A -> bool) (l : list A) (i : nat)
  : option (nat * A) :=
  match l with
  | [] => None
  | x :: l' => if p x then Some (i, x) else first_index p l' (S i)
  end.

Definition find_at (p : node -> bool) (doc : node)
  : option (nat * element) :=
  first_index (fun d => p (here d)) (descendants [] doc) 0.

Definition find_next (p : node -> bool) (doc : node) (i : nat)
  : option element :=
  head (List.filter (fun d => p (here d)) (drop (S i) (descendants [] doc))).

End Html.

(** ** What the provider imports *)

Class Externals : Type := {
  (** the remote site and the clock *)
  world : Type;
  (** [self.getHTMLData(url)] of the host's provider base class *)
  getHTMLData : string -> world -> Py.outcome string * world;
  (** [BeautifulSoup(data, 'html.parser')] *)
  BeautifulSoup : string -> Py.outcome Html.node;
  (** [pattern.prettify()] of a tag *)
  prettify : Html.node -> string;
  (** [re.compile(pattern)] for a pattern built at run time, as the
      predicate [lambda s: pattern.search(s) is not None] *)
  re_compile : string -> Py.outcome (string -> bool);
  (** [self.parseSize(text)] of the host's provider base class *)
  parseSize : string -> Py.pyval;
  (** [simplifyString(text)] of the host (accent folding, lower case) *)
  simplifyString : string -> string;
  (** the longest digit run [getImdb] takes for an identifier (7 or 8,
      by the version of the host) *)
  imdb_max_digits : nat;
  (** [datetime.strptime(text, format)], as seconds since a fixed origin *)
  strptime : string -> string -> Py.outcome Z;
  (** [datetime.now()], in whole seconds since the same origin *)
  datetime_now : world -> Z * world;
  (** [self.getName()] *)
  getName : string
}.

(** ** Helpers of the host (couchpotato.core.helpers) *)

Module Host.
Section Host.
Context `{Externals}.

(** [tryInt(s)]: [int(s)], or 0 when it raises. *)
Definition tryInt (s : string) : Z := default 0%Z (Py.py_int s).

Definition hex_digit (n : nat) : ascii :=
  ascii_of_nat (if Nat.ltb n 10 then 48 + n else 55 + n).

(** [quote_plus] of one byte. *)
Definition quote_plus (c : ascii) : string :=
  let n := nat_of_ascii c in
  if Str.is_digit c
     || (Nat.leb 65 n && Nat.leb n 90) || (Nat.leb 97 n && Nat.leb n 122)
     || Ascii.eqb c "_" || Ascii.eqb c "." || Ascii.eqb c "-"
  then String c EmptyString
  else if Ascii.eqb c " " then "+"
  else String "%" (String (hex_digit (n / 16))
                     (String (hex_digit (n mod 16)) EmptyString)).

Fixpoint quote_all (s : string) : string :=
  match s with
  | EmptyString => EmptyString
  | String c s' => quote_plus c +:+ quote_all s'
  end.

(** [tryUrlencode(v)] for a value that is not a dictionary. *)
Definition tryUrlencode_value (v : Py.pyval) : string :=
  quote_all (Py.py_str v).

(** [tryUrlencode(d)] for a dictionary: ['&key=value'] for each item, in
    the iteration order of the dictionary, less the first byte. *)
Definition tryUrlencode (d : gmap string Py.pyval) : string :=
  let new :=
    foldl (fun new kv =>
             new +:+ "&" +:+ fst kv +:+ "=" +:+ tryUrlencode_value (snd kv))
          EmptyString (map_to_list d) in
  match new with
  | EmptyString => EmptyString
  | String _ t => t
  end.

(** [removeDuplicate(seq)]: the first occurrence of each element. *)
Fixpoint removeDuplicate_go (seq checked : list string) : list string :=
  match seq with
  | [] => checked
  | e :: seq' =>
      if existsb (String.eqb e) checked
      then removeDuplicate_go seq' checked
      else removeDuplicate_go seq' (checked ++ [e])
  end.

Definition removeDuplicate (seq : list string) : list string :=
  removeDuplicate_go seq [].

(** The pattern [(tt\d{4,N})]. *)
Definition imdb_regexp : Re.re :=
  Re.Grp (Re.Seq (Re.Lit "tt") (Re.Rep Re.digit 4 (Some imdb_max_digits))).

Fixpoint drop_bytes (n : nat) (s : string) : string :=
  match n, s with
  | S n', String _ s' => drop_bytes n' s'
  | _, _ => s
  end.

(** One identifier, normalised: ['tt%07d' % tryInt(x[2:])]. *)
Definition imdb_id (x : string) : string :=
  "tt" +:+ Py.rjust 7 "0" (pretty (tryInt (drop_bytes 2 x))).

(** [getImdb(txt, multiple=True)] on a string. *)
Definition getImdb (txt : string) : list string :=
  let ids := Re.findall imdb_regexp (simplifyString txt) in
  match ids with
  | [] => []
  | _ => removeDuplicate (map imdb_id ids)
  end.

End Host.
End Host.

(** ** The provider: class YGG *)

Module YGG.

Abbreviation dict := (gmap string Py.pyval).

Inductive level : Type := DEBUG | INFO | WARNING | ERROR.

Inductive message : Type :=
| Message (text : string)
| Value (v : Py.pyval)
| Dict (d : dict)
| Traceback (text : string) (e : Py.exn).

(** One recursive call of [_searchOnTitle], with the contents of the
    shared [results] list when the call is made. *)
Record call : Type := Call {
  call_title : string;
  call_media : dict;
  call_quality : dict;
  call_results : list dict;
  call_offset : Z
}.

(** [limit = 50] *)
Definition limit : Z := 50.

(** [url_regexp = '^(https://[^/\s]+)/?'] *)
Definition url_regexp : Re.re :=
  Re.Seq Re.Bos
    (Re.Seq (Re.Grp (Re.Seq (Re.Lit "https://")
                       (Re.plus Re.not_slash_space)))
            (Re.Opt (Re.Lit "/"))).

(** [u'/filmvidéo/(film|animation|documentaire)/'] *)
Definition category_regexp : Re.re :=
  Re.Seq (Re.Lit "/filmvidéo/")
    (Re.Seq (Re.Grp (Re.Alt (Re.Lit "film")
                       (Re.Alt (Re.Lit "animation")
                               (Re.Lit "documentaire"))))
            (Re.Lit "/")).

(** ['/(\d+)-[^/\s]+$'] *)
Definition id_regexp : Re.re :=
  Re.Seq (Re.Lit "/")
    (Re.Seq (Re.Grp (Re.plus Re.digit))
       (Re.Seq (Re.Lit "-")
          (Re.Seq (Re.plus Re.not_slash_space) Re.Eos))).

Section YGG.
Context `{Externals}.

(** The provider object and what it reaches: the host's settings, the
    class-level [urls] dictionary, the login flag, the log and the
    outside world. *)
Record state : Type := State {
  conf : gmap string string;
  urls : dict;
  last_login_check : bool;
  log : list (level * message);
  site : world
}.

Definition set_urls (f : dict -> dict) (st : state) : state :=
  State (conf st) (f (urls st)) (last_login_check st) (log st) (site st).
Definition set_last_login_check (b : bool) (st : state) : state :=
  State (conf st) (urls st) b (log st) (site st).
Definition add_log (l : level) (m : message) (st : state) : state :=
  State (conf st) (urls st) (last_login_check st) (log st ++ [(l, m)])
        (site st).
Definition set_site (w : world) (st : state) : state :=
  State (conf st) (urls st) (last_login_check st) (log st) w.

(** A method with an argument passed by reference runs on the provider
    and on that argument. *)
Definition on_self {R A} (c : Py.M state A) : Py.M (state * R) A :=
  fun sr =>
    match c (fst sr) with (o, st') => (o, (st', snd sr)) end.

Definition on_arg {R A} (c : Py.M R A) : Py.M (state * R) A :=
  fun sr =>
    match c (snd sr) with (o, r') => (o, (fst sr, r')) end.

Definition log_ (l : level) (m : message) : Py.M state unit :=
  Py.modify (add_log l m).

(** [self.conf(key)] *)
Definition conf_ (key : string) : Py.M state Py.pyval :=
  st <- Py.get;;
  Py.ret (match conf st !! key with
          | Some s => Py.VStr s
          | None => Py.VNone
          end).

(** [self.urls[key]] *)
Definition url_ (key : string) : Py.M state Py.pyval :=
  st <- Py.get;;
  Py.getitem (urls st) key.

Definition fetch (url : string) : Py.M state string :=
  fun st =>
    match getHTMLData url (site st) with
    | (o, w) => (o, set_site w st)
    end.

Definition now : Py.M state Z :=
  fun st =>
    match datetime_now (site st) with
    | (t, w) => (Py.Ok t, set_site w st)
    end.

(** [re.search(pattern, v)] on a setting: [None] is not a string. *)
Definition search_setting (r : Re.re) (v : Py.pyval)
  : Py.M state (option Re.mstate) :=
  match v with
  | Py.VStr s => Py.ret (Re.search r s)
  | _ => Py.raise Py.TypeError
  end.

(** [YGG.parseText(node)] *)
Definition parseText (n : Html.node) : string :=
  Str.strip (Html.get_text n).

(** [refreshUrls(self)] *)
Definition refreshUrls : Py.M state unit :=
  Py.modify (set_last_login_check false);;
  setting <- conf_ "url";;
  matcher <- search_setting url_regexp setting;;
  match matcher with
  | Some m =>
      url <- Py.not_none (Re.group m 1);;
      log_ DEBUG (Message ("Refreshing provider's urls with " +:+ url));;
      Py.modify (set_urls <["login_check" := Py.VStr (url +:+ "/user/account")]>);;
      Py.modify (set_urls <["search" := Py.VStr (url +:+ "/engine/search?{}")]>);;
      Py.modify (set_urls <["torrent" := Py.VStr (url +:+ "/torrent")]>);;
      Py.modify (set_urls <["url" := Py.VStr (url +:+ "/engine/download_torrent?id={}")]>)
  | None =>
      Py.modify (set_urls <["login_check" := Py.VNone]>);;
      Py.modify (set_urls <["search" := Py.VNone]>);;
      Py.modify (set_urls <["torrent" := Py.VNone]>);;
      Py.modify (set_urls <["url" := Py.VNone]>);;
      setting' <- conf_ "url";;
      log_ WARNING (Message (Py.py_str setting' +:+ " is not a valid url"))
  end.

(** [refreshLoginUrl(self)] *)
Definition refreshLoginUrl : Py.M state unit :=
  Py.modify (set_last_login_check false);;
  setting <- conf_ "login_url";;
  matcher <- search_setting url_regexp setting;;
  match matcher with
  | Some m =>
      login_url <- Py.not_none (Re.group m 1);;
      log_ DEBUG (Message ("Refreshing login url with " +:+ login_url));;
      Py.modify (set_urls <["login" := Py.VStr (login_url +:+ "/user/login")]>)
  | None =>
      Py.modify (set_urls <["login" := Py.VNone]>);;
      setting' <- conf_ "login_url";;
      log_ WARNING (Message (Py.py_str setting' +:+ " is not a valid url"))
  end.

(** [getLoginParams(self)] *)
Definition getLoginParams : Py.M state dict :=
  username <- conf_ "username";;
  password <- conf_ "password";;
  Py.ret (<["pass" := password]> (<["id" := username]> ∅)).

(** [loginSuccess(self, output)] *)
Definition loginSuccess (output : string) : Py.M state bool :=
  log_ DEBUG (Message output);;
  Py.ret (Nat.eqb (String.length output) 0).

(** The text of the logout entry of the site's menu. *)
Definition logout_marker : string := " Déconnexion".

(** [loginCheckSuccess(self, output)] *)
Definition loginCheckSuccess (output : string) : Py.M state bool :=
  let result := false in
  soup <- Py.lift (BeautifulSoup output);;
  match Html.find (Html.text_is logout_marker) (Html.root soup) with
  | Some _ => Py.ret true
  | None => Py.ret result
  end.

Definition setitem (k : string) (v : Py.pyval) : Py.M dict unit :=
  Py.modify <[k := v]>.

(** A string argument of a host function. *)
Definition as_str {St} (v : Py.pyval) : Py.M St string :=
  match v with
  | Py.VStr s => Py.ret s
  | _ => Py.raise Py.TypeError
  end.

(** [getMoreInfo(self, nzb)] *)
Definition getMoreInfo : Py.M (state * dict) unit :=
  nzb <- on_arg Py.get;;
  detail_url <- Py.getitem nzb "detail_url";;
  detail_url <- as_str detail_url;;
  data <- on_self (fetch detail_url);;
  soup <- Py.lift (BeautifulSoup data);;
  header <- Py.not_none
              (Html.find_at (Html.has_class "description-header") soup);;
  let description := Html.find_next (Html.is_tag "div") soup (fst header) in
  match description with
  | Some d =>
      on_arg (setitem "description" (Py.VStr (prettify (Html.here d))))
  | None => Py.ret tt
  end;;
  label <- Py.not_none (Html.find_at (Html.text_is "Uploadé le") soup);;
  line <- Py.not_none (Html.find_next (Html.is_tag "td") soup (fst label));;
  piece <- Py.index (Str.split "(" (Html.get_text (Html.here line))) 0;;
  added <- Py.lift (strptime (Str.strip piece) "%d/%m/%Y %H:%M");;
  today <- on_self now;;
  on_arg (setitem "age" (Py.VInt ((today - added) / 86400)));;
  nzb' <- on_arg Py.get;;
  age <- Py.getitem nzb' "age";;
  on_self (log_ DEBUG (Value age)).

(** [extraCheck(self, nzb)] *)
Definition extraCheck : Py.M (state * dict) bool :=
  let result := true in
  nzb <- on_arg Py.get;;
  description <- as_str (default (Py.VStr "") (nzb !! "description"));;
  let ids := Host.getImdb description in
  if negb (Nat.eqb (length ids) 0 || Nat.eqb (length ids) 1)
  then
    on_self (log_ INFO (Message ("Too much IMDB ids: " +:+ Str.join ", " ids)));;
    Py.ret false
  else Py.ret result.

(** The dictionary literal of [buildUrl], with the [page] item when
    [offset > 0]. *)
Definition search_params (title : string) (offset : Z) : dict :=
  let params : dict :=
    <["uploader" := Py.VStr ""]>
    (<["sub_category" := Py.VStr "all"]>
    (<["name" := Py.VStr (simplifyString title)]>
    (<["file" := Py.VStr ""]>
    (<["do" := Py.VStr "search"]>
    (<["description" := Py.VStr ""]>
    (<["category" := Py.VInt 2145]> ∅)))))) in
  if (offset >? 0)%Z
  then <["page" := Py.VInt (offset * limit)]> params
  else params.

(** [buildUrl(self, title, offset)] *)
Definition buildUrl (title : string) (offset : Z) : Py.M state string :=
  let params := search_params title offset in
  search <- url_ "search";;
  Py.lift (Py.format_val search (Py.VStr (Host.tryUrlencode params))).

(** *** [_searchOnTitle]

    The method appends to the list [results] it is given; [calls] is a
    record of the recursive calls made by the running invocation (not
    of those made further down), kept to state how the pagination is
    followed. *)
Record sink : Type := Sink {
  results : list dict;
  calls : list call
}.

Abbreviation search := (Py.M (state * sink)).

(** [results.append(result)] *)
Definition append (result : dict) : Py.M sink unit :=
  Py.modify (fun k => Sink (results k ++ [result]) (calls k)).

Definition record_call (c : call) : Py.M sink unit :=
  Py.modify (fun k => Sink (results k) (calls k ++ [c])).

Definition forget_calls : Py.M sink unit :=
  Py.modify (fun k => Sink (results k) []).

Definition restore_calls (cs : list call) : Py.M sink unit :=
  Py.modify (fun k => Sink (results k) cs).

(** [link['href']] *)
Definition href (link : Html.element) : search string :=
  match Html.attr "href" (Html.here link) with
  | Some v => Py.ret v
  | None => Py.raise Py.KeyError
  end.

(** Lines 227-238: the dictionary literal of a result. *)
Definition result_literal (id_ : Z) (name : string) (seeders leechers : Z)
    (size : Py.pyval) (url detail_url : string) : dict :=
  <["extra_check" := Py.VMethod "extraCheck"]>
  (<["get_more_info" := Py.VMethod "getMoreInfo"]>
  (<["verified" := Py.VBool true]>
  (<["detail_url" := Py.VStr detail_url]>
  (<["url" := Py.VStr url]>
  (<["size" := size]>
  (<["leechers" := Py.VInt leechers]>
  (<["seeders" := Py.VInt seeders]>
  (<["name" := Py.VStr name]>
  (<["id" := Py.VInt id_]> ∅))))))))).

(** Lines 217-240: the body of the loop over the links of the results
    container. *)
Definition scan_link (link : Html.element) : search Py.flow :=
  detail_url <- href link;;
  match Re.search category_regexp detail_url with
  | Some _ =>
      let name := parseText (Html.here link) in
      link_href <- href link;;
      found <- Py.not_none (Re.search id_regexp link_href);;
      digits <- Py.not_none (Re.group found 1);;
      let id_ := Host.tryInt digits in
      parent <- Py.not_none (Html.parent link);;
      row <- Py.not_none (Html.parent parent);;
      let columns := Html.find_all (Html.is_tag "td") row in
      column5 <- Py.index columns 5;;
      let size := parseSize (parseText (Html.here column5)) in
      column7 <- Py.index columns 7;;
      let seeders := Host.tryInt (parseText (Html.here column7)) in
      column8 <- Py.index columns 8;;
      let leechers := Host.tryInt (parseText (Html.here column8)) in
      template <- on_self (url_ "url");;
      url <- Py.lift (Py.format_val template (Py.VInt id_));;
      let result := result_literal id_ name seeders leechers size url detail_url in
      on_arg (append result);;
      on_self (log_ DEBUG (Dict result));;
      Py.ret Py.Continue
  | None => Py.ret Py.Continue
  end.

(** Lines 244-249: the body of the loop over the items of the
    pagination control; [recurse] is the recursive call. *)
Definition scan_page (recurse : Z -> search unit) (offset : Z)
    (page : Html.element) : search Py.flow :=
  anchor <- Py.not_none (Html.find (Html.is_tag "a") page);;
  let next_ := Host.tryInt (parseText (Html.here anchor)) in
  if (next_ >? offset + 1)%Z
  then recurse (offset + 1)%Z;; Py.ret Py.Break
  else Py.ret Py.Continue.

(** Lines 211-249: what the [try] protects. *)
Definition search_page (recurse : Z -> search unit) (title : string)
    (offset : Z) : search unit :=
  url <- on_self (buildUrl title offset);;
  data <- on_self (fetch url);;
  soup <- Py.lift (BeautifulSoup data);;
  torrent <- on_self (url_ "torrent");;
  let filter_ := "^" +:+ Py.py_str torrent in
  match Html.find (Html.has_class "results") (Html.root soup) with
  | Some resultList =>
      pattern <- Py.lift (re_compile filter_);;
      Py.for_each (Html.find_all (Html.href_matches pattern) resultList)
                  scan_link;;
      (* Get next page if we don't have all results *)
      match Html.find (fun n => Html.is_tag "ul" n
                                && Html.has_class "pagination" n)
                      (Html.root soup) with
      | Some pagination =>
          Py.for_each (Html.find_all (Html.is_tag "li") pagination)
                      (scan_page recurse offset)
      | None => Py.ret tt
      end
  | None => Py.ret tt
  end.

(** Lines 250-252: the handler of the bare [except]. *)
Definition search_failed (e : Py.exn) : search unit :=
  on_self (log_ ERROR
             (Traceback ("Failed searching release from " +:+ getName
                           +:+ ": ") e)).

(** Lines 247-248: the recursive call.  [callee] is the method run one
    frame down, when the stack has room for that frame; a call beyond
    the limit is Python's "maximum recursion depth exceeded".  The call
    record of the caller is set aside while the callee runs. *)
Definition recursive_call (callee : option (Z -> search unit))
    (title : string) (media quality : dict) (offset' : Z) : search unit :=
  match callee with
  | None => Py.raise Py.RecursionError
  | Some method =>
      k <- on_arg Py.get;;
      on_arg (record_call (Call title media quality (results k) offset'));;
      k' <- on_arg Py.get;;
      on_arg forget_calls;;
      method offset';;
      on_arg (restore_calls (calls k'))
  end.

(** [_searchOnTitle(self, title, media, quality, results, offset)], run
    in a frame with room for [depth] more frames below it. *)
Fixpoint _searchOnTitle (depth : nat) (title : string)
    (media quality : dict) (offset : Z) : search unit :=
  Py.try_except
    (search_page
       (recursive_call
          match depth with
          | O => None
          | S depth' => Some (_searchOnTitle depth' title media quality)
          end
          title media quality)
       title offset)
    search_failed.

(** What a frame can call, and what its [try] protects. *)
Definition callee (depth : nat) (title : string) (media quality : dict)
  : option (Z -> search unit) :=
  match depth with
  | O => None
  | S depth' => Some (_searchOnTitle depth' title media quality)
  end.

Definition protected (depth : nat) (title : string) (media quality : dict)
    (offset : Z) : search unit :=
  search_page
    (recursive_call (callee depth title media quality) title media quality)
    title offset.

End YGG.
End YGG.

(** ** A small site to run the provider on

    A concrete instance of the interface, used for the examples: a site at
    [https://ygg] that serves a handful of pages.  The bodies are named
    rather than spelled out (the parser is part of the interface; what the
    provider sees is the tree it returns). *)

Module Fixture.

Import Html.

Definition cell (text : string) : node := Tag "td" [] [Text text].

(** A row of the results table: category, name (with the link to the
    detail page), comments, nfo, age, size, completed, seeders,
    leechers. *)
Definition row (href name size seeders leechers : string) : node :=
  Tag "tr" []
    [cell "2183";
     Tag "td" [] [Tag "a" [("href", href)] [Text name]];
     cell "0"; cell ""; cell "2 ans";
     cell size; cell "120"; cell seeders; cell leechers].

Definition short_row (href name : string) : node :=
  Tag "tr" []
    [cell "2183";
     Tag "td" [] [Tag "a" [("href", href)] [Text name]];
     cell "0"].

Definition pager (labels : list string) : node :=
  Tag "ul" [("class", "pagination")]
    (map (fun l => Tag "li" [] [Tag "a" [("href", "#")] [Text l]]) labels).

Definition results (rows : list node) : node :=
  Tag "div" [("class", "table-responsive results")]
    [Tag "table" [] [Tag "tbody" [] rows]].

Definition document (content : list node) : node :=
  Tag "[document]" [] content.

(** First page for the title [matrix]: three films, two releases of
    other categories, and a pagination control listing pages 1 to 3. *)
Definition matrix_1 : node :=
  document
    [results
       [row "https://ygg/torrent/filmvidéo/film/101-the-matrix-1999"
            " The Matrix 1999 " "1400Mo" "250" "12";
        row "https://ygg/torrent/filmvidéo/série-tv/102-matrix-s01"
            "Matrix S01" "8Go" "40" "3";
        row "https://ygg/torrent/filmvidéo/animation/103-animatrix"
            "Animatrix" "700Mo" "31" "0";
        row "https://ygg/torrent/audio/musique/104-matrix-ost"
            "Matrix OST" "90Mo" "5" "1";
        row "https://ygg/torrent/filmvidéo/documentaire/105-matrix-revisited"
            "The Matrix Revisited" "2Go" "7" "2"];
     pager ["1"; "2"; "3"]].

(** Second page for the same title: one film, and a control that lists
    no further page. *)
Definition matrix_2 : node :=
  document
    [results
       [row "https://ygg/torrent/filmvidéo/film/201-matrix-reloaded"
            "Matrix Reloaded" "2Go" "90" "4"];
     pager ["1"; "2"]].

(** A page whose only film sits in a row of three cells. *)
Definition short_page : node :=
  document
    [results
       [short_row "https://ygg/torrent/filmvidéo/film/301-court" "Court"]].

(** A page without results container, with a pagination control. *)
Definition empty_page : node :=
  document
    [Tag "p" [] [Text "Aucun résultat"]; pager ["1"; "2"; "3"]].

(** A page whose only film has a link without a numeric id. *)
Definition no_id_page : node :=
  document
    [results
       [row "https://ygg/torrent/filmvidéo/film/sans-identifiant"
            "Sans identifiant" "1Go" "3" "1"]].

(** Account pages: a logged-in menu, and one whose logout entry has
    other text around the marker. *)
Definition account_in : node :=
  document
    [Tag "ul" []
       [Tag "li" [] [Tag "a" [("href", "/user/logout")]
                             [Text " Déconnexion"]]]].

Definition account_other : node :=
  document
    [Tag "ul" []
       [Tag "li" [] [Tag "a" [("href", "/user/logout")]
                             [Text "Compte Déconnexion"]]]].

(** Detail pages: with and without a block after the description
    header. *)
Definition upload_table : node :=
  Tag "table" []
    [Tag "tr" [] [Tag "td" [] [Text "Uploadé le"];
                  cell "12/03/2021 10:15 (il y a 8 jours)"]].

Definition detail_full : node :=
  document
    [Tag "h2" [("class", "description-header")] [Text "Présentation"];
     Tag "div" [] [Text "Un film. tt0133093"];
     upload_table].

Definition detail_bare : node :=
  document
    [upload_table;
     Tag "h2" [("class", "description-header")] [Text "Présentation"]].

Definition pages : list (string * node) :=
  [("matrix-1", matrix_1); ("matrix-2", matrix_2);
   ("court", short_page); ("vide", empty_page); ("sans-id", no_id_page);
   ("compte", account_in); ("compte-autre", account_other);
   ("detail", detail_full); ("detail-nu", detail_bare)].

Fixpoint page_named (name : string) (l : list (string * node))
  : option node :=
  match l with
  | [] => None
  | (n, t) :: l' => if String.eqb name n then Some t else page_named name l'
  end.

(** The body served at a url. *)
Definition serve (url : string) : Py.outcome string :=
  if Str.contains "name=matrix" url
  then if Str.contains "page=50" url then Py.Ok "matrix-2"
       else if Str.contains "page=" url
            then Py.Raise (Py.HostError "404")
            else Py.Ok "matrix-1"
  else if Str.contains "name=court" url then Py.Ok "court"
  else if Str.contains "name=vide" url then Py.Ok "vide"
  else if Str.contains "name=sansid" url then Py.Ok "sans-id"
  else if Str.contains "/101-" url then Py.Ok "detail"
  else if Str.contains "/103-" url then Py.Ok "detail-nu"
  else Py.Raise (Py.HostError "404").

Definition metachar (c : ascii) : bool :=
  existsb (Ascii.eqb c)
    ["."; "^"; "$"; "*"; "+"; "?"; "{"; "}"; "["; "]"; "\"; "|"; "("; ")"]%char.

(** Patterns of the form [^literal] only. *)
Definition compile (pattern : string) : Py.outcome (string -> bool) :=
  match pattern with
  | String c lit =>
      if Ascii.eqb c "^" && Str.all_chars (fun x => negb (metachar x)) lit
      then Py.Ok (Str.startswith lit)
      else Py.Raise (Py.HostError "pattern")
  | EmptyString => Py.Raise (Py.HostError "pattern")
  end.

Fixpoint digits_of (s : string) : string :=
  match s with
  | EmptyString => EmptyString
  | String c s' =>
      if Str.is_digit c then String c (digits_of s') else digits_of s'
  end.

(** Seconds since 2021-01-01 00:00 of the one date the site shows. *)
Definition parse_date (text format : string) : Py.outcome Z :=
  if String.eqb text "12/03/2021 10:15" then Py.Ok 6084900%Z
  else Py.Raise Py.ValueError.

#[export] Instance site : Externals := {|
  world := list string;
  getHTMLData url requests := (serve url, requests ++ [url]);
  BeautifulSoup data :=
    match page_named data pages with
    | Some t => Py.Ok t
    | None => Py.Raise (Py.HostError "parser")
    end;
  prettify := get_text;
  re_compile := compile;
  parseSize text := Py.VInt (Str.digits_val (digits_of text) 0);
  simplifyString text := text;
  imdb_max_digits := 7;
  strptime := parse_date;
  (* 2021-03-20 09:00 *)
  datetime_now requests := (6771600%Z, requests);
  getName := "YGG"
|}.

(** The provider before and after its constructor has derived the
    endpoints. *)
Definition fresh : YGG.state :=
  YGG.State (<["url" := "https://ygg/"]> ∅) ∅ false [] [].

Definition ready : YGG.state := snd (YGG.refreshUrls fresh).

Definition no_results : YGG.sink := YGG.Sink [] [].

End Fixture.

(* ===================================================================== *)
(** * Part II: properties                                                 *)
(* ===================================================================== *)

(** ** The patterns at work *)

Module Patterns.

Example url_regexp_base :
  (Re.search YGG.url_regexp "https://www.ygg.to/engine/search") ≫= (fun m => Re.group m 1)
  = Some "https://www.ygg.to".
Proof. reflexivity. Qed.

Example url_regexp_http : Re.search YGG.url_regexp "http://www.ygg.to/" = None.
Proof. reflexivity. Qed.

Example url_regexp_anchored :
  Re.search YGG.url_regexp " https://www.ygg.to/" = None.
Proof. reflexivity. Qed.

Example category_regexp_film :
  is_Some (Re.search YGG.category_regexp
             "https://ygg/torrent/filmvidéo/film/101-the-matrix-1999").
Proof. eexists. reflexivity. Qed.

Example category_regexp_series :
  Re.search YGG.category_regexp
    "https://ygg/torrent/filmvidéo/série-tv/102-matrix-s01" = None.
Proof. reflexivity. Qed.

Example id_regexp_digits :
  (Re.search YGG.id_regexp "https://ygg/torrent/filmvidéo/film/101-the-matrix-1999")
    ≫= (fun m => Re.group m 1)
  = Some "101".
Proof. reflexivity. Qed.

Example id_regexp_last_segment :
  Re.search YGG.id_regexp "https://ygg/torrent/101-film/the-matrix" = None.
Proof. reflexivity. Qed.

Example tryInt_number : Host.tryInt " 42 " = 42%Z.
Proof. reflexivity. Qed.

Example tryInt_text : Host.tryInt "suivant" = 0%Z.
Proof. reflexivity. Qed.

Example quote_plus_title : Host.quote_all "the matrix & co" = "the+matrix+%26+co".
Proof. reflexivity. Qed.

End Patterns.

(** ** Strings and the matcher *)

Section RegexFacts.

(** Length of the longest run of bytes of class [p] at the head. *)
Fixpoint span_len (p : ascii -> bool) (s : string) : nat :=
  match s with
  | EmptyString => 0
  | String c s' => if p c then S (span_len p s') else 0
  end.

Lemma runs_head p s :
  exists tl, Re.runs p None s
             = (span_len p s, Host.drop_bytes (span_len p s) s) :: tl.
Proof.
  induction s as [|c s IH]; simpl.
  - eexists; reflexivity.
  - destruct (p c); simpl.
    + destruct IH as [tl ->]. simpl. eexists; reflexivity.
    + eexists; reflexivity.
Qed.

Lemma runs_zero p s : span_len p s = 0 -> Re.runs p None s = [(0, s)].
Proof.
  destruct s as [|c s]; simpl; [reflexivity|].
  destruct (p c); [discriminate | reflexivity].
Qed.

(** The first match of [class+]: the longest run, when it is not
    empty. *)
Lemma plus_head p m :
  head (Re.rmatch (Re.plus p) m)
  = if Nat.eqb (span_len p (Re.rest m)) 0 then None
    else Some (Re.MState (Re.pos m + span_len p (Re.rest m))
                 (Host.drop_bytes (span_len p (Re.rest m)) (Re.rest m))
                 (Re.groups m)).
Proof.
  unfold Re.plus. simpl.
  destruct (Nat.eqb (span_len p (Re.rest m)) 0) eqn:E.
  - apply Nat.eqb_eq in E. rewrite (runs_zero _ _ E). reflexivity.
  - destruct (runs_head p (Re.rest m)) as [tl ->]. simpl.
    destruct (span_len p (Re.rest m)); [discriminate | reflexivity].
Qed.

Lemma head_concat_map {A B} (f : A -> list B) (l : list A) :
  (forall a, a ∈ l -> f a <> []) ->
  head (List.concat (map f l))
  = match head l with Some a => head (f a) | None => None end.
Proof.
  destruct l as [|a l]; simpl; [reflexivity|]. intros Hne.
  specialize (Hne a (list_elem_of_here _ _)).
  destruct (f a); [done | reflexivity].
Qed.

Lemma head_map {A B} (f : A -> B) (l : list A) :
  head (map f l) = option_map f (head l).
Proof. destruct l; reflexivity. Qed.

Lemma take_app_length (s t : string) :
  Str.take (String.length s) (s +:+ t) = s.
Proof. induction s as [|c s IH]; simpl; [destruct t|]; congruence. Qed.

Lemma drop_prefix_app (p t : string) :
  Str.drop_prefix p (p +:+ t) = Some t.
Proof.
  induction p as [|c p IH]; simpl; [reflexivity|].
  rewrite Ascii.eqb_refl. exact IH.
Qed.

Lemma drop_prefix_inv (p s t : string) :
  Str.drop_prefix p s = Some t -> s = p +:+ t.
Proof.
  revert s; induction p as [|c p IH]; simpl; intros s Hs.
  - congruence.
  - destruct s as [|b s]; [discriminate|].
    destruct (Ascii.eqb c b) eqn:E; [|discriminate].
    apply Ascii.eqb_eq in E. subst b. f_equal. auto.
Qed.

Lemma span_len_split p s :
  s = Str.take (span_len p s) s +:+ Host.drop_bytes (span_len p s) s.
Proof.
  induction s as [|c s IH]; simpl; [reflexivity|].
  destruct (p c); simpl; congruence.
Qed.

Lemma span_len_take p s :
  Str.all_chars p (Str.take (span_len p s) s) = true.
Proof.
  induction s as [|c s IH]; simpl; [reflexivity|].
  destruct (p c) eqn:E; simpl; [rewrite E|]; auto.
Qed.

Lemma span_len_stop p s :
  match Host.drop_bytes (span_len p s) s with
  | EmptyString => True
  | String c _ => p c = false
  end.
Proof.
  induction s as [|c s IH]; simpl; [exact I|].
  destruct (p c) eqn:E; simpl; auto.
Qed.

Lemma span_len_app p (h t : string) :
  Str.all_chars p h = true ->
  match t with EmptyString => True | String c _ => p c = false end ->
  span_len p (h +:+ t) = String.length h.
Proof.
  intros Hh Ht. induction h as [|c h IH]; simpl in *.
  - destruct t as [|c t]; simpl; [reflexivity|]. rewrite Ht. reflexivity.
  - apply andb_true_iff in Hh as [-> Hh]. f_equal. auto.
Qed.

Lemma take_length_nil (s : string) : String.length s = 0 -> s = EmptyString.
Proof. destruct s; [reflexivity | discriminate]. Qed.

End RegexFacts.

(** ** The URL resolver *)

Section Resolver.

(** The shape of [url_regexp]: an anchored group made of a literal and a
    greedy run, then an optional literal. *)
Definition anchored (pre : string) (p : ascii -> bool) (suf : string)
  : Re.re :=
  Re.Seq Re.Bos
    (Re.Seq (Re.Grp (Re.Seq (Re.Lit pre) (Re.plus p)))
            (Re.Opt (Re.Lit suf))).

Lemma take_app_plus (pre t : string) n :
  Str.take (String.length pre + n) (pre +:+ t) = pre +:+ Str.take n t.
Proof. induction pre as [|c pre IH]; simpl; congruence. Qed.

Lemma opt_lit_groups suf m :
  exists m', head (Re.rmatch (Re.Opt (Re.Lit suf)) m) = Some m'
             /\ Re.groups m' = Re.groups m.
Proof.
  simpl. destruct (Str.drop_prefix suf (Re.rest m)); simpl; eauto.
Qed.

Lemma opt_nonempty r m : Re.rmatch (Re.Opt r) m <> [].
Proof. simpl. destruct (Re.rmatch r m); discriminate. Qed.

Lemma anchored_later pre p suf n s :
  Re.search_from (anchored pre p suf) (S n) s = None.
Proof.
  revert n; induction s as [|c s IH]; intros n; simpl; auto.
Qed.

Lemma anchored_first pre p suf u :
  match Re.match_at (anchored pre p suf) 0 u with
  | Some m =>
      exists t, Str.drop_prefix pre u = Some t
                /\ span_len p t <> 0
                /\ Re.group m 1 = Some (pre +:+ Str.take (span_len p t) t)
  | None =>
      Str.drop_prefix pre u = None
      \/ exists t, Str.drop_prefix pre u = Some t /\ span_len p t = 0
  end.
Proof.
  unfold Re.match_at, anchored.
  change (Re.rmatch (Re.Seq Re.Bos ?r) ?m)
    with (List.concat (map (Re.rmatch r) (Re.rmatch Re.Bos m))).
  change (Re.rmatch Re.Bos (Re.MState 0 u [])) with [Re.MState 0 u []].
  cbn [map List.concat]. rewrite app_nil_r.
  set (m0 := Re.MState 0 u []).
  change (Re.rmatch (Re.Seq ?a ?b) m0)
    with (List.concat (map (Re.rmatch b) (Re.rmatch a m0))).
  rewrite head_concat_map.
  2:{ intros a _. apply opt_nonempty. }
  change (Re.rmatch (Re.Grp ?r) m0)
    with (map (fun m' => Re.MState (Re.pos m') (Re.rest m')
                 (Re.groups m'
                    ++ [Str.take (Re.pos m' - Re.pos m0) (Re.rest m0)]))
            (Re.rmatch r m0)).
  rewrite head_map.
  change (Re.rmatch (Re.Seq (Re.Lit pre) (Re.plus p)) m0)
    with (List.concat (map (Re.rmatch (Re.plus p))
                         (Re.rmatch (Re.Lit pre) m0))).
  change (Re.rmatch (Re.Lit pre) m0)
    with (match Str.drop_prefix pre u with
          | Some t => [Re.MState (0 + String.length pre) t []]
          | None => []
          end).
  destruct (Str.drop_prefix pre u) as [t|] eqn:Hpre; [|left; reflexivity].
  cbn [map List.concat]. rewrite app_nil_r.
  rewrite plus_head. cbn [Re.rest Re.pos Re.groups].
  destruct (Nat.eqb (span_len p t) 0) eqn:E.
  - apply Nat.eqb_eq in E. right. eauto.
  - apply Nat.eqb_neq in E. cbn [option_map].
    match goal with
    | |- context [Re.rmatch (Re.Opt (Re.Lit suf)) ?m] =>
        destruct (opt_lit_groups suf m) as (m' & -> & Hg)
    end.
    exists t. split; [reflexivity|]. split; [assumption|].
    unfold Re.group. rewrite Hg. cbn.
    rewrite Nat.sub_0_r, (drop_prefix_inv _ _ _ Hpre).
    rewrite take_app_plus. reflexivity.
Qed.

Lemma anchored_search pre p suf u :
  Re.search (anchored pre p suf) u = Re.match_at (anchored pre p suf) 0 u.
Proof.
  unfold Re.search. destruct u as [|c u]; simpl Re.search_from.
  - destruct (Re.match_at _ _ _); reflexivity.
  - destruct (Re.match_at _ 0 _); [reflexivity|]. apply anchored_later.
Qed.

(** [u] matches [^(https://[^/\s]+)/?] with [base] as its group: [base]
    is [https://] and a host, a non-empty run without [/] or whitespace
    that stops at the end of [u], at a [/] or at a whitespace. *)
Definition matches_url_regexp (u base : string) : Prop :=
  exists host tail : string,
    base = "https://" +:+ host
    /\ u = base +:+ tail
    /\ host <> EmptyString
    /\ Str.all_chars Re.not_slash_space host = true
    /\ match tail with
       | EmptyString => True
       | String c _ => Re.not_slash_space c = false
       end.

Lemma append_assoc (a b c : string) : (a +:+ b) +:+ c = a +:+ (b +:+ c).
Proof. induction a as [|x a IH]; simpl; congruence. Qed.

Lemma append_inv_head (a b c : string) : a +:+ b = a +:+ c -> b = c.
Proof. induction a as [|x a IH]; simpl; intros E; [|injection E]; auto. Qed.

Lemma url_regexp_spec u :
  match Re.search YGG.url_regexp u with
  | Some m => exists base, Re.group m 1 = Some base
                           /\ matches_url_regexp u base
  | None => forall base, ~ matches_url_regexp u base
  end.
Proof.
  change YGG.url_regexp with (anchored "https://" Re.not_slash_space "/").
  rewrite anchored_search.
  pose proof (anchored_first "https://" Re.not_slash_space "/" u) as Hm.
  destruct (Re.match_at _ 0 u) as [m|].
  - destruct Hm as (t & Hpre & Hn & Hg).
    eexists; split; [exact Hg|].
    exists (Str.take (span_len Re.not_slash_space t) t),
           (Host.drop_bytes (span_len Re.not_slash_space t) t).
    split; [reflexivity|]. split.
    { rewrite append_assoc, <- span_len_split.
      exact (drop_prefix_inv _ _ _ Hpre). }
    split.
    { intros E. apply Hn. destruct t as [|c t]; [reflexivity|].
      simpl in *. destruct (Re.not_slash_space c); [discriminate|].
      reflexivity. }
    split; [apply span_len_take | apply span_len_stop].
  - intros base (host & tail & -> & -> & Hne & Hall & Htail).
    rewrite append_assoc, drop_prefix_app in Hm.
    destruct Hm as [Hm | (t & Ht & Hz)]; [discriminate|].
    injection Ht as <-.
    rewrite (span_len_app _ _ _ Hall Htail) in Hz.
    apply Hne, take_length_nil, Hz.
Qed.

Lemma matches_url_regexp_fun u b1 b2 :
  matches_url_regexp u b1 -> matches_url_regexp u b2 -> b1 = b2.
Proof.
  intros (h1 & t1 & -> & E1 & _ & A1 & T1) (h2 & t2 & -> & E2 & _ & A2 & T2).
  f_equal. rewrite E1 in E2. rewrite !append_assoc in E2.
  apply append_inv_head in E2.
  pose proof (span_len_app _ _ _ A1 T1) as L1.
  pose proof (span_len_app _ _ _ A2 T2) as L2.
  rewrite E2, L2 in L1.
  rewrite <- (take_app_length h1 t1), <- (take_app_length h2 t2).
  rewrite E2, L1. reflexivity.
Qed.

End Resolver.

Section ResolverClaims.
Context `{Externals}.

Definition endpoints (d : YGG.dict) : list (option Py.pyval) :=
  [d !! "login_check"; d !! "search"; d !! "torrent"; d !! "url"].

(** C6. For a configured url that matches [^(https://[^/\s]+)/?],
    [refreshUrls] sets the four endpoints to the matched base followed by
    [/user/account], [/engine/search?{}], [/torrent] and
    [/engine/download_torrent?id={}]; for a configured url that does not
    match, it sets the four endpoints to [None].  It never raises. *)
Theorem refreshUrls_endpoints (st : YGG.state) (u : string) :
  YGG.conf st !! "url" = Some u ->
  exists st',
    YGG.refreshUrls st = (Py.Ok tt, st')
    /\ (forall base, matches_url_regexp u base ->
          endpoints (YGG.urls st')
          = [Some (Py.VStr (base +:+ "/user/account"));
             Some (Py.VStr (base +:+ "/engine/search?{}"));
             Some (Py.VStr (base +:+ "/torrent"));
             Some (Py.VStr (base +:+ "/engine/download_torrent?id={}"))])
    /\ ((forall base, ~ matches_url_regexp u base) ->
          endpoints (YGG.urls st')
          = [Some Py.VNone; Some Py.VNone; Some Py.VNone; Some Py.VNone]).
Proof.
  intros Hconf.
  pose proof (url_regexp_spec u) as Hspec.
  unfold YGG.refreshUrls, YGG.conf_, YGG.search_setting, YGG.log_.
  unfold Py.bind, Py.modify, Py.get, Py.ret.
  cbn [YGG.conf YGG.set_last_login_check YGG.set_urls].
  destruct (YGG.conf st !! "url") as [u'|]; [|discriminate].
  injection Hconf as ->.
  destruct (Re.search YGG.url_regexp u) as [m|].
  - destruct Hspec as (base & Hg & Hbase). rewrite Hg.
    unfold Py.not_none, Py.ret. eexists. split; [reflexivity|]. split.
    + intros base' Hbase'.
      rewrite (matches_url_regexp_fun _ _ _ Hbase' Hbase).
      unfold endpoints. cbn [YGG.urls YGG.set_urls YGG.add_log].
      repeat f_equal; simplify_map_eq; reflexivity.
    + intros Hno. destruct (Hno base Hbase).
  - eexists. split; [reflexivity|]. split.
    + intros base Hbase. destruct (Hspec base Hbase).
    + intros _. unfold endpoints. cbn [YGG.urls YGG.set_urls YGG.add_log].
      repeat f_equal; simplify_map_eq; reflexivity.
Qed.

End ResolverClaims.

(** ** The search query builder *)

Section QueryFacts.

Definition no_char (c : ascii) (s : string) : Prop :=
  Str.all_chars (fun x => negb (Ascii.eqb x c)) s = true.

Definition brace_free (s : string) : Prop :=
  Str.all_chars (fun x => negb (Ascii.eqb x "{" || Ascii.eqb x "}")) s
  = true.

(** The part of an item before its first [sep], and the part after. *)
Fixpoint cut (sep : ascii) (s : string) : string * string :=
  match s with
  | EmptyString => (EmptyString, EmptyString)
  | String c s' =>
      if Ascii.eqb c sep then (EmptyString, s')
      else (String c (fst (cut sep s')), snd (cut sep s'))
  end.

(** The parameters a query string carries: its [&]-separated items,
    each cut at its first [=]. *)
Definition query_params (q : string) : list (string * string) :=
  map (cut "=") (Str.split "&" q).

Fixpoint lookup_param {V} (k : string) (l : list (string * V))
  : option V :=
  match l with
  | [] => None
  | (k', v) :: l' => if String.eqb k k' then Some v else lookup_param k l'
  end.

Definition query_param (k q : string) : option string :=
  lookup_param k (query_params q).

Lemma all_chars_app p (a b : string) :
  Str.all_chars p (a +:+ b) = Str.all_chars p a && Str.all_chars p b.
Proof.
  induction a as [|c a IH]; simpl; [reflexivity|].
  rewrite IH, andb_assoc. reflexivity.
Qed.

Lemma no_char_app c (a b : string) :
  no_char c a -> no_char c b -> no_char c (a +:+ b).
Proof.
  unfold no_char. rewrite all_chars_app. intros -> ->. reflexivity.
Qed.

Lemma split_single sep (a : string) :
  no_char sep a -> Str.split sep a = [a].
Proof.
  unfold no_char. induction a as [|c a IH]; simpl; [reflexivity|].
  intros Ha. apply andb_true_iff in Ha as [Hc Ha].
  apply negb_true_iff in Hc. rewrite Hc, (IH Ha). reflexivity.
Qed.

Lemma split_app sep (a b : string) :
  no_char sep a ->
  Str.split sep (a +:+ String sep b) = a :: Str.split sep b.
Proof.
  unfold no_char. induction a as [|c a IH]; simpl.
  - rewrite Ascii.eqb_refl. reflexivity.
  - intros Ha. apply andb_true_iff in Ha as [Hc Ha].
    apply negb_true_iff in Hc. rewrite Hc, (IH Ha). reflexivity.
Qed.

Lemma cut_app sep (k e : string) :
  no_char sep k -> cut sep (k +:+ String sep e) = (k, e).
Proof.
  unfold no_char. induction k as [|c k IH]; simpl.
  - rewrite Ascii.eqb_refl. reflexivity.
  - intros Hk. apply andb_true_iff in Hk as [Hc Hk].
    apply negb_true_iff in Hc. rewrite Hc, (IH Hk). reflexivity.
Qed.

Lemma append_nil_r (s : string) : s +:+ EmptyString = s.
Proof. induction s as [|c s IH]; simpl; congruence. Qed.

Lemma format_go_brace_free (pre arg : string) :
  brace_free pre ->
  Py.format_go (pre +:+ "{}") arg false = Py.Ok (pre +:+ arg).
Proof.
  unfold brace_free. induction pre as [|c pre IH].
  - intros _. simpl. rewrite append_nil_r. reflexivity.
  - simpl. intros Hp. apply andb_true_iff in Hp as [Hc Hp].
    apply negb_true_iff, orb_false_iff in Hc as [-> ->].
    rewrite (IH Hp). reflexivity.
Qed.

Lemma format_val_template (base path : string) (arg : Py.pyval) :
  brace_free base -> brace_free path ->
  Py.format_val (Py.VStr (base +:+ path +:+ "{}")) arg
  = Py.Ok (base +:+ path +:+ Py.py_str arg).
Proof.
  intros Hb Hp. unfold Py.format_val, Py.format.
  rewrite <- !append_assoc. apply format_go_brace_free.
  unfold brace_free in *. rewrite all_chars_app, Hb, Hp. reflexivity.
Qed.

Lemma quote_plus_clean c : no_char "&" (Host.quote_plus c).
Proof.
  destruct c as [[] [] [] [] [] [] [] []]; vm_compute; reflexivity.
Qed.

Lemma quote_all_clean s : no_char "&" (Host.quote_all s).
Proof.
  induction s as [|c s IH]; simpl; [reflexivity|].
  apply no_char_app; [apply quote_plus_clean | exact IH].
Qed.

(** One item of an encoded dictionary, and the items of a list after its
    first. *)
Definition item (kv : string * Py.pyval) : string :=
  fst kv +:+ "=" +:+ Host.tryUrlencode_value (snd kv).

Fixpoint items (l : list (string * Py.pyval)) : string :=
  match l with
  | [] => EmptyString
  | kv :: l' => "&" +:+ item kv +:+ items l'
  end.

Lemma foldl_items (l : list (string * Py.pyval)) (acc : string) :
  foldl (fun new kv =>
           new +:+ "&" +:+ fst kv +:+ "=" +:+ Host.tryUrlencode_value (snd kv))
        acc l
  = acc +:+ items l.
Proof.
  revert acc; induction l as [|kv l IH]; intros acc; cbn [foldl items].
  - symmetry; apply append_nil_r.
  - rewrite IH, append_assoc. reflexivity.
Qed.

Definition key_ok (k : string) : Prop := no_char "&" k /\ no_char "=" k.

Lemma item_clean kv : key_ok (fst kv) -> no_char "&" (item kv).
Proof.
  intros [Hk _]. unfold item.
  apply no_char_app; [exact Hk|].
  apply (no_char_app "&" "="); [reflexivity | apply quote_all_clean].
Qed.

Lemma split_items (a : string) (l : list (string * Py.pyval)) :
  no_char "&" a -> Forall (fun kv => key_ok (fst kv)) l ->
  Str.split "&" (a +:+ items l) = a :: map item l.
Proof.
  revert a; induction l as [|kv l IH]; intros a Ha Hl; simpl.
  - rewrite append_nil_r. apply split_single, Ha.
  - inversion Hl as [|? ? Hkv Hl']; subst.
    change ("&" +:+ item kv +:+ items l)
      with (String "&" (item kv +:+ items l)).
    rewrite (split_app _ _ _ Ha). f_equal.
    apply IH; [apply item_clean, Hkv | exact Hl'].
Qed.

Lemma lookup_param_items (k : string) (l : list (string * Py.pyval)) :
  Forall (fun kv => key_ok (fst kv)) l ->
  lookup_param k (map (cut "=") (map item l))
  = Host.tryUrlencode_value <$> lookup_param k l.
Proof.
  induction l as [|[k' v] l IH]; intros Hl; simpl; [reflexivity|].
  inversion Hl as [|? ? [_ Hk'] Hl']; subst. simpl in Hk'.
  unfold item at 1. simpl fst; simpl snd.
  change (k' +:+ "=" +:+ Host.tryUrlencode_value v)
    with (k' +:+ String "=" (Host.tryUrlencode_value v)).
  rewrite (cut_app _ _ _ Hk').
  destruct (String.eqb k k'); [reflexivity | apply IH, Hl'].
Qed.

Lemma lookup_param_elem {V} (l : list (string * V)) k v :
  NoDup (l.*1) -> (k, v) ∈ l -> lookup_param k l = Some v.
Proof.
  induction l as [|[k' v'] l IH]; intros Hnd Hin; [inversion Hin|].
  simpl. apply NoDup_cons in Hnd as [Hk' Hnd].
  destruct (String.eqb k k') eqn:E.
  - apply String.eqb_eq in E. subst k'.
    apply elem_of_cons in Hin as [Hin|Hin]; [congruence|].
    destruct Hk'. apply list_elem_of_fmap. exists (k, v). auto.
  - apply String.eqb_neq in E.
    apply elem_of_cons in Hin as [Hin|Hin]; [congruence|]. auto.
Qed.

Lemma lookup_param_none {V} (l : list (string * V)) k :
  (forall v, (k, v) ∉ l) -> lookup_param k l = None.
Proof.
  induction l as [|[k' v'] l IH]; intros Hno; [reflexivity|].
  simpl. destruct (String.eqb k k') eqn:E.
  - apply String.eqb_eq in E. subst k'. destruct (Hno v'). left.
  - apply IH. intros v Hv. apply (Hno v). right. exact Hv.
Qed.

Lemma lookup_param_map_to_list (d : gmap string Py.pyval) (k : string) :
  lookup_param k (map_to_list d) = d !! k.
Proof.
  destruct (d !! k) as [v|] eqn:E.
  - apply lookup_param_elem; [apply NoDup_fst_map_to_list|].
    apply elem_of_map_to_list, E.
  - apply lookup_param_none. intros v Hv.
    apply elem_of_map_to_list in Hv. congruence.
Qed.

End QueryFacts.

Section BuilderClaims.
Context `{Externals}.

(** Digits are left alone by [quote_plus]. *)
Lemma quote_all_digits_go (x : N) (s : string) :
  Host.quote_all s = s -> Host.quote_all (pretty_N_go x s) = pretty_N_go x s.
Proof.
  revert s. induction (N.lt_wf_0 x) as [x _ IH]; intros s Hs.
  assert (x = 0 \/ 0 < x)%N as [->|Hx] by lia.
  - rewrite pretty_N_go_0. exact Hs.
  - rewrite pretty_N_go_step by exact Hx.
    apply IH; [apply N.div_lt; [exact Hx | reflexivity]|].
    cbn [Host.quote_all]. rewrite Hs.
    unfold pretty_N_char. repeat case_match; reflexivity.
Qed.

Lemma quote_all_positive (z : Z) :
  (0 < z)%Z -> Host.tryUrlencode_value (Py.VInt z) = pretty z.
Proof.
  intros Hz. unfold Host.tryUrlencode_value, Py.py_str.
  destruct z as [|p|p]; try lia.
  unfold pretty, pretty_Z, pretty, pretty_N.
  destruct (decide (N.pos p = 0%N)); [discriminate|].
  apply quote_all_digits_go. reflexivity.
Qed.

(** The query string [tryUrlencode] builds carries the dictionary: the
    parameter [k] of the string is the encoded value of key [k]. *)
Lemma tryUrlencode_param (d : YGG.dict) (k : string) :
  d <> ∅ ->
  map_Forall (fun k' _ => key_ok k') d ->
  query_param k (Host.tryUrlencode d)
  = Host.tryUrlencode_value <$> d !! k.
Proof.
  intros Hne Hkeys. unfold Host.tryUrlencode. rewrite foldl_items.
  apply map_Forall_to_list in Hkeys.
  rewrite <- (lookup_param_map_to_list d k).
  destruct (map_to_list d) as [|kv l] eqn:E.
  { apply map_to_list_empty_iff in E. contradiction. }
  apply Forall_cons in Hkeys as [Hkv Hl].
  assert (Hl' : Forall (fun kv => key_ok (fst kv)) l).
  { eapply Forall_impl; [exact Hl|]. intros [] ?; assumption. }
  cbn [items String.append].
  unfold query_param, query_params.
  rewrite split_items; [|apply item_clean; destruct kv; exact Hkv|exact Hl'].
  change (item kv :: map item l) with (map item (kv :: l)).
  apply lookup_param_items. constructor; [destruct kv; exact Hkv|exact Hl'].
Qed.

Lemma search_params_keys title offset :
  map_Forall (fun k' _ => key_ok k') (YGG.search_params title offset).
Proof.
  unfold YGG.search_params.
  destruct (offset >? 0)%Z;
    repeat (apply map_Forall_insert_2; [split; reflexivity|]);
    apply map_Forall_empty.
Qed.

Lemma search_params_nonempty title offset :
  YGG.search_params title offset <> ∅.
Proof.
  unfold YGG.search_params.
  destruct (offset >? 0)%Z; apply insert_non_empty.
Qed.

Lemma search_params_page title offset :
  YGG.search_params title offset !! "page"
  = if (offset >? 0)%Z then Some (Py.VInt (offset * 50)) else None.
Proof.
  unfold YGG.search_params, YGG.limit.
  destruct (offset >? 0)%Z; simplify_map_eq; reflexivity.
Qed.

(** C7. With the search endpoint set, [buildUrl title offset] is the
    endpoint followed by a query string which has no [page] parameter
    when [offset] is 0 (or less), and whose [page] parameter is
    [offset * 50] when [offset > 0]. *)
Theorem buildUrl_page (st : YGG.state) (title base : string) (offset : Z) :
  YGG.urls st !! "search" = Some (Py.VStr (base +:+ "/engine/search?{}")) ->
  brace_free base ->
  exists query,
    YGG.buildUrl title offset st
    = (Py.Ok (base +:+ "/engine/search?" +:+ query), st)
    /\ query_param "page" query
       = if (offset >? 0)%Z then Some (pretty (offset * 50)%Z) else None.
Proof.
  intros Hurl Hbase.
  exists (Host.tryUrlencode (YGG.search_params title offset)). split.
  - unfold YGG.buildUrl, YGG.url_, Py.bind, Py.get, Py.getitem, Py.lift.
    rewrite Hurl. unfold Py.ret.
    rewrite (format_val_template base "/engine/search?");
      [reflexivity | exact Hbase | reflexivity].
  - rewrite tryUrlencode_param
      by (apply search_params_nonempty || apply search_params_keys).
    rewrite search_params_page.
    destruct (offset >? 0)%Z eqn:E; [|reflexivity].
    cbn [fmap option_fmap option_map]. f_equal.
    apply quote_all_positive. apply Z.gtb_lt in E. lia.
Qed.

End BuilderClaims.

(** ** The post-filter *)

Section FilterClaims.
Context `{Externals}.

Lemma existsb_eqb (e : string) (l : list string) :
  existsb (String.eqb e) l = true <-> e ∈ l.
Proof.
  rewrite existsb_exists. split.
  - intros (x & Hx & E). apply String.eqb_eq in E. subst x.
    apply list_elem_of_In, Hx.
  - intros He. exists e. split; [apply list_elem_of_In, He|].
    apply String.eqb_refl.
Qed.

Lemma removeDuplicate_go_elem seq checked x :
  x ∈ Host.removeDuplicate_go seq checked <-> x ∈ checked \/ x ∈ seq.
Proof.
  revert checked; induction seq as [|e seq IH]; intros checked; simpl.
  - rewrite elem_of_nil. tauto.
  - destruct (existsb (String.eqb e) checked) eqn:E; rewrite IH.
    + apply existsb_eqb in E. rewrite elem_of_cons.
      split; [tauto|]. intros [?|[->|?]]; auto.
    + rewrite elem_of_app, list_elem_of_singleton, elem_of_cons. tauto.
Qed.

Lemma removeDuplicate_go_NoDup seq checked :
  NoDup checked -> NoDup (Host.removeDuplicate_go seq checked).
Proof.
  revert checked; induction seq as [|e seq IH]; intros checked Hnd; simpl.
  - exact Hnd.
  - destruct (existsb (String.eqb e) checked) eqn:E; apply IH; auto.
    apply NoDup_app. split; [exact Hnd|]. split.
    + intros x Hx Hx'. apply list_elem_of_singleton in Hx'. subst x.
      apply existsb_eqb in Hx. congruence.
    + apply NoDup_singleton.
Qed.

(** Zero or one distinct element: any two elements are the same. *)
Definition at_most_one (l : list string) : Prop :=
  forall x y, x ∈ l -> y ∈ l -> x = y.

(** Two or more distinct elements. *)
Definition two_distinct (l : list string) : Prop :=
  exists x y, x ∈ l /\ y ∈ l /\ x <> y.

Lemma removeDuplicate_short (l : list string) :
  length (Host.removeDuplicate l) <= 1 <-> at_most_one l.
Proof.
  unfold Host.removeDuplicate.
  pose proof (removeDuplicate_go_NoDup l [] (NoDup_nil_2)) as Hnd.
  pose proof (fun x => removeDuplicate_go_elem l [] x) as Hel.
  assert (Hin : forall x, x ∈ l -> x ∈ Host.removeDuplicate_go l [])
    by (intros x Hx; apply Hel; right; exact Hx).
  assert (Hout : forall x, x ∈ Host.removeDuplicate_go l [] -> x ∈ l).
  { intros x Hx. apply Hel in Hx as [Hx|Hx]; [inversion Hx | exact Hx]. }
  clear Hel.
  destruct (Host.removeDuplicate_go l []) as [|a [|b r]]; simpl.
  - split; [|lia]. intros _ x y Hx. apply Hin in Hx. inversion Hx.
  - split; [|lia]. intros _ x y Hx Hy.
    apply Hin, list_elem_of_singleton in Hx.
    apply Hin, list_elem_of_singleton in Hy. congruence.
  - split; [lia|]. intros Hone. exfalso.
    apply NoDup_cons in Hnd as [Hab _]. apply Hab.
    assert (a = b) as ->; [|left].
    apply Hone; apply Hout; [left | right; left].
Qed.

Lemma at_most_one_dec (l : list string) :
  ~ at_most_one l <-> two_distinct l.
Proof.
  split.
  - intros Hno. destruct l as [|a l].
    { destruct Hno. intros x y Hx. inversion Hx. }
    destruct (decide (Forall (fun x => x = a) l)) as [Hall|Hex].
    + destruct Hno. rewrite Forall_forall in Hall. intros x y Hx Hy.
      apply elem_of_cons in Hx, Hy.
      destruct Hx as [->|Hx], Hy as [->|Hy]; auto.
      * symmetry; auto.
      * rewrite (Hall x Hx). symmetry; auto.
    + apply not_Forall_Exists, Exists_exists in Hex; [|intros; apply _].
      destruct Hex as (x & Hx & Hne).
      exists x, a. split; [right; exact Hx|]. split; [left | exact Hne].
  - intros (x & y & Hx & Hy & Hne) Hone. apply Hne, Hone; assumption.
Qed.

(** The identifiers a description carries, each as [getImdb] writes
    it. *)
Definition identifiers (description : string) : list string :=
  map Host.imdb_id
      (Re.findall Host.imdb_regexp (simplifyString description)).

Lemma getImdb_identifiers description :
  Host.getImdb description = Host.removeDuplicate (identifiers description).
Proof.
  unfold Host.getImdb, identifiers.
  destruct (Re.findall _ _); reflexivity.
Qed.

(** The description of a result, the empty string when it has none. *)
Definition description_of (nzb : YGG.dict) : option string :=
  match nzb !! "description" with
  | None => Some EmptyString
  | Some (Py.VStr s) => Some s
  | Some _ => None
  end.

Lemma extraCheck_run (st : YGG.state) (nzb : YGG.dict) description :
  description_of nzb = Some description ->
  exists st',
    YGG.extraCheck (st, nzb)
    = (Py.Ok (Nat.leb (length (Host.getImdb description)) 1), (st', nzb)).
Proof.
  unfold description_of, YGG.extraCheck. intros Hd.
  unfold Py.bind, YGG.on_arg, YGG.on_self, Py.get, YGG.as_str, YGG.log_,
    Py.modify, Py.ret. cbn [fst snd].
  destruct (nzb !! "description") as [[]|]; try discriminate;
    injection Hd as <-; cbn [default from_option id]; cbv zeta;
    destruct (length (Host.getImdb _)) as [|[|n]]; cbn; eauto.
Qed.

(** C9. On a result whose description is a string or is missing (then
    taken as empty), [extraCheck] returns true when the description
    carries zero or one distinct identifier and false when it carries
    two or more distinct identifiers. *)
Theorem extraCheck_bundle (st : YGG.state) (nzb : YGG.dict) description :
  description_of nzb = Some description ->
  exists verdict st',
    YGG.extraCheck (st, nzb) = (Py.Ok verdict, (st', nzb))
    /\ (at_most_one (identifiers description) -> verdict = true)
    /\ (two_distinct (identifiers description) -> verdict = false).
Proof.
  intros Hd. destruct (extraCheck_run st nzb description Hd) as [st' Hrun].
  eexists _, st'. split; [exact Hrun|].
  rewrite getImdb_identifiers. split.
  - intros Hone. apply Nat.leb_le, removeDuplicate_short, Hone.
  - intros Htwo. apply Nat.leb_gt. apply at_most_one_dec in Htwo.
    rewrite <- removeDuplicate_short in Htwo. lia.
Qed.

(** C10. [extraCheck] leaves the result as it found it, and its outcome
    is a function of the [description] entry alone. *)
Theorem extraCheck_frame (st : YGG.state) (nzb : YGG.dict) :
  snd (snd (YGG.extraCheck (st, nzb))) = nzb
  /\ forall (st2 : YGG.state) (nzb2 : YGG.dict),
       nzb2 !! "description" = nzb !! "description" ->
       fst (YGG.extraCheck (st2, nzb2)) = fst (YGG.extraCheck (st, nzb)).
Proof.
  split.
  - unfold YGG.extraCheck.
    unfold Py.bind, YGG.on_arg, YGG.on_self, Py.get, YGG.as_str, YGG.log_,
      Py.modify, Py.ret, Py.raise. cbn [fst snd].
    destruct (nzb !! "description") as [[]|]; cbn [default from_option id];
      try reflexivity; destruct (negb _); reflexivity.
  - intros st2 nzb2 Hd. unfold YGG.extraCheck.
    unfold Py.bind, YGG.on_arg, YGG.on_self, Py.get, YGG.as_str, YGG.log_,
      Py.modify, Py.ret, Py.raise. cbn [fst snd]. rewrite Hd.
    destruct (nzb !! "description") as [[]|]; cbn [default from_option id];
      try reflexivity; destruct (negb _); reflexivity.
Qed.

End FilterClaims.

(** ** The session validator *)

Section TreeFacts.

Variable P : Html.node -> Prop.
Hypothesis text_case : forall s, P (Html.Text s).
Hypothesis tag_case :
  forall name attrs cs, Forall P cs -> P (Html.Tag name attrs cs).

(** Induction on a document: a tag from its children. *)
Fixpoint node_induction (n : Html.node) : P n :=
  match n with
  | Html.Text s => text_case s
  | Html.Tag name attrs cs =>
      tag_case name attrs cs
        ((fix children (l : list Html.node) : Forall P l :=
            match l with
            | [] => List.Forall_nil P
            | c :: l' =>
                @List.Forall_cons _ P c l' (node_induction c) (children l')
            end) cs)
  end.

End TreeFacts.

Section ValidatorFacts.

Lemma descendants_tag anc name attrs cs :
  Html.descendants anc (Html.Tag name attrs cs)
  = List.concat
      (map (fun c =>
              Html.Element c (Html.Tag name attrs cs :: anc)
                :: Html.descendants (Html.Tag name attrs cs :: anc) c)
           cs).
Proof.
  cbn [Html.descendants].
  generalize (Html.Tag name attrs cs :: anc) as up.
  intros up. induction cs as [|c cs IH]; [reflexivity|].
  cbn [map List.concat]. rewrite <- IH. reflexivity.
Qed.

Lemma get_text_tag name attrs cs :
  Html.get_text (Html.Tag name attrs cs)
  = fold_right (fun c acc => Html.get_text c +:+ acc) EmptyString cs.
Proof.
  cbn [Html.get_text]. induction cs as [|c cs IH]; [reflexivity|].
  cbn [fold_right]. rewrite <- IH. reflexivity.
Qed.

Lemma startswith_refl_app (t b : string) : Str.startswith t (t +:+ b) = true.
Proof. unfold Str.startswith. rewrite drop_prefix_app. reflexivity. Qed.

Lemma startswith_app (t a b : string) :
  Str.startswith t a = true -> Str.startswith t (a +:+ b) = true.
Proof.
  unfold Str.startswith.
  destruct (Str.drop_prefix t a) as [r|] eqn:E; [|discriminate].
  intros _. apply drop_prefix_inv in E. subst a.
  rewrite append_assoc, drop_prefix_app. reflexivity.
Qed.

Lemma contains_app_l (t a b : string) :
  Str.contains t a = true -> Str.contains t (a +:+ b) = true.
Proof.
  induction a as [|c a IH]; cbn [Str.contains].
  - rewrite orb_false_r. intros Ht.
    destruct t as [|x t]; [destruct b; reflexivity | discriminate].
  - intros Ht. apply orb_true_iff in Ht as [Ht|Ht].
    + pose proof (startswith_app _ (String c a) b Ht) as E.
      change (String c a +:+ b) with (String c (a +:+ b)) in E |- *.
      cbn [Str.contains]. rewrite E. reflexivity.
    + change (String c a +:+ b) with (String c (a +:+ b)).
      cbn [Str.contains]. rewrite (IH Ht). apply orb_true_r.
Qed.

Lemma contains_app_r (t a b : string) :
  Str.contains t b = true -> Str.contains t (a +:+ b) = true.
Proof.
  intros Ht. induction a as [|c a IH]; [exact Ht|].
  change (String c a +:+ b) with (String c (a +:+ b)).
  cbn [Str.contains]. rewrite IH. apply orb_true_r.
Qed.

Lemma contains_refl (t : string) : Str.contains t t = true.
Proof.
  destruct t as [|c t]; [reflexivity|]. cbn [Str.contains].
  rewrite <- (append_nil_r (String c t)) at 2.
  rewrite startswith_refl_app. reflexivity.
Qed.

(** A text node of the document is part of the document's text. *)
Lemma text_node_in_text (t : string) (n : Html.node) :
  forall anc e,
    e ∈ Html.descendants anc n -> Html.here e = Html.Text t ->
    Str.contains t (Html.get_text n) = true.
Proof.
  induction n as [s | name attrs cs IH] using node_induction;
    intros anc e He Ht.
  - inversion He.
  - rewrite descendants_tag in He. rewrite get_text_tag.
    generalize dependent (Html.Tag name attrs cs :: anc). intros up He.
    induction IH as [|c cs Hc _ IHcs]; [inversion He|].
    cbn [map List.concat fold_right] in *.
    apply elem_of_cons in He as [->|He].
    + cbn [Html.here] in Ht. subst c. cbn [Html.get_text].
      apply contains_app_l, contains_refl.
    + apply elem_of_app in He as [He|He].
      * apply contains_app_l. eapply Hc; eassumption.
      * apply contains_app_r. apply IHcs, He.
Qed.

Lemma head_filter_Some {A} (f : A -> bool) (l : list A) :
  is_Some (head (List.filter f l)) <-> exists x, x ∈ l /\ f x = true.
Proof.
  induction l as [|a l IH]; cbn [List.filter].
  - split; [intros [x Hx]; discriminate | intros (x & Hx & _); inversion Hx].
  - destruct (f a) eqn:E.
    + split; [|intros _; eexists; reflexivity].
      intros _. exists a. split; [left | exact E].
    + rewrite IH. split.
      * intros (x & Hx & Hf). exists x. split; [right; exact Hx | exact Hf].
      * intros (x & Hx & Hf). apply elem_of_cons in Hx as [->|Hx];
          [congruence | eauto].
Qed.

Lemma text_is_true t n : Html.text_is t n = true <-> n = Html.Text t.
Proof.
  destruct n as [s|]; cbn; [|split; discriminate].
  rewrite String.eqb_eq. split; congruence.
Qed.

End ValidatorFacts.

Section ValidatorClaims.
Context `{Externals}.

(** The document has a text node that is exactly [t]. *)
Definition has_text_node (t : string) (soup : Html.node) : Prop :=
  exists e, e ∈ Html.descendants [] soup /\ Html.here e = Html.Text t.


End ValidatorClaims.

(** ** The detail enricher *)

Section MonadFacts.
Context {St A B : Type}.

Lemma bind_ok (c : Py.M St A) (k : A -> Py.M St B) s a s' :
  c s = (Py.Ok a, s') -> Py.bind c k s = k a s'.
Proof. unfold Py.bind. intros ->. reflexivity. Qed.

Lemma bind_raise (c : Py.M St A) (k : A -> Py.M St B) s e s' :
  c s = (Py.Raise e, s') -> Py.bind c k s = (Py.Raise e, s').
Proof. unfold Py.bind. intros ->. reflexivity. Qed.

End MonadFacts.

(** Running one statement: unfold the statement, then use what is known
    of the values it reads. *)
Ltac run :=
  unfold Py.get, Py.modify, Py.ret, Py.raise, Py.lift, Py.not_none,
    Py.getitem, Py.index, YGG.on_self, YGG.on_arg, YGG.as_str, YGG.log_,
    YGG.setitem, YGG.url_, YGG.fetch, YGG.now;
  cbn [fst snd YGG.site YGG.urls YGG.set_site YGG.add_log].

Ltac step := erewrite bind_ok by (run; reflexivity).
Ltac step_with H := erewrite bind_ok by (run; rewrite H; reflexivity).

Section EnricherClaims.
Context `{Externals}.

Lemma split_head sep s : head (Str.split sep s) = Some (fst (cut sep s)).
Proof.
  induction s as [|c s IH]; cbn [Str.split cut]; [reflexivity|].
  destruct (Ascii.eqb c sep); [reflexivity|].
  destruct (Str.split sep s); [discriminate|].
  cbn in *. congruence.
Qed.

(** The publish date as the page shows it: the text of the cell, up to
    its first parenthesis, stripped. *)
Definition publish_text (line : Html.element) : string :=
  Str.strip (fst (cut "(" (Html.get_text (Html.here line)))).

(** The result once the description block, if there is one, has been
    stored. *)
Definition with_description (soup : Html.node) (i : nat) (nzb : YGG.dict)
  : YGG.dict :=
  match Html.find_next (Html.is_tag "div") soup i with
  | Some d => <["description" := Py.VStr (prettify (Html.here d))]> nzb
  | None => nzb
  end.

(** C8, amended.  On a result with a [detail_url] whose page has a
    description header, [getMoreInfo] stores the description when a block
    follows the header (and leaves it alone otherwise), then stores as
    [age] the floor of the number of days from the publish date to now;
    when the label is missing, or the date does not parse, it raises to
    its caller (the description, if any, is stored by then). *)
Theorem getMoreInfo_enrich (st : YGG.state) (nzb : YGG.dict)
    (u data : string) (w : world) (soup : Html.node) (i : nat)
    (header : Html.element) :
  nzb !! "detail_url" = Some (Py.VStr u) ->
  getHTMLData u (YGG.site st) = (Py.Ok data, w) ->
  BeautifulSoup data = Py.Ok soup ->
  Html.find_at (Html.has_class "description-header") soup
    = Some (i, header) ->
  let st1 := YGG.set_site w st in
  let nzb1 := with_description soup i nzb in
  (forall j label line added today w',
      Html.find_at (Html.text_is "Uploadé le") soup = Some (j, label) ->
      Html.find_next (Html.is_tag "td") soup j = Some line ->
      strptime (publish_text line) "%d/%m/%Y %H:%M" = Py.Ok added ->
      datetime_now w = (today, w') ->
      exists age,
        YGG.getMoreInfo (st, nzb)
        = (Py.Ok tt,
           (YGG.add_log YGG.DEBUG (YGG.Value (Py.VInt age))
              (YGG.set_site w' st1),
            <["age" := Py.VInt age]> nzb1))
        /\ (86400 * age <= today - added < 86400 * (age + 1))%Z)
  /\ (Html.find_at (Html.text_is "Uploadé le") soup = None ->
      YGG.getMoreInfo (st, nzb) = (Py.Raise Py.AttributeError, (st1, nzb1)))
  /\ (forall j label line e,
      Html.find_at (Html.text_is "Uploadé le") soup = Some (j, label) ->
      Html.find_next (Html.is_tag "td") soup j = Some line ->
      strptime (publish_text line) "%d/%m/%Y %H:%M" = Py.Raise e ->
      YGG.getMoreInfo (st, nzb) = (Py.Raise e, (st1, nzb1))).
Proof.
  intros Hurl Hfetch Hsoup Hheader st1 nzb1.
  assert (Hblock :
    match Html.find_next (Html.is_tag "div") soup (i, header).1 with
    | Some d =>
        YGG.on_arg (YGG.setitem "description"
                      (Py.VStr (prettify (Html.here d))))
    | None => Py.ret tt
    end (st1, nzb) = (Py.Ok tt, (st1, nzb1))).
  { unfold nzb1, with_description. cbn [fst].
    destruct (Html.find_next (Html.is_tag "div") soup i); reflexivity. }
  unfold YGG.getMoreInfo.
  step. step_with Hurl. step. step_with Hfetch. step_with Hsoup.
  step_with Hheader. erewrite bind_ok by exact Hblock.
  repeat split.
  - intros j label line added today w' Hlabel Hline Hdate Hnow.
    exists ((today - added) / 86400)%Z. split.
    + step_with Hlabel. step_with Hline.
      erewrite bind_ok
        by (run; pose proof (split_head "(" (Html.get_text (Html.here line)))
              as E; destruct (Str.split _ _); [discriminate|];
            injection E as ->; reflexivity).
      fold (publish_text line). step_with Hdate.
      erewrite bind_ok
        by (run; unfold st1; cbn [YGG.site YGG.set_site]; rewrite Hnow;
            reflexivity).
      step. step. erewrite bind_ok by (run; rewrite lookup_insert_eq; reflexivity).
      reflexivity.
    + pose proof (Z.div_mod (today - added) 86400 ltac:(lia)) as Hdm.
      pose proof (Z.mod_pos_bound (today - added) 86400 ltac:(lia)) as Hb.
      lia.
  - intros Hlabel. erewrite bind_raise by (run; rewrite Hlabel; reflexivity).
    reflexivity.
  - intros j label line e Hlabel Hline Hdate.
    step_with Hlabel. step_with Hline.
    erewrite bind_ok
      by (run; pose proof (split_head "(" (Html.get_text (Html.here line)))
            as E; destruct (Str.split _ _); [discriminate|];
          injection E as ->; reflexivity).
    fold (publish_text line).
    erewrite bind_raise by (run; rewrite Hdate; reflexivity).
    reflexivity.
Qed.

End EnricherClaims.

(** ** The result extractor *)

Create HintDb grows discriminated.

Abbreviation search := (Py.M (YGG.state * YGG.sink)) (only parsing).

Section SearchFacts.
Context `{Externals}.

Lemma _searchOnTitle_eq depth title media quality offset :
  YGG._searchOnTitle depth title media quality offset
  = Py.try_except (YGG.protected depth title media quality offset)
                  YGG.search_failed.
Proof. destruct depth; reflexivity. Qed.

(** A computation that only ever appends to [results]. *)
Definition grows {A} (c : search A) : Prop :=
  forall s o s',
    c s = (o, s') ->
    YGG.results (snd s) `prefix_of` YGG.results (snd s').

Lemma grows_ret {A} (a : A) : grows (Py.ret a).
Proof. intros s o s' [= <- <-]. reflexivity. Qed.

Lemma grows_raise {A} e : grows (@Py.raise _ A e).
Proof. intros s o s' [= <- <-]. reflexivity. Qed.

Lemma grows_lift {A} (o : Py.outcome A) : grows (Py.lift o).
Proof. intros s o' s' [= <- <-]. reflexivity. Qed.

Lemma grows_not_none {A} (o : option A) : grows (Py.not_none o).
Proof. destruct o; [apply grows_ret | apply grows_raise]. Qed.

Lemma grows_index {A} (l : list A) i : grows (Py.index l i).
Proof.
  unfold Py.index. destruct (l !! i); [apply grows_ret | apply grows_raise].
Qed.

Lemma grows_bind {A B} (c : search A) (k : A -> search B) :
  grows c -> (forall a, grows (k a)) -> grows (Py.bind c k).
Proof.
  intros Hc Hk s o s'. unfold Py.bind.
  destruct (c s) as [[a|e] s1] eqn:E; intros Hrun.
  - etrans; [exact (Hc _ _ _ E) | exact (Hk _ _ _ _ Hrun)].
  - injection Hrun as <- <-. exact (Hc _ _ _ E).
Qed.

Lemma grows_on_self {A} (c : Py.M YGG.state A) : grows (YGG.on_self c).
Proof.
  intros s o s'. unfold YGG.on_self. destruct (c s.1).
  intros [= <- <-]. reflexivity.
Qed.

Lemma grows_on_arg {A} (c : Py.M YGG.sink A) :
  (forall k o k', c k = (o, k') ->
                  YGG.results k `prefix_of` YGG.results k') ->
  grows (YGG.on_arg c).
Proof.
  intros Hc s o s'. unfold YGG.on_arg.
  destruct (c s.2) eqn:E. intros [= <- <-]. exact (Hc _ _ _ E).
Qed.

Lemma grows_append r : grows (YGG.on_arg (YGG.append r)).
Proof.
  apply grows_on_arg. intros k o k' [= <- <-]. cbn. apply prefix_app_r.
  reflexivity.
Qed.

Lemma grows_get : grows (YGG.on_arg Py.get).
Proof. apply grows_on_arg. intros k o k' [= <- <-]. reflexivity. Qed.

Lemma grows_calls (f : list YGG.call -> list YGG.call) :
  grows (YGG.on_arg
           (Py.modify (fun k => YGG.Sink (YGG.results k) (f (YGG.calls k))))).
Proof. apply grows_on_arg. intros k o k' [= <- <-]. reflexivity. Qed.

Lemma grows_for_each {A} (l : list A) (body : A -> search Py.flow) :
  (forall x, grows (body x)) -> grows (Py.for_each l body).
Proof.
  intros Hbody. induction l as [|x l IH]; cbn [Py.for_each].
  - apply grows_ret.
  - apply grows_bind; [apply Hbody|]. intros []; [exact IH | apply grows_ret].
Qed.

Lemma grows_try_except {A} (body : search A) handler :
  grows body -> (forall e, grows (handler e)) ->
  grows (Py.try_except body handler).
Proof.
  intros Hb Hh s o s'. unfold Py.try_except.
  destruct (body s) as [[a|e] s1] eqn:E; intros Hrun.
  - injection Hrun as <- <-. exact (Hb _ _ _ E).
  - etrans; [exact (Hb _ _ _ E) | exact (Hh _ _ _ _ Hrun)].
Qed.

Hint Resolve grows_ret grows_raise grows_lift grows_not_none grows_index
  grows_on_self grows_append grows_get grows_try_except : grows.

(** Statement by statement. *)
Ltac grow :=
  repeat first
    [ solve [auto with grows]
    | apply grows_bind; [|intros ?]
    | apply grows_for_each; intros ?
    | match goal with
      | |- grows (match ?x with _ => _ end) => destruct x
      end ].

Lemma grows_scan_link link : grows (YGG.scan_link link).
Proof. unfold YGG.scan_link, YGG.href. grow. Qed.

Hint Resolve grows_scan_link : grows.

Lemma grows_scan_page recurse offset page :
  (forall o, grows (recurse o)) -> grows (YGG.scan_page recurse offset page).
Proof. intros Hr. unfold YGG.scan_page. grow. Qed.

Hint Resolve grows_scan_page : grows.

Lemma grows_search_page recurse title offset :
  (forall o, grows (recurse o)) ->
  grows (YGG.search_page recurse title offset).
Proof.
  intros Hr. unfold YGG.search_page. grow.
Qed.

Lemma grows_search_failed e : grows (YGG.search_failed e).
Proof. apply grows_on_self. Qed.

Lemma grows_recursive_call callee title media quality offset :
  (forall method, callee = Some method -> forall o, grows (method o)) ->
  grows (YGG.recursive_call callee title media quality offset).
Proof.
  intros Hm. unfold YGG.recursive_call. destruct callee as [method|].
  - specialize (Hm method eq_refl). unfold YGG.record_call,
      YGG.forget_calls, YGG.restore_calls.
    grow; try apply Hm;
      first [ apply (grows_calls (fun cs => cs ++ [_]))
            | apply (grows_calls (fun _ => [])) 
            | apply (grows_calls (fun _ => YGG.calls _)) ].
  - apply grows_raise.
Qed.

Lemma grows_searchOnTitle depth title media quality offset :
  grows (YGG._searchOnTitle depth title media quality offset).
Proof.
  revert offset. induction depth as [|depth IH]; intros offset;
    rewrite _searchOnTitle_eq; apply grows_try_except;
    try apply grows_search_failed;
    apply grows_search_page; intros o; apply grows_recursive_call;
    cbn [YGG.callee]; intros method [= <-]. exact IH.
Qed.

Lemma searchOnTitle_returns depth title media quality offset s :
  exists s',
    YGG._searchOnTitle depth title media quality offset s = (Py.Ok tt, s')
    /\ YGG.results s.2 `prefix_of` YGG.results s'.2.
Proof.
  pose proof (grows_searchOnTitle depth title media quality offset s) as Hg.
  rewrite _searchOnTitle_eq in *. unfold Py.try_except in *.
  destruct (YGG.protected depth title media quality offset s)
    as [[[]|e] s1]; eexists; (split; [reflexivity|]);
    exact (Hg _ _ eq_refl).
Qed.

Lemma search_failed_ok e s :
  YGG.search_failed e s
  = (Py.Ok tt,
     (YGG.add_log YGG.ERROR
        (YGG.Traceback ("Failed searching release from " +:+ getName +:+ ": ")
           e) s.1,
      s.2)).
Proof. reflexivity. Qed.

End SearchFacts.

Section SwallowClaims.
Context `{Externals}.

(** C2. Whatever is raised while a page is fetched, parsed, scanned or
    its pagination followed, [_searchOnTitle] returns normally: the
    exception is logged with its traceback and nothing else changes, so
    the results appended before it are still in the list.  No call ever
    takes a result out of the list. *)
Theorem searchOnTitle_swallows (depth : nat) (title : string)
    (media quality : YGG.dict) (offset : Z) (s : YGG.state * YGG.sink) :
  exists s',
    YGG._searchOnTitle depth title media quality offset s = (Py.Ok tt, s')
    /\ YGG.results s.2 `prefix_of` YGG.results s'.2
    /\ forall e s1,
         YGG.protected depth title media quality offset s = (Py.Raise e, s1) ->
         s' = (YGG.add_log YGG.ERROR
                 (YGG.Traceback
                    ("Failed searching release from " +:+ getName +:+ ": ") e)
                 s1.1,
               s1.2)
         /\ YGG.results s.2 `prefix_of` YGG.results s1.2.
Proof.
  pose proof (grows_searchOnTitle depth title media quality offset s) as Hg.
  assert (Hp : grows (YGG.protected depth title media quality offset)).
  { apply grows_search_page. intros o. apply grows_recursive_call.
    destruct depth; cbn [YGG.callee]; intros method [= <-].
    apply grows_searchOnTitle. }
  rewrite _searchOnTitle_eq in *. unfold Py.try_except in *.
  destruct (YGG.protected depth title media quality offset s)
    as [[[]|e] s1] eqn:E.
  - exists s1. split; [reflexivity|]. split; [exact (Hg _ _ eq_refl)|].
    intros e' s1' [=].
  - rewrite search_failed_ok in *. eexists. split; [reflexivity|].
    split; [exact (Hg _ _ eq_refl)|].
    intros e' s1' [= <- <-]. split; [reflexivity|]. exact (Hp _ _ _ E).
Qed.

End SwallowClaims.

Section ExtractionFacts.
Context `{Externals}.

(** The row of a link: the parent of its parent. *)
Definition row_of (link : Html.element) : option Html.element :=
  Html.parent link ≫= Html.parent.

(** The stripped text of the [i]-th cell (from 0) of the link's row. *)
Definition cell_text (link : Html.element) (i : nat) : option string :=
  row ← row_of link;
  c ← Html.find_all (Html.is_tag "td") row !! i;
  Some (YGG.parseText (Html.here c)).

(** The id the link's href ends with, after its last [/]. *)
Definition parsed_id (link : Html.element) : option Z :=
  h ← Html.attr "href" (Html.here link);
  m ← Re.search YGG.id_regexp h;
  g ← Re.group m 1;
  Some (Host.tryInt g).

(** The link's href matches the category path. *)
Definition qualifies (link : Html.element) : bool :=
  match Html.attr "href" (Html.here link) with
  | Some h => bool_decide (is_Some (Re.search YGG.category_regexp h))
  | None => false
  end.

(** [f] holds of the string or of one of its suffixes. *)
Fixpoint any_suffix (f : string -> bool) (s : string) : bool :=
  f s || match s with
         | EmptyString => false
         | String _ s' => any_suffix f s'
         end.

Lemma contains_any_suffix sub s :
  Str.contains sub s = any_suffix (Str.startswith sub) s.
Proof. induction s as [|c s IH]; cbn; [|rewrite IH]; reflexivity. Qed.

Lemma any_suffix_orb f g s :
  any_suffix (fun x => f x || g x) s = any_suffix f s || any_suffix g s.
Proof.
  induction s as [|c s IH]; cbn [any_suffix].
  - destruct (f EmptyString), (g EmptyString); reflexivity.
  - rewrite IH. destruct (f (String c s)), (g (String c s)),
      (any_suffix f s), (any_suffix g s); reflexivity.
Qed.

Lemma search_from_any_suffix (r : Re.re) (f : string -> bool) :
  (forall p s, is_Some (Re.match_at r p s) <-> f s = true) ->
  forall s p, is_Some (Re.search_from r p s) <-> any_suffix f s = true.
Proof.
  intros Hf. induction s as [|c s IH]; intros p; cbn [Re.search_from any_suffix].
  - rewrite orb_false_r, <- (Hf p).
    destruct (Re.match_at r p EmptyString); split; auto;
      try (intros [? [=]]).
  - rewrite orb_true_iff, <- (Hf p), <- (IH (S p)).
    destruct (Re.match_at r p (String c s)) as [m|].
    + split; [left|]; eexists; reflexivity.
    + split; [right; assumption|]. intros [[? [=]]|Hs]; exact Hs.
Qed.

Lemma drop_prefix_append (x y s : string) :
  Str.drop_prefix (x +:+ y) s
  = match Str.drop_prefix x s with
    | Some t => Str.drop_prefix y t
    | None => None
    end.
Proof.
  revert s. induction x as [|c x IH]; intros s; cbn; [reflexivity|].
  destruct s as [|b s]; [reflexivity|]. destruct (Ascii.eqb c b); auto.
Qed.

(** A literal, one of three literals, a literal: the shape of
    [category_regexp]. *)
Lemma one_of_three_first (a b1 b2 b3 c : string) p s :
  is_Some (Re.match_at
             (Re.Seq (Re.Lit a)
                (Re.Seq (Re.Grp (Re.Alt (Re.Lit b1)
                                   (Re.Alt (Re.Lit b2) (Re.Lit b3))))
                        (Re.Lit c))) p s)
  <-> Str.startswith (a +:+ b1 +:+ c) s
      || Str.startswith (a +:+ b2 +:+ c) s
      || Str.startswith (a +:+ b3 +:+ c) s = true.
Proof.
  unfold Str.startswith, Re.match_at. rewrite !drop_prefix_append.
  cbn [Re.rmatch Re.rest Re.pos Re.groups].
  destruct (Str.drop_prefix a s) as [t|];
    cbn [map List.concat app Re.rmatch Re.rest Re.pos Re.groups];
    [|split; [intros [? [=]] | discriminate]].
  rewrite !drop_prefix_append.
  destruct (Str.drop_prefix b1 t) as [t1|], (Str.drop_prefix b2 t) as [t2|],
    (Str.drop_prefix b3 t) as [t3|];
    cbn [map List.concat app Re.rmatch Re.rest Re.pos Re.groups];
    repeat match goal with
           | |- context [Str.drop_prefix c ?x] =>
               destruct (Str.drop_prefix c x)
           end;
    cbn [map List.concat app head orb];
    first [ split; [intros _; reflexivity | intros _; eexists; reflexivity]
          | split; [intros [? [=]] | discriminate] ].
Qed.

(** A link qualifies when its href has one of the three category paths
    somewhere. *)
Lemma qualifies_category (link : Html.element) (h : string) :
  Html.attr "href" (Html.here link) = Some h ->
  qualifies link
  = Str.contains "/filmvidéo/film/" h
    || Str.contains "/filmvidéo/animation/" h
    || Str.contains "/filmvidéo/documentaire/" h.
Proof.
  intros Hh. unfold qualifies. rewrite Hh.
  rewrite !contains_any_suffix, <- !any_suffix_orb.
  apply eq_true_iff_eq. rewrite bool_decide_eq_true.
  apply (search_from_any_suffix YGG.category_regexp).
  intros p s. apply (one_of_three_first "/filmvidéo/" "film" "animation"
                       "documentaire" "/").
Qed.

(** The href carries an id and the row has its nine cells. *)
Definition well_formed (link : Html.element) : Prop :=
  is_Some (parsed_id link) /\ is_Some (cell_text link 8).

(** [r] is the result of [link]: id from the href, size, seeders and
    leechers from cells 5, 7 and 8 of the row, the download url built
    from the id. *)
Definition describes (base : string) (link : Html.element) (r : YGG.dict)
  : Prop :=
  exists h id size seeders leechers,
    Html.attr "href" (Html.here link) = Some h
    /\ parsed_id link = Some id
    /\ cell_text link 5 = Some size
    /\ cell_text link 7 = Some seeders
    /\ cell_text link 8 = Some leechers
    /\ r = YGG.result_literal id (YGG.parseText (Html.here link))
             (Host.tryInt seeders) (Host.tryInt leechers) (parseSize size)
             (base +:+ "/engine/download_torrent?id=" +:+ pretty id) h.

(** The entries of a described result, one by one. *)
Lemma describes_fields (base : string) (link : Html.element) (r : YGG.dict) :
  describes base link r ->
  r !! "id" = Py.VInt <$> parsed_id link
  /\ r !! "size" = parseSize <$> cell_text link 5
  /\ r !! "seeders" = (fun t => Py.VInt (Host.tryInt t)) <$> cell_text link 7
  /\ r !! "leechers" = (fun t => Py.VInt (Host.tryInt t)) <$> cell_text link 8
  /\ r !! "verified" = Some (Py.VBool true)
  /\ r !! "url"
     = (fun id => Py.VStr (base +:+ "/engine/download_torrent?id="
                             +:+ pretty id)) <$> parsed_id link
  /\ r !! "detail_url" = Py.VStr <$> Html.attr "href" (Html.here link)
  /\ r !! "description" = None
  /\ r !! "age" = None.
Proof.
  intros (h & id & size & seeders & leechers & Hh & Hid & H5 & H7 & H8 & ->).
  rewrite Hh, Hid, H5, H7, H8. unfold YGG.result_literal.
  repeat split; simplify_map_eq; reflexivity.
Qed.

(** The provider with more entries in its log. *)
Definition logged (entries : list (YGG.level * YGG.message))
    (st : YGG.state) : YGG.state :=
  YGG.State (YGG.conf st) (YGG.urls st) (YGG.last_login_check st)
            (YGG.log st ++ entries) (YGG.site st).

Lemma logged_nil st : logged [] st = st.
Proof. destruct st. unfold logged. cbn. rewrite app_nil_r. reflexivity. Qed.

Lemma logged_logged e1 e2 st : logged e2 (logged e1 st) = logged (e1 ++ e2) st.
Proof. unfold logged. cbn. rewrite app_assoc. reflexivity. Qed.

Lemma add_log_logged l m st : YGG.add_log l m st = logged [(l, m)] st.
Proof. reflexivity. Qed.

Lemma lookup_lt_is_Some_le {A} (l : list A) i j :
  i <= j -> is_Some (l !! j) -> is_Some (l !! i).
Proof.
  intros Hij Hj. apply lookup_lt_is_Some. apply lookup_lt_is_Some in Hj. lia.
Qed.

Lemma url_run {R} (key : string) (v : Py.pyval) (st : YGG.state) (r : R) :
  YGG.urls st !! key = Some v ->
  YGG.on_self (YGG.url_ key) (st, r) = (Py.Ok v, (st, r)).
Proof.
  intros Hv. unfold YGG.on_self, YGG.url_, Py.bind, Py.get, Py.getitem.
  cbn [fst snd]. rewrite Hv. reflexivity.
Qed.

Lemma scan_link_skipped (link : Html.element) s :
  is_Some (Html.attr "href" (Html.here link)) ->
  qualifies link = false ->
  YGG.scan_link link s = (Py.Ok Py.Continue, s).
Proof.
  intros [h Hh] Hq. unfold qualifies in Hq. rewrite Hh in Hq.
  unfold YGG.scan_link, YGG.href. rewrite Hh.
  erewrite bind_ok by reflexivity.
  destruct (Re.search YGG.category_regexp h); [|reflexivity].
  apply bool_decide_eq_false in Hq. destruct Hq. eexists; reflexivity.
Qed.

Lemma scan_link_kept (base : string) (link : Html.element) st k :
  YGG.urls st !! "url"
    = Some (Py.VStr (base +:+ "/engine/download_torrent?id={}")) ->
  brace_free base ->
  qualifies link = true ->
  well_formed link ->
  exists r,
    describes base link r
    /\ YGG.scan_link link (st, k)
       = (Py.Ok Py.Continue,
          (logged [(YGG.DEBUG, YGG.Dict r)] st,
           YGG.Sink (YGG.results k ++ [r]) (YGG.calls k))).
Proof.
  intros Hurl Hbase Hq [[id Hid] [leechers Hl]].
  unfold qualifies in Hq.
  destruct (Html.attr "href" (Html.here link)) as [h|] eqn:Hh;
    [|discriminate].
  apply bool_decide_eq_true in Hq as [mc Hmc].
  unfold parsed_id in Hid. rewrite Hh in Hid.
  unfold mbind, option_bind in Hid.
  destruct (Re.search YGG.id_regexp h) as [m|] eqn:Hm; [|discriminate].
  destruct (Re.group m 1) as [g|] eqn:Hg; [|discriminate].
  injection Hid as <-.
  unfold cell_text, row_of, mbind, option_bind in Hl.
  destruct (Html.parent link) as [p|] eqn:Hp; [|discriminate].
  destruct (Html.parent p) as [row|] eqn:Hrow; [|discriminate].
  destruct (Html.find_all (Html.is_tag "td") row !! 8) as [c8|] eqn:H8;
    [|discriminate].
  destruct (lookup_lt_is_Some_le (Html.find_all (Html.is_tag "td") row) 5 8
              ltac:(lia) ltac:(eexists; exact H8)) as [c5 H5].
  destruct (lookup_lt_is_Some_le (Html.find_all (Html.is_tag "td") row) 7 8
              ltac:(lia) ltac:(eexists; exact H8)) as [c7 H7].
  eexists. split.
  - exists h, (Host.tryInt g), (YGG.parseText (Html.here c5)),
      (YGG.parseText (Html.here c7)), (YGG.parseText (Html.here c8)).
    split; [exact Hh|]. split.
    { unfold parsed_id, mbind, option_bind. rewrite Hh, Hm, Hg.
      reflexivity. }
    unfold cell_text, row_of, mbind, option_bind. rewrite Hp, Hrow.
    rewrite H5, H7, H8. repeat (split; [reflexivity|]). reflexivity.
  - unfold YGG.scan_link, YGG.href. rewrite Hh.
    erewrite bind_ok by reflexivity. rewrite Hmc.
    erewrite bind_ok by reflexivity.
    step_with Hm. step_with Hg. step_with Hp. step_with Hrow.
    step_with H5. step_with H7. step_with H8.
    erewrite bind_ok by (apply url_run; exact Hurl).
    erewrite bind_ok
      by (run; rewrite (format_val_template base "/engine/download_torrent?id=");
          [reflexivity | exact Hbase | reflexivity]).
    step. step. destruct k. reflexivity.
Qed.

Lemma href_matches_attr pat n :
  Html.href_matches pat n = true -> is_Some (Html.attr "href" n).
Proof.
  unfold Html.href_matches. destruct n; [discriminate|].
  destruct (Html.attr _ _); [eauto | discriminate].
Qed.

(** The loop over the links: one result for each link that qualifies,
    in order, when those links are well formed. *)
Lemma scan_links (base : string) (links : list Html.element) :
  forall st k,
    YGG.urls st !! "url"
      = Some (Py.VStr (base +:+ "/engine/download_torrent?id={}")) ->
    brace_free base ->
    Forall (fun l => is_Some (Html.attr "href" (Html.here l))) links ->
    Forall well_formed (List.filter qualifies links) ->
    exists new entries,
      Forall2 (describes base) (List.filter qualifies links) new
      /\ Py.for_each links YGG.scan_link (st, k)
         = (Py.Ok tt,
            (logged entries st,
             YGG.Sink (YGG.results k ++ new) (YGG.calls k))).
Proof.
  induction links as [|link links IH]; intros st k Hurl Hbase Hhref Hwf.
  - exists [], []. split; [constructor|]. cbn.
    rewrite logged_nil, app_nil_r. destruct k. reflexivity.
  - apply Forall_cons in Hhref as [Hh Hhref]. cbn [List.filter] in *.
    cbn [Py.for_each].
    destruct (qualifies link) eqn:Hq.
    + apply Forall_cons in Hwf as [Hw Hwf].
      destruct (scan_link_kept base link st k Hurl Hbase Hq Hw)
        as (r & Hr & Hrun).
      erewrite bind_ok by exact Hrun.
      destruct (IH (logged [(YGG.DEBUG, YGG.Dict r)] st)
                   (YGG.Sink (YGG.results k ++ [r]) (YGG.calls k))
                   Hurl Hbase Hhref Hwf) as (new & entries & Hnew & Hloop).
      exists (r :: new), ((YGG.DEBUG, YGG.Dict r) :: entries).
      split; [constructor; assumption|].
      rewrite Hloop, logged_logged. cbn [YGG.results YGG.calls].
      rewrite <- app_assoc. reflexivity.
    + erewrite bind_ok by (apply scan_link_skipped; assumption).
      apply IH; assumption.
Qed.

End ExtractionFacts.

Section PaginationFacts.
Context `{Externals}.

(** The pagination control of a page, and the number an item of the
    control shows. *)
Definition pagination_of (soup : Html.node) : option Html.element :=
  Html.find (fun n => Html.is_tag "ul" n && Html.has_class "pagination" n)
            (Html.root soup).

Definition label_of (page : Html.element) : option Z :=
  a ← Html.find (Html.is_tag "a") page;
  Some (Host.tryInt (YGG.parseText (Html.here a))).

(** The item has a link, and its number does not exceed [bound]. *)
Definition at_most (bound : Z) (page : Html.element) : Prop :=
  exists n, label_of page = Some n /\ (n <= bound)%Z.

Lemma scan_page_low recurse offset page (s : YGG.state * YGG.sink) :
  at_most (offset + 1) page ->
  YGG.scan_page recurse offset page s = (Py.Ok Py.Continue, s).
Proof.
  intros (n & Hn & Hle). unfold label_of, mbind, option_bind in Hn.
  unfold YGG.scan_page.
  destruct (Html.find (Html.is_tag "a") page) as [a|]; [|discriminate].
  injection Hn as <-. erewrite bind_ok by reflexivity.
  destruct (Z.gtb_spec (Host.tryInt (YGG.parseText (Html.here a)))
              (offset + 1)); [lia | reflexivity].
Qed.

Lemma scan_page_high recurse offset page n (s : YGG.state * YGG.sink) :
  label_of page = Some n -> (offset + 1 < n)%Z ->
  YGG.scan_page recurse offset page s
  = Py.bind (recurse (offset + 1)%Z) (fun _ => Py.ret Py.Break) s.
Proof.
  intros Hn Hlt. unfold label_of, mbind, option_bind in Hn.
  unfold YGG.scan_page.
  destruct (Html.find (Html.is_tag "a") page) as [a|]; [|discriminate].
  injection Hn as <-. erewrite bind_ok by reflexivity.
  destruct (Z.gtb_spec (Host.tryInt (YGG.parseText (Html.here a)))
              (offset + 1)); [reflexivity | lia].
Qed.

Lemma scan_page_no_link recurse offset page (s : YGG.state * YGG.sink) :
  label_of page = None ->
  YGG.scan_page recurse offset page s = (Py.Raise Py.AttributeError, s).
Proof.
  intros Hn. unfold label_of, mbind, option_bind in Hn.
  unfold YGG.scan_page.
  destruct (Html.find (Html.is_tag "a") page) as [a|]; [discriminate|].
  reflexivity.
Qed.

(** A recursive call, when there is room for it, returns; it leaves one
    more call in the record of the caller. *)
Lemma recursive_call_room depth title media quality offset' st k :
  exists st2 r2,
    YGG.results k `prefix_of` r2
    /\ YGG.recursive_call (YGG.callee (S depth) title media quality)
         title media quality offset' (st, k)
       = (Py.Ok tt,
          (st2,
           YGG.Sink r2
             (YGG.calls k
                ++ [YGG.Call title media quality (YGG.results k) offset']))).
Proof.
  cbn [YGG.callee]. unfold YGG.recursive_call.
  step. step. step. step.
  match goal with
  | |- context [Py.bind (YGG._searchOnTitle ?d ?t ?m ?q ?o) _ ?s] =>
      destruct (searchOnTitle_returns d t m q o s) as ([st2 k2] & Hrun & Hpre)
  end.
  erewrite bind_ok by exact Hrun.
  exists st2, (YGG.results k2). split; [exact Hpre|].
  reflexivity.
Qed.

Lemma recursive_call_full title media quality offset' s :
  YGG.recursive_call (YGG.callee 0 title media quality)
    title media quality offset' s
  = (Py.Raise Py.RecursionError, s).
Proof. reflexivity. Qed.

Section Items.
Variables (depth : nat) (title : string) (media quality : YGG.dict)
          (offset : Z).

Let recurse :=
  YGG.recursive_call (YGG.callee depth title media quality)
    title media quality.

Let items_loop (items : list Html.element) :=
  Py.for_each items (YGG.scan_page recurse offset).

(** Whatever the items are, the loop makes at most one recursive call,
    with [offset + 1] and the results as they stand. *)
Lemma pages_at_most_one (items : list Html.element) s o s2 :
  items_loop items s = (o, s2) ->
  s2.2 = s.2
  \/ YGG.calls s2.2
     = YGG.calls s.2
         ++ [YGG.Call title media quality (YGG.results s.2) (offset + 1)].
Proof.
  unfold items_loop.
  induction items as [|page items IH]; cbn [Py.for_each].
  - intros [= <- <-]. left; reflexivity.
  - destruct (label_of page) as [n|] eqn:Hn.
    + destruct (Z_le_gt_dec n (offset + 1)) as [Hle|Hgt].
      * erewrite bind_ok
          by (apply scan_page_low; exists n; split; assumption).
        exact IH.
      * unfold Py.bind at 1.
        rewrite (scan_page_high _ _ _ n _ Hn) by lia.
        unfold recurse. destruct depth as [|d], s as [st k].
        -- rewrite (bind_raise _ _ _ Py.RecursionError (st, k))
             by reflexivity.
           intros [= <- <-]. left; reflexivity.
        -- destruct (recursive_call_room d title media quality
                       (offset + 1) st k) as (st2 & r2 & _ & Hrun).
           rewrite (bind_ok _ _ _ _ _ Hrun).
           intros [= <- <-]. right. reflexivity.
    + erewrite bind_raise by (apply scan_page_no_link, Hn).
      intros [= <- <-]. left; reflexivity.
Qed.

Lemma pages_none (items : list Html.element) s :
  Forall (at_most (offset + 1)) items ->
  items_loop items s = (Py.Ok tt, s).
Proof.
  unfold items_loop. induction 1 as [|page items Hp _ IH]; [reflexivity|].
  cbn [Py.for_each].
  erewrite bind_ok by (apply scan_page_low, Hp). exact IH.
Qed.

Lemma pages_first (before after : list Html.element) page n s :
  Forall (at_most (offset + 1)) before ->
  label_of page = Some n -> (offset + 1 < n)%Z ->
  items_loop (before ++ page :: after) s
  = Py.bind (recurse (offset + 1)%Z) (fun _ => Py.ret tt) s.
Proof.
  unfold items_loop. intros Hb Hn Hlt.
  induction Hb as [|p before Hp _ IH]; cbn [app Py.for_each].
  - unfold Py.bind at 1. rewrite (scan_page_high _ _ _ _ _ Hn Hlt).
    unfold Py.bind. destruct (recurse (offset + 1)%Z s) as [[[]|e] s2];
      reflexivity.
  - erewrite bind_ok by (apply scan_page_low, Hp). exact IH.
Qed.

End Items.

End PaginationFacts.

Section PageFacts.
Context `{Externals}.

(** The search url is built, the page arrives and parses as [soup]; [w]
    is the world after the request. *)
Definition page_fetched (st : YGG.state) (title : string) (offset : Z)
    (w : world) (soup : Html.node) : Prop :=
  exists url data,
    YGG.buildUrl title offset st = (Py.Ok url, st)
    /\ getHTMLData url (YGG.site st) = (Py.Ok data, w)
    /\ BeautifulSoup data = Py.Ok soup.

(** The results container of a page. *)
Definition results_of (soup : Html.node) : option Html.element :=
  Html.find (Html.has_class "results") (Html.root soup).

(** Lines 242-249. *)
Definition follow (soup : Html.node) (recurse : Z -> search unit)
    (offset : Z) : search unit :=
  match pagination_of soup with
  | Some pagination =>
      Py.for_each (Html.find_all (Html.is_tag "li") pagination)
                  (YGG.scan_page recurse offset)
  | None => Py.ret tt
  end.

Lemma search_page_absent recurse title offset st k w soup torrent :
  page_fetched st title offset w soup ->
  YGG.urls st !! "torrent" = Some torrent ->
  results_of soup = None ->
  YGG.search_page recurse title offset (st, k)
  = (Py.Ok tt, (YGG.set_site w st, k)).
Proof.
  intros (url & data & Hbuild & Hfetch & Hsoup) Htorrent Hres.
  unfold YGG.search_page.
  erewrite bind_ok
    by (unfold YGG.on_self; cbn [fst snd]; rewrite Hbuild; reflexivity).
  step_with Hfetch. step_with Hsoup.
  erewrite bind_ok by (apply url_run; exact Htorrent).
  unfold results_of in Hres. rewrite Hres. reflexivity.
Qed.

Lemma search_page_present recurse title offset st k w soup torrent
    rl pat base :
  page_fetched st title offset w soup ->
  YGG.urls st !! "torrent" = Some torrent ->
  results_of soup = Some rl ->
  re_compile ("^" +:+ Py.py_str torrent) = Py.Ok pat ->
  YGG.urls st !! "url"
    = Some (Py.VStr (base +:+ "/engine/download_torrent?id={}")) ->
  brace_free base ->
  Forall well_formed
    (List.filter qualifies (Html.find_all (Html.href_matches pat) rl)) ->
  exists new entries,
    Forall2 (describes base)
      (List.filter qualifies (Html.find_all (Html.href_matches pat) rl)) new
    /\ YGG.search_page recurse title offset (st, k)
       = follow soup recurse offset
           (logged entries (YGG.set_site w st),
            YGG.Sink (YGG.results k ++ new) (YGG.calls k)).
Proof.
  intros (url & data & Hbuild & Hfetch & Hsoup) Htorrent Hres Hpat Hurl
    Hbase Hwf.
  destruct (scan_links base (Html.find_all (Html.href_matches pat) rl)
              (YGG.set_site w st) k Hurl Hbase)
    as (new & entries & Hnew & Hloop); [|exact Hwf|].
  { apply Forall_forall. intros l Hl.
    apply list_elem_of_In, filter_In in Hl as [_ Hl].
    eapply href_matches_attr, Hl. }
  exists new, entries. split; [exact Hnew|].
  unfold YGG.search_page.
  erewrite bind_ok
    by (unfold YGG.on_self; cbn [fst snd]; rewrite Hbuild; reflexivity).
  step_with Hfetch. step_with Hsoup.
  erewrite bind_ok by (apply url_run; exact Htorrent).
  unfold results_of in Hres. rewrite Hres.
  step_with Hpat. erewrite bind_ok by exact Hloop. reflexivity.
Qed.

(** From what the [try] protects to the method. *)
Lemma searchOnTitle_after depth title media quality offset s o s2 :
  YGG.protected depth title media quality offset s = (o, s2) ->
  exists entries,
    YGG._searchOnTitle depth title media quality offset s
    = (Py.Ok tt, (logged entries s2.1, s2.2))
    /\ (o = Py.Ok tt -> entries = []).
Proof.
  intros Hrun. rewrite _searchOnTitle_eq. unfold Py.try_except.
  rewrite Hrun. destruct o as [[]|e].
  - exists []. rewrite logged_nil. split; [|reflexivity].
    destruct s2; reflexivity.
  - eexists. rewrite search_failed_ok, add_log_logged.
    split; [reflexivity | discriminate].
Qed.

End PageFacts.

Section PageClaims.
Context `{Externals}.



End PageClaims.

Section IdClaims.
Context `{Externals}.

(** C4, on the code.  For a link that passes the category filter and
    whose href does not end in [/<id>-<slug>], the extraction of the id
    raises (the [group] of a failed search) before [tryInt] is reached:
    no id 0 is produced, and the state is left as it was. *)
Theorem scan_link_malformed_id (link : Html.element) (h : string)
    (s : YGG.state * YGG.sink) :
  Html.attr "href" (Html.here link) = Some h ->
  is_Some (Re.search YGG.category_regexp h) ->
  Re.search YGG.id_regexp h = None ->
  YGG.scan_link link s = (Py.Raise Py.AttributeError, s).
Proof.
  intros Hh [mc Hmc] Hid. unfold YGG.scan_link, YGG.href. rewrite Hh.
  erewrite bind_ok by reflexivity. rewrite Hmc.
  erewrite bind_ok by reflexivity.
  erewrite bind_raise by (run; rewrite Hid; reflexivity). reflexivity.
Qed.

End IdClaims.

(** ** The provider on the small site *)

Section SiteRuns.

Import Fixture.

(** The links of a page that pass both filters. *)
Definition kept_links (soup : Html.node) (torrent : Py.pyval)
  : list Html.element :=
  match results_of soup, re_compile ("^" +:+ Py.py_str torrent) with
  | Some rl, Py.Ok pat =>
      List.filter qualifies (Html.find_all (Html.href_matches pat) rl)
  | _, _ => []
  end.

Definition search_url (title : string) : string :=
  "https://ygg/engine/search?sub_category=all&category=2145&uploader=&name="
    +:+ title +:+ "&file=&do=search&description=".

Lemma ready_urls :
  endpoints (YGG.urls ready)
  = [Some (Py.VStr "https://ygg/user/account");
     Some (Py.VStr "https://ygg/engine/search?{}");
     Some (Py.VStr "https://ygg/torrent");
     Some (Py.VStr "https://ygg/engine/download_torrent?id={}")].
Proof. vm_compute. reflexivity. Qed.

Lemma fetched_short :
  page_fetched ready "court" 0 [search_url "court"] short_page.
Proof. exists (search_url "court"), "court". vm_compute. auto. Qed.




Definition animatrix : YGG.dict :=
  <["detail_url" :=
      Py.VStr "https://ygg/torrent/filmvidéo/animation/103-animatrix"]> ∅.

(** C8 as stated fails: the detail page of [animatrix] has no block
    after its description header; [getMoreInfo] returns normally with
    the age set and no description. *)
Lemma getMoreInfo_without_block :
  (YGG.getMoreInfo (ready, animatrix)).1 = Py.Ok tt
  /\ (YGG.getMoreInfo (ready, animatrix)).2.2 !! "age" = Some (Py.VInt 7)
  /\ (YGG.getMoreInfo (ready, animatrix)).2.2 !! "description" = None.
Proof. repeat split; vm_compute; reflexivity. Qed.

(** *** Instances of the theorems above *)

Definition plain_http : YGG.state :=
  YGG.State (<["url" := "http://ygg/"]> ∅) ∅ true [] [].

Lemma refreshUrls_endpoints_witness :
  (exists st',
     YGG.refreshUrls fresh = (Py.Ok tt, st')
     /\ endpoints (YGG.urls st')
        = [Some (Py.VStr "https://ygg/user/account");
           Some (Py.VStr "https://ygg/engine/search?{}");
           Some (Py.VStr "https://ygg/torrent");
           Some (Py.VStr "https://ygg/engine/download_torrent?id={}")])
  /\ (exists st',
        YGG.refreshUrls plain_http = (Py.Ok tt, st')
        /\ endpoints (YGG.urls st')
           = [Some Py.VNone; Some Py.VNone; Some Py.VNone; Some Py.VNone]).
Proof.
  split.
  - destruct (refreshUrls_endpoints fresh "https://ygg/" eq_refl)
      as (st' & Hrun & Hyes & _).
    exists st'. split; [exact Hrun|]. apply (Hyes "https://ygg").
    exists "ygg", "/". repeat split; try reflexivity. discriminate.
  - destruct (refreshUrls_endpoints plain_http "http://ygg/" eq_refl)
      as (st' & Hrun & _ & Hno).
    exists st'. split; [exact Hrun|]. apply Hno.
    intros base (host & tail & -> & Hu & _). discriminate.
Defined.

Lemma buildUrl_page_witness :
  exists query,
    YGG.buildUrl "matrix" 2 ready
    = (Py.Ok ("https://ygg/engine/search?" +:+ query), ready)
    /\ query_param "page" query = Some "100".
Proof.
  destruct (buildUrl_page ready "matrix" "https://ygg" 2)
    as (query & Hrun & Hpage); [vm_compute; reflexivity | reflexivity |].
  exists query. split; [exact Hrun | exact Hpage].
Defined.

Definition bundle : YGG.dict :=
  <["description" := Py.VStr "Deux films : tt0133093 et tt0234215"]> ∅.

Lemma extraCheck_bundle_witness :
  exists st', YGG.extraCheck (ready, bundle) = (Py.Ok false, (st', bundle)).
Proof.
  destruct (extraCheck_bundle ready bundle
              "Deux films : tt0133093 et tt0234215")
    as (verdict & st' & Hrun & _ & Htwo); [vm_compute; reflexivity|].
  exists st'. rewrite <- Htwo; [exact Hrun|].
  exists "tt0133093", "tt0234215".
  split; [vm_compute; left|]. split; [vm_compute; right; left|discriminate].
Defined.

Lemma extraCheck_frame_witness :
  (YGG.extraCheck (ready, bundle)).2.2 = bundle
  /\ (YGG.extraCheck (fresh, <["id" := Py.VInt 7]> bundle)).1
     = (YGG.extraCheck (ready, bundle)).1.
Proof.
  destruct (extraCheck_frame ready bundle) as [Hsame Hverdict].
  split; [exact Hsame|]. apply Hverdict. vm_compute. reflexivity.
Defined.


Definition the_matrix : YGG.dict :=
  <["detail_url" :=
      Py.VStr "https://ygg/torrent/filmvidéo/film/101-the-matrix-1999"]> ∅.

Lemma getMoreInfo_enrich_witness :
  exists st' age,
    YGG.getMoreInfo (ready, the_matrix)
    = (Py.Ok tt,
       (st',
        <["age" := Py.VInt age]>
          (<["description" := Py.VStr "Un film. tt0133093"]> the_matrix)))
    /\ (86400 * age <= 6771600 - 6084900 < 86400 * (age + 1))%Z.
Proof.
  edestruct (getMoreInfo_enrich ready the_matrix) as (Hok & _ & _);
    [vm_compute; reflexivity ..|].
  edestruct Hok as (age & Hrun & Hage); [vm_compute; reflexivity ..|].
  eexists _, age. split; [exact Hrun | exact Hage].
Defined.

Lemma searchOnTitle_swallows_witness :
  exists s',
    YGG._searchOnTitle 5 "court" ∅ ∅ 0 (ready, no_results) = (Py.Ok tt, s')
    /\ s'.2 = no_results
    /\ last (YGG.log s'.1)
       = Some (YGG.ERROR,
               YGG.Traceback "Failed searching release from YGG: "
                 Py.IndexError).
Proof.
  destruct (searchOnTitle_swallows 5 "court" ∅ ∅ 0 (ready, no_results))
    as (s' & Hrun & _ & Hraise).
  exists s'. split; [exact Hrun|].
  edestruct Hraise as [-> _]; [vm_compute; reflexivity|].
  split; vm_compute; reflexivity.
Defined.

Lemma fetched_matrix :
  page_fetched ready "matrix" 0 [search_url "matrix"] matrix_1.
Proof. exists (search_url "matrix"), "matrix-1". vm_compute. auto. Qed.

Lemma matrix_well_formed :
  Forall well_formed (kept_links matrix_1 (Py.VStr "https://ygg/torrent")).
Proof.
  vm_compute kept_links.
  repeat constructor; eexists; vm_compute; reflexivity.
Qed.



Definition unnumbered : Html.element :=
  Html.Element
    (Html.Tag "a"
       [("href", "https://ygg/torrent/filmvidéo/film/sans-identifiant")]
       [Html.Text "Sans identifiant"])
    [].

Lemma scan_link_malformed_id_witness :
  YGG.scan_link unnumbered (ready, no_results)
  = (Py.Raise Py.AttributeError, (ready, no_results)).
Proof.
  apply (scan_link_malformed_id unnumbered
           "https://ygg/torrent/filmvidéo/film/sans-identifiant").
  - reflexivity.
  - vm_compute. eexists. reflexivity.
  - vm_compute. reflexivity.
Defined.

(** The same link on its page: the method returns with no result and
    the exception in the log. *)
Lemma searchOnTitle_no_id_page :
  page_fetched ready "sansid" 0 [search_url "sansid"] no_id_page
  /\ length (kept_links no_id_page (Py.VStr "https://ygg/torrent")) = 1
  /\ YGG.results (YGG._searchOnTitle 5 "sansid" ∅ ∅ 0 (ready, no_results)).2.2
     = []
  /\ last (YGG.log (YGG._searchOnTitle 5 "sansid" ∅ ∅ 0
                      (ready, no_results)).2.1)
     = Some (YGG.ERROR,
             YGG.Traceback "Failed searching release from YGG: "
               Py.AttributeError).
Proof.
  split; [exists (search_url "sansid"), "sans-id"; vm_compute; auto|].
  repeat split; vm_compute; reflexivity.
Qed.

End SiteRuns.

(* ===================================================================== *)
(** * Part III: further properties of the provider                        *)
(* ===================================================================== *)

(** ** The two refreshes *)

Section RefreshFacts.
Context `{Externals}.

(** The base a configured url gives, when it gives one. *)
Definition derived (u : string) : option string :=
  Re.search YGG.url_regexp u ≫= (fun m => Re.group m 1).

Lemma derived_spec u :
  match derived u with
  | Some base => matches_url_regexp u base
  | None => forall base, ~ matches_url_regexp u base
  end.
Proof.
  unfold derived, mbind, option_bind.
  pose proof (url_regexp_spec u) as Hspec.
  destruct (Re.search YGG.url_regexp u) as [m|]; [|exact Hspec].
  destruct Hspec as (base & -> & Hbase). exact Hbase.
Qed.

Lemma derived_search u :
  derived u = None -> Re.search YGG.url_regexp u = None.
Proof.
  unfold derived, mbind, option_bind.
  pose proof (url_regexp_spec u) as Hspec.
  destruct (Re.search YGG.url_regexp u) as [m|]; [|reflexivity].
  destruct Hspec as (base & -> & _). discriminate.
Qed.

(** What [refreshUrls] leaves in [urls]. *)
Definition search_endpoints (u : string) (d : YGG.dict) : YGG.dict :=
  match derived u with
  | Some url =>
      <["url" := Py.VStr (url +:+ "/engine/download_torrent?id={}")]>
      (<["torrent" := Py.VStr (url +:+ "/torrent")]>
      (<["search" := Py.VStr (url +:+ "/engine/search?{}")]>
      (<["login_check" := Py.VStr (url +:+ "/user/account")]> d)))
  | None =>
      <["url" := Py.VNone]>
      (<["torrent" := Py.VNone]>
      (<["search" := Py.VNone]>
      (<["login_check" := Py.VNone]> d)))
  end.

(** What [refreshLoginUrl] leaves in [urls]. *)
Definition login_endpoint (u : string) (d : YGG.dict) : YGG.dict :=
  match derived u with
  | Some url => <["login" := Py.VStr (url +:+ "/user/login")]> d
  | None => <["login" := Py.VNone]> d
  end.

Definition refresh_entry (what u : string) : YGG.level * YGG.message :=
  match derived u with
  | Some url => (YGG.DEBUG, YGG.Message (what +:+ url))
  | None => (YGG.WARNING, YGG.Message (u +:+ " is not a valid url"))
  end.

Lemma refreshUrls_run (st : YGG.state) (u : string) :
  YGG.conf st !! "url" = Some u ->
  YGG.refreshUrls st
  = (Py.Ok tt,
     YGG.State (YGG.conf st) (search_endpoints u (YGG.urls st)) false
       (YGG.log st ++ [refresh_entry "Refreshing provider's urls with " u])
       (YGG.site st)).
Proof.
  intros Hconf.
  unfold YGG.refreshUrls, YGG.conf_, YGG.search_setting, YGG.log_.
  unfold Py.bind, Py.modify, Py.get, Py.ret.
  cbn [YGG.conf YGG.set_last_login_check YGG.set_urls].
  rewrite Hconf. unfold search_endpoints, refresh_entry.
  destruct (derived u) as [url|] eqn:Hd.
  - unfold derived, mbind, option_bind in Hd.
    destruct (Re.search YGG.url_regexp u) as [m|]; [|discriminate].
    rewrite Hd. reflexivity.
  - rewrite (derived_search u Hd).
    cbn [YGG.conf YGG.set_urls YGG.set_last_login_check].
    rewrite ?Hconf. reflexivity.
Qed.

Lemma refreshLoginUrl_run (st : YGG.state) (u : string) :
  YGG.conf st !! "login_url" = Some u ->
  YGG.refreshLoginUrl st
  = (Py.Ok tt,
     YGG.State (YGG.conf st) (login_endpoint u (YGG.urls st)) false
       (YGG.log st ++ [refresh_entry "Refreshing login url with " u])
       (YGG.site st)).
Proof.
  intros Hconf.
  unfold YGG.refreshLoginUrl, YGG.conf_, YGG.search_setting, YGG.log_.
  unfold Py.bind, Py.modify, Py.get, Py.ret.
  cbn [YGG.conf YGG.set_last_login_check YGG.set_urls].
  rewrite Hconf. unfold login_endpoint, refresh_entry.
  destruct (derived u) as [url|] eqn:Hd.
  - unfold derived, mbind, option_bind in Hd.
    destruct (Re.search YGG.url_regexp u) as [m|]; [|discriminate].
    rewrite Hd. reflexivity.
  - rewrite (derived_search u Hd).
    cbn [YGG.conf YGG.set_urls YGG.set_last_login_check].
    rewrite ?Hconf. reflexivity.
Qed.

(** X1. [refreshLoginUrl] sets the login endpoint to the base of the
    configured login url followed by [/user/login], or to [None] when
    the url does not match; it forgets the login state, leaves every
    other endpoint, the settings and the world as they were, and never
    raises. *)
Theorem refreshLoginUrl_endpoint (st : YGG.state) (u : string) :
  YGG.conf st !! "login_url" = Some u ->
  exists st',
    YGG.refreshLoginUrl st = (Py.Ok tt, st')
    /\ YGG.last_login_check st' = false
    /\ (forall base, matches_url_regexp u base ->
          YGG.urls st' !! "login" = Some (Py.VStr (base +:+ "/user/login")))
    /\ ((forall base, ~ matches_url_regexp u base) ->
          YGG.urls st' !! "login" = Some Py.VNone)
    /\ (forall key, key <> "login" ->
          YGG.urls st' !! key = YGG.urls st !! key)
    /\ YGG.conf st' = YGG.conf st
    /\ YGG.site st' = YGG.site st.
Proof.
  intros Hconf. rewrite (refreshLoginUrl_run st u Hconf).
  eexists. split; [reflexivity|]. cbn [YGG.last_login_check YGG.urls
    YGG.conf YGG.site]. split; [reflexivity|].
  pose proof (derived_spec u) as Hspec. unfold login_endpoint.
  destruct (derived u) as [url|].
  - split.
    { intros base Hbase. rewrite (matches_url_regexp_fun _ _ _ Hbase Hspec).
      apply lookup_insert_eq. }
    split; [intros Hno; destruct (Hno url Hspec)|].
    split; [|split; reflexivity].
    intros key Hkey. apply lookup_insert_ne. congruence.
  - split; [intros base Hbase; destruct (Hspec base Hbase)|].
    split; [intros _; apply lookup_insert_eq|].
    split; [|split; reflexivity].
    intros key Hkey. apply lookup_insert_ne. congruence.
Qed.

(** The four endpoints of the search side. *)
Definition search_side (key : string) : Prop :=
  key = "login_check" \/ key = "search" \/ key = "torrent" \/ key = "url".

(** X2. [refreshUrls] never raises on a configured url: it forgets the
    login state, writes one entry in the log (a warning exactly when the
    url does not match), leaves the four endpoints all set to strings or
    all set to [None], and touches no other key of [urls] (the login
    endpoint in particular), nor the settings, nor the world. *)
Theorem refreshUrls_frame (st : YGG.state) (u : string) :
  YGG.conf st !! "url" = Some u ->
  exists st' entry,
    YGG.refreshUrls st = (Py.Ok tt, st')
    /\ YGG.last_login_check st' = false
    /\ YGG.log st' = YGG.log st ++ [entry]
    /\ (entry.1 = YGG.WARNING <-> forall base, ~ matches_url_regexp u base)
    /\ (Forall (fun v => exists s, v = Some (Py.VStr s))
               (endpoints (YGG.urls st'))
        \/ Forall (fun v => v = Some Py.VNone) (endpoints (YGG.urls st')))
    /\ (forall key, ~ search_side key ->
          YGG.urls st' !! key = YGG.urls st !! key)
    /\ YGG.conf st' = YGG.conf st
    /\ YGG.site st' = YGG.site st.
Proof.
  intros Hconf. rewrite (refreshUrls_run st u Hconf).
  eexists _, _. split; [reflexivity|].
  cbn [YGG.last_login_check YGG.urls YGG.conf YGG.site YGG.log].
  split; [reflexivity|]. split; [reflexivity|].
  pose proof (derived_spec u) as Hspec.
  unfold search_endpoints, refresh_entry, endpoints, search_side.
  destruct (derived u) as [url|]; cbn [fst].
  - split.
    { split; [discriminate|]. intros Hno. destruct (Hno url Hspec). }
    split.
    { left. repeat constructor; eexists; simplify_map_eq; reflexivity. }
    split; [|split; reflexivity].
    intros key Hkey. rewrite !lookup_insert_ne; [reflexivity|..];
      intros <-; apply Hkey; auto.
  - split; [split; [intros _; exact Hspec | reflexivity]|].
    split.
    { right. repeat constructor; simplify_map_eq; reflexivity. }
    split; [|split; reflexivity].
    intros key Hkey. rewrite !lookup_insert_ne; [reflexivity|..];
      intros <-; apply Hkey; auto.
Qed.

(** X3. The two refreshes are independent: run in either order on
    configured urls, they leave the same endpoints (and the login state
    forgotten); only the order of their two log entries differs. *)
Theorem refreshes_commute (st : YGG.state) (u v : string) :
  YGG.conf st !! "url" = Some u ->
  YGG.conf st !! "login_url" = Some v ->
  exists a b,
    Py.bind YGG.refreshUrls (fun _ => YGG.refreshLoginUrl) st = (Py.Ok tt, a)
    /\ Py.bind YGG.refreshLoginUrl (fun _ => YGG.refreshUrls) st
       = (Py.Ok tt, b)
    /\ YGG.urls a = YGG.urls b
    /\ YGG.last_login_check a = false
    /\ YGG.last_login_check b = false
    /\ YGG.log a ≡ₚ YGG.log b.
Proof.
  intros Hu Hv. eexists _, _.
  split.
  { erewrite bind_ok by (apply refreshUrls_run; exact Hu).
    apply refreshLoginUrl_run. exact Hv. }
  split.
  { erewrite bind_ok by (apply refreshLoginUrl_run; exact Hv).
    apply refreshUrls_run. exact Hu. }
  cbn [YGG.urls YGG.last_login_check YGG.log YGG.conf YGG.site].
  split.
  { unfold search_endpoints, login_endpoint.
    destruct (derived u), (derived v);
      rewrite !(insert_insert_ne _ "login") by done; reflexivity. }
  split; [reflexivity|]. split; [reflexivity|].
  rewrite <- !app_assoc. apply Permutation_app_head. apply perm_swap.
Qed.

End RefreshFacts.

(** ** The search url, parameter by parameter *)

Section QueryExtras.
Context `{Externals}.

Lemma cut_items (l : list (string * Py.pyval)) :
  Forall (fun kv => key_ok (fst kv)) l ->
  map (cut "=") (map item l)
  = map (fun kv => (fst kv, Host.tryUrlencode_value (snd kv))) l.
Proof.
  induction 1 as [|[k v] l [_ Hk] _ IH]; [reflexivity|].
  cbn [map fst snd] in *. rewrite IH. f_equal. unfold item. cbn [fst snd].
  change (k +:+ "=" +:+ Host.tryUrlencode_value v)
    with (k +:+ String "=" (Host.tryUrlencode_value v)).
  apply cut_app, Hk.
Qed.

(** The parameters of the string [tryUrlencode] builds are the items of
    the dictionary, each value encoded. *)
Lemma tryUrlencode_items (d : YGG.dict) :
  d <> ∅ ->
  map_Forall (fun k' _ => key_ok k') d ->
  query_params (Host.tryUrlencode d)
  = map (fun kv => (fst kv, Host.tryUrlencode_value (snd kv)))
        (map_to_list d).
Proof.
  intros Hne Hkeys. unfold Host.tryUrlencode. rewrite foldl_items.
  apply map_Forall_to_list in Hkeys.
  assert (Hl : Forall (fun kv => key_ok (fst kv)) (map_to_list d)).
  { eapply Forall_impl; [exact Hkeys|]. intros [] ?; assumption. }
  clear Hkeys.
  destruct (map_to_list d) as [|kv l] eqn:E.
  { apply map_to_list_empty_iff in E. contradiction. }
  cbn [items String.append]. unfold query_params.
  pose proof Hl as Hl'. apply Forall_cons in Hl' as [Hkv Hrest].
  rewrite split_items; [|apply item_clean, Hkv|exact Hrest].
  change (item kv :: map item l) with (map item (kv :: l)).
  apply cut_items, Hl.
Qed.

Lemma search_params_size title offset :
  size (YGG.search_params title offset)
  = if (offset >? 0)%Z then 8 else 7.
Proof.
  unfold YGG.search_params.
  destruct (offset >? 0)%Z;
    repeat (rewrite map_size_insert_None by (simplify_map_eq; reflexivity));
    rewrite map_size_empty; reflexivity.
Qed.

Lemma buildUrl_run (st : YGG.state) (title base : string) (offset : Z) :
  YGG.urls st !! "search" = Some (Py.VStr (base +:+ "/engine/search?{}")) ->
  brace_free base ->
  YGG.buildUrl title offset st
  = (Py.Ok (base +:+ "/engine/search?"
              +:+ Host.tryUrlencode (YGG.search_params title offset)), st).
Proof.
  intros Hurl Hbase.
  unfold YGG.buildUrl, YGG.url_, Py.bind, Py.get, Py.getitem, Py.lift.
  rewrite Hurl. unfold Py.ret.
  rewrite (format_val_template base "/engine/search?");
    [reflexivity | exact Hbase | reflexivity].
Qed.

(** X4. With the search endpoint set, the query string of
    [buildUrl title offset] carries the fixed parameters of the source,
    category 2145, sub-category [all], [do=search], empty description,
    file and uploader, and the simplified title url-encoded as [name];
    it has these seven parameters, and an eighth ([page]) exactly when
    [offset > 0]. *)
Theorem buildUrl_parameters (st : YGG.state) (title base : string)
    (offset : Z) :
  YGG.urls st !! "search" = Some (Py.VStr (base +:+ "/engine/search?{}")) ->
  brace_free base ->
  exists query,
    YGG.buildUrl title offset st
    = (Py.Ok (base +:+ "/engine/search?" +:+ query), st)
    /\ query_param "category" query = Some "2145"
    /\ query_param "sub_category" query = Some "all"
    /\ query_param "do" query = Some "search"
    /\ query_param "description" query = Some EmptyString
    /\ query_param "file" query = Some EmptyString
    /\ query_param "uploader" query = Some EmptyString
    /\ query_param "name" query
       = Some (Host.quote_all (simplifyString title))
    /\ length (query_params query) = if (offset >? 0)%Z then 8 else 7.
Proof.
  intros Hurl Hbase. eexists. split; [apply buildUrl_run; assumption|].
  rewrite !tryUrlencode_param
    by (apply search_params_nonempty || apply search_params_keys).
  rewrite tryUrlencode_items
    by (apply search_params_nonempty || apply search_params_keys).
  rewrite length_map, length_map_to_list, search_params_size.
  unfold YGG.search_params.
  destruct (offset >? 0)%Z; simplify_map_eq; repeat split; reflexivity.
Qed.

(** The bytes a query string is made of. *)
Definition url_safe (c : ascii) : bool :=
  let n := nat_of_ascii c in
  Str.is_digit c
  || (Nat.leb 65 n && Nat.leb n 90) || (Nat.leb 97 n && Nat.leb n 122)
  || existsb (Ascii.eqb c) ["_"; "."; "-"; "+"; "%"; "&"; "="]%char.

Lemma quote_plus_safe c : Str.all_chars url_safe (Host.quote_plus c) = true.
Proof.
  destruct c as [[] [] [] [] [] [] [] []]; vm_compute; reflexivity.
Qed.

Lemma quote_all_safe s : Str.all_chars url_safe (Host.quote_all s) = true.
Proof.
  induction s as [|c s IH]; cbn [Host.quote_all]; [reflexivity|].
  rewrite all_chars_app, quote_plus_safe, IH. reflexivity.
Qed.

Lemma items_safe (l : list (string * Py.pyval)) :
  Forall (fun kv => Str.all_chars url_safe (fst kv) = true) l ->
  Str.all_chars url_safe (items l) = true.
Proof.
  induction 1 as [|kv l Hk _ IH]; [reflexivity|].
  cbn [items]. unfold item.
  rewrite !all_chars_app, Hk, IH. unfold Host.tryUrlencode_value.
  rewrite quote_all_safe. reflexivity.
Qed.

Lemma tryUrlencode_safe (d : YGG.dict) :
  map_Forall (fun k _ => Str.all_chars url_safe k = true) d ->
  Str.all_chars url_safe (Host.tryUrlencode d) = true.
Proof.
  intros Hkeys. unfold Host.tryUrlencode. rewrite foldl_items.
  apply map_Forall_to_list in Hkeys.
  assert (Hl : Forall (fun kv => Str.all_chars url_safe (fst kv) = true)
                 (map_to_list d)).
  { eapply Forall_impl; [exact Hkeys|]. intros [] ?; assumption. }
  apply items_safe in Hl. cbn [String.append].
  destruct (items (map_to_list d)) as [|c t]; [reflexivity|].
  cbn [Str.all_chars] in Hl. apply andb_true_iff in Hl as [_ Hl]. exact Hl.
Qed.

(** X5. Whatever the title, the query string [buildUrl] appends to the
    search endpoint is made of letters, digits and [_ . - + % & =] only:
    every other byte of the simplified title is percent-encoded (a space
    as [+]). *)
Theorem buildUrl_query_safe (st : YGG.state) (title base : string)
    (offset : Z) :
  YGG.urls st !! "search" = Some (Py.VStr (base +:+ "/engine/search?{}")) ->
  brace_free base ->
  exists query,
    YGG.buildUrl title offset st
    = (Py.Ok (base +:+ "/engine/search?" +:+ query), st)
    /\ Str.all_chars url_safe query = true.
Proof.
  intros Hurl Hbase. eexists. split; [apply buildUrl_run; assumption|].
  apply tryUrlencode_safe. unfold YGG.search_params.
  destruct (offset >? 0)%Z;
    repeat (apply map_Forall_insert_2; [reflexivity|]);
    apply map_Forall_empty.
Qed.

End QueryExtras.

(** ** What a method leaves alone *)

(** A computation all of whose runs, returning or raising, are related by
    [R]. *)
Definition respects {S A : Type} (R : S -> S -> Prop) (c : Py.M S A) : Prop :=
  forall s o s', c s = (o, s') -> R s s'.

Create HintDb respects discriminated.

Section RespectFacts.
Context {S : Type} (R : S -> S -> Prop) `{!Reflexive R} `{!Transitive R}.

Lemma respects_ret {A} (a : A) : respects R (Py.ret a).
Proof. intros s o s' [= <- <-]. reflexivity. Qed.

Lemma respects_raise {A} e : respects R (@Py.raise S A e).
Proof. intros s o s' [= <- <-]. reflexivity. Qed.

Lemma respects_lift {A} (o : Py.outcome A) : respects R (Py.lift o).
Proof. intros s o' s' [= <- <-]. reflexivity. Qed.

Lemma respects_get : respects R Py.get.
Proof. intros s o s' [= <- <-]. reflexivity. Qed.

Lemma respects_not_none {A} (o : option A) : respects R (Py.not_none o).
Proof. destruct o; [apply respects_ret | apply respects_raise]. Qed.

Lemma respects_index {A} (l : list A) i : respects R (Py.index l i).
Proof.
  unfold Py.index.
  destruct (l !! i); [apply respects_ret | apply respects_raise].
Qed.

Lemma respects_getitem d k : respects R (Py.getitem d k).
Proof.
  unfold Py.getitem.
  destruct (d !! k); [apply respects_ret | apply respects_raise].
Qed.

Lemma respects_as_str v : respects R (YGG.as_str v).
Proof. destruct v; first [apply respects_ret | apply respects_raise]. Qed.

Lemma respects_bind {A B} (c : Py.M S A) (k : A -> Py.M S B) :
  respects R c -> (forall a, respects R (k a)) -> respects R (Py.bind c k).
Proof.
  intros Hc Hk s o s'. unfold Py.bind.
  destruct (c s) as [[a|e] s1] eqn:E; intros Hrun.
  - etrans; [exact (Hc _ _ _ E) | exact (Hk _ _ _ _ Hrun)].
  - injection Hrun as <- <-. exact (Hc _ _ _ E).
Qed.

Lemma respects_for_each {A} (l : list A) (body : A -> Py.M S Py.flow) :
  (forall x, respects R (body x)) -> respects R (Py.for_each l body).
Proof.
  intros Hbody. induction l as [|x l IH]; cbn [Py.for_each].
  - apply respects_ret.
  - apply respects_bind; [apply Hbody|].
    intros []; [exact IH | apply respects_ret].
Qed.

Lemma respects_try_except {A} (body : Py.M S A) handler :
  respects R body -> (forall e, respects R (handler e)) ->
  respects R (Py.try_except body handler).
Proof.
  intros Hb Hh s o s'. unfold Py.try_except.
  destruct (body s) as [[a|e] s1] eqn:E; intros Hrun.
  - injection Hrun as <- <-. exact (Hb _ _ _ E).
  - etrans; [exact (Hb _ _ _ E) | exact (Hh _ _ _ _ Hrun)].
Qed.

End RespectFacts.

#[export] Hint Resolve respects_ret respects_raise respects_lift respects_get
  respects_not_none respects_index respects_getitem respects_as_str
  respects_try_except : respects.

(** Statement by statement, for a reflexive and transitive relation. *)
Ltac respect :=
  repeat first
    [ solve [auto with respects typeclass_instances]
    | apply respects_bind; [typeclasses eauto ..| |intros ?]
    | apply respects_for_each; [typeclasses eauto ..|intros ?]
    | match goal with
      | |- respects _ (match ?x with _ => _ end) => destruct x
      end ].

Section FrameFacts.
Context `{Externals}.

(** The provider keeps its settings, its endpoints and its login flag;
    its log only grows. *)
Definition provider_kept (st st' : YGG.state) : Prop :=
  YGG.conf st' = YGG.conf st
  /\ YGG.urls st' = YGG.urls st
  /\ YGG.last_login_check st' = YGG.last_login_check st
  /\ YGG.log st `prefix_of` YGG.log st'.

#[export] Instance provider_kept_refl : Reflexive provider_kept.
Proof. intros st. repeat split; reflexivity. Qed.

#[export] Instance provider_kept_trans : Transitive provider_kept.
Proof.
  intros a b c (?&?&?&?) (?&?&?&?).
  repeat split; try congruence. etrans; eassumption.
Qed.

(** The same, for a method run with an argument passed by reference. *)
Definition self_kept {R : Type} (s s' : YGG.state * R) : Prop :=
  provider_kept s.1 s'.1.

#[export] Instance self_kept_refl {R} : Reflexive (@self_kept R).
Proof. intros s. unfold self_kept. reflexivity. Qed.

#[export] Instance self_kept_trans {R} : Transitive (@self_kept R).
Proof. intros a b c. unfold self_kept. apply provider_kept_trans. Qed.

Lemma buildUrl_pure title offset st o st' :
  YGG.buildUrl title offset st = (o, st') -> st' = st.
Proof.
  unfold YGG.buildUrl, YGG.url_, Py.bind, Py.get, Py.getitem, Py.lift,
    Py.ret, Py.raise.
  destruct (YGG.urls st !! "search"); intros [= <- <-]; reflexivity.
Qed.

Lemma self_kept_on_arg {R A} (c : Py.M R A) :
  respects self_kept (YGG.on_arg c).
Proof.
  intros s o s'. unfold YGG.on_arg. destruct (c s.2).
  intros [= <- <-]. unfold self_kept. reflexivity.
Qed.

Lemma self_kept_on_self {R A} (c : Py.M YGG.state A) :
  respects provider_kept c -> respects (@self_kept R) (YGG.on_self c).
Proof.
  intros Hc s o s'. unfold YGG.on_self.
  destruct (c s.1) as [o1 st1] eqn:E. intros [= <- <-].
  exact (Hc _ _ _ E).
Qed.

Lemma provider_kept_buildUrl title offset :
  respects provider_kept (YGG.buildUrl title offset).
Proof.
  intros st o st' Hrun. rewrite (buildUrl_pure _ _ _ _ _ Hrun). reflexivity.
Qed.

Lemma provider_kept_fetch url : respects provider_kept (YGG.fetch url).
Proof.
  intros st o st'. unfold YGG.fetch.
  destruct (getHTMLData url (YGG.site st)). intros [= <- <-].
  repeat split; reflexivity.
Qed.

Lemma provider_kept_now : respects provider_kept YGG.now.
Proof.
  intros st o st'. unfold YGG.now.
  destruct (datetime_now (YGG.site st)). intros [= <- <-].
  repeat split; reflexivity.
Qed.

Lemma provider_kept_url key : respects provider_kept (YGG.url_ key).
Proof.
  intros st o st'. unfold YGG.url_, Py.bind, Py.get, Py.getitem.
  destruct (YGG.urls st !! key); intros [= <- <-]; reflexivity.
Qed.

Lemma provider_kept_log l m : respects provider_kept (YGG.log_ l m).
Proof.
  intros st o st' [= <- <-]. repeat split; try reflexivity.
  cbn. apply prefix_app_r. reflexivity.
Qed.

Hint Resolve self_kept_on_arg self_kept_on_self provider_kept_buildUrl
  provider_kept_fetch provider_kept_now provider_kept_url provider_kept_log
  : respects.

Lemma self_kept_scan_link link : respects self_kept (YGG.scan_link link).
Proof. unfold YGG.scan_link, YGG.href. respect. Qed.

Hint Resolve self_kept_scan_link : respects.

Lemma self_kept_search_page recurse title offset :
  (forall o, respects self_kept (recurse o)) ->
  respects self_kept (YGG.search_page recurse title offset).
Proof. intros Hr. unfold YGG.search_page, YGG.scan_page. respect. Qed.

Lemma self_kept_recursive_call callee title media quality offset :
  (forall method, callee = Some method ->
                  forall o, respects self_kept (method o)) ->
  respects self_kept
    (YGG.recursive_call callee title media quality offset).
Proof.
  intros Hm. unfold YGG.recursive_call. destruct callee as [method|].
  - specialize (Hm method eq_refl). respect.
  - respect.
Qed.

Lemma self_kept_searchOnTitle depth title media quality offset :
  respects self_kept (YGG._searchOnTitle depth title media quality offset).
Proof.
  revert offset. induction depth as [|depth IH]; intros offset;
    rewrite _searchOnTitle_eq; apply respects_try_except;
    try typeclasses eauto.
  1, 3: unfold YGG.protected; apply self_kept_search_page; intros o;
    apply self_kept_recursive_call; cbn [YGG.callee];
    intros method [= <-]; exact IH.
  all: intros e; unfold YGG.search_failed; respect.
Qed.

(** X6. [_searchOnTitle] never changes the provider's settings, its
    endpoints or its login flag, and never takes an entry out of the
    log, whatever the pages hold and whatever is raised on the way. *)
Theorem searchOnTitle_keeps_provider (depth : nat) (title : string)
    (media quality : YGG.dict) (offset : Z) (s : YGG.state * YGG.sink) :
  provider_kept s.1
    (YGG._searchOnTitle depth title media quality offset s).2.1.
Proof.
  destruct (YGG._searchOnTitle depth title media quality offset s)
    as [o s'] eqn:E.
  exact (self_kept_searchOnTitle _ _ _ _ _ _ _ _ E).
Qed.

(** A result keeps every entry but its description and its age. *)
Definition entries_kept (s s' : YGG.state * YGG.dict) : Prop :=
  provider_kept s.1 s'.1
  /\ forall key, key <> "description" -> key <> "age" ->
                 s'.2 !! key = s.2 !! key.

#[export] Instance entries_kept_refl : Reflexive entries_kept.
Proof. intros s. split; reflexivity. Qed.

#[export] Instance entries_kept_trans : Transitive entries_kept.
Proof.
  intros a b c [Hp1 Hk1] [Hp2 Hk2]. split; [etrans; eassumption|].
  intros key Hd Ha. rewrite (Hk2 key Hd Ha). auto.
Qed.

Lemma entries_kept_on_self {A} (c : Py.M YGG.state A) :
  respects provider_kept c -> respects entries_kept (YGG.on_self c).
Proof.
  intros Hc s o s'. unfold YGG.on_self.
  destruct (c s.1) as [o1 st1] eqn:E. intros [= <- <-].
  split; [exact (Hc _ _ _ E) | reflexivity].
Qed.

Lemma entries_kept_read : respects entries_kept (YGG.on_arg Py.get).
Proof. intros [st d] o s' [= <- <-]. reflexivity. Qed.

Lemma entries_kept_description v :
  respects entries_kept (YGG.on_arg (YGG.setitem "description" v)).
Proof.
  intros [st d] o s' [= <- <-]. split; [reflexivity|].
  intros key Hd _. cbn. apply lookup_insert_ne. congruence.
Qed.

Lemma entries_kept_age v :
  respects entries_kept (YGG.on_arg (YGG.setitem "age" v)).
Proof.
  intros [st d] o s' [= <- <-]. split; [reflexivity|].
  intros key _ Ha. cbn. apply lookup_insert_ne. congruence.
Qed.

Hint Resolve entries_kept_on_self entries_kept_read entries_kept_description
  entries_kept_age : respects.

(** X7. Whether it returns or raises, [getMoreInfo] changes no entry of
    the result other than [description] and [age], and leaves the
    provider's settings, endpoints and login flag as they were. *)
Theorem getMoreInfo_keeps_entries (st : YGG.state) (nzb : YGG.dict) :
  provider_kept st (YGG.getMoreInfo (st, nzb)).2.1
  /\ forall key, key <> "description" -> key <> "age" ->
                 (YGG.getMoreInfo (st, nzb)).2.2 !! key = nzb !! key.
Proof.
  assert (Hk : respects entries_kept YGG.getMoreInfo).
  { unfold YGG.getMoreInfo. respect. }
  destruct (YGG.getMoreInfo (st, nzb)) as [o s'] eqn:E.
  exact (Hk _ _ _ E).
Qed.

End FrameFacts.

(** ** One page, at most one call *)

Section ChainFacts.
Context `{Externals}.

(** No recursive call made, no result taken out. *)
Definition quiet (s s' : YGG.state * YGG.sink) : Prop :=
  YGG.calls s'.2 = YGG.calls s.2
  /\ YGG.results s.2 `prefix_of` YGG.results s'.2.

#[export] Instance quiet_refl : Reflexive quiet.
Proof. intros s. split; reflexivity. Qed.

#[export] Instance quiet_trans : Transitive quiet.
Proof.
  intros a b c [Hc1 Hr1] [Hc2 Hr2]. split; [congruence|].
  etrans; eassumption.
Qed.

(** At most one recursive call made, with these arguments and the
    results as they stood. *)
Definition one_call (title : string) (media quality : YGG.dict) (next : Z)
    (s s' : YGG.state * YGG.sink) : Prop :=
  quiet s s'
  \/ exists snapshot,
       YGG.results s.2 `prefix_of` snapshot
       /\ YGG.calls s'.2
          = YGG.calls s.2 ++ [YGG.Call title media quality snapshot next].

Lemma quiet_then_one_call title media quality next a b c :
  quiet a b -> one_call title media quality next b c ->
  one_call title media quality next a c.
Proof.
  intros Hq [Hq'|(snapshot & Hpre & Hcalls)].
  - left. etrans; eassumption.
  - right. destruct Hq as [Hc Hr]. exists snapshot.
    split; [etrans; eassumption|]. rewrite Hcalls, Hc. reflexivity.
Qed.

Lemma one_call_then_quiet title media quality next a b c :
  one_call title media quality next a b -> quiet b c ->
  one_call title media quality next a c.
Proof.
  intros [Hq'|(snapshot & Hpre & Hcalls)] Hq.
  - left. etrans; eassumption.
  - right. destruct Hq as [Hc Hr]. exists snapshot.
    split; [exact Hpre|]. rewrite Hc, Hcalls. reflexivity.
Qed.

Lemma one_call_after {A B} title media quality next
    (c : Py.M (YGG.state * YGG.sink) A)
    (k : A -> Py.M (YGG.state * YGG.sink) B) :
  respects quiet c ->
  (forall a, respects (one_call title media quality next) (k a)) ->
  respects (one_call title media quality next) (Py.bind c k).
Proof.
  intros Hc Hk s o s'. unfold Py.bind.
  destruct (c s) as [[a|e] s1] eqn:E; intros Hrun.
  - eapply quiet_then_one_call; [exact (Hc _ _ _ E) | exact (Hk _ _ _ _ Hrun)].
  - injection Hrun as <- <-. left. exact (Hc _ _ _ E).
Qed.

Lemma quiet_on_self {A} (c : Py.M YGG.state A) :
  respects quiet (YGG.on_self c).
Proof.
  intros s o s'. unfold YGG.on_self. destruct (c s.1).
  intros [= <- <-]. split; reflexivity.
Qed.

Lemma quiet_append r : respects quiet (YGG.on_arg (YGG.append r)).
Proof.
  intros [st k] o s' [= <- <-]. split; [reflexivity|].
  cbn. apply prefix_app_r. reflexivity.
Qed.

Hint Resolve quiet_on_self quiet_append : respects.

Lemma quiet_scan_link link : respects quiet (YGG.scan_link link).
Proof. unfold YGG.scan_link, YGG.href. respect. Qed.

Lemma quiet_scan_links links :
  respects quiet (Py.for_each links YGG.scan_link).
Proof.
  apply respects_for_each; try typeclasses eauto. apply quiet_scan_link.
Qed.

Lemma one_call_protected depth title media quality offset :
  respects (one_call title media quality (offset + 1))
           (YGG.protected depth title media quality offset).
Proof.
  unfold YGG.protected, YGG.search_page.
  apply one_call_after; [apply quiet_on_self|]. intros url.
  apply one_call_after; [apply quiet_on_self|]. intros data.
  apply one_call_after; [apply respects_lift; typeclasses eauto|].
  intros soup.
  apply one_call_after; [apply quiet_on_self|]. intros torrent.
  cbv zeta.
  destruct (Html.find (Html.has_class "results") (Html.root soup))
    as [resultList|]; [|left; eapply respects_ret; [typeclasses eauto|eassumption]].
  apply one_call_after; [apply respects_lift; typeclasses eauto|].
  intros pattern.
  apply one_call_after; [apply quiet_scan_links|]. intros _.
  destruct (Html.find _ (Html.root soup)) as [pagination|];
    [|left; eapply respects_ret; [typeclasses eauto|eassumption]].
  intros s o s' Hrun. apply pages_at_most_one in Hrun as [Hsame|Hcall].
  - left. split; rewrite Hsame; reflexivity.
  - right. eexists. split; [reflexivity | exact Hcall].
Qed.

(** X8. Whatever the page holds, one invocation of [_searchOnTitle]
    makes at most one recursive call; the call, when made, is for
    [offset + 1] with the same title, media and quality, and receives the
    results list with nothing taken out. *)
Theorem searchOnTitle_one_call (depth : nat) (title : string)
    (media quality : YGG.dict) (offset : Z) (s : YGG.state * YGG.sink) :
  one_call title media quality (offset + 1) s
    (YGG._searchOnTitle depth title media quality offset s).2.
Proof.
  rewrite _searchOnTitle_eq. unfold Py.try_except.
  destruct (YGG.protected depth title media quality offset s)
    as [[[]|e] s1] eqn:E.
  - exact (one_call_protected _ _ _ _ _ _ _ _ E).
  - eapply one_call_then_quiet;
      [exact (one_call_protected _ _ _ _ _ _ _ _ E)|].
    rewrite search_failed_ok. split; reflexivity.
Qed.

End ChainFacts.

(** ** Failures, and what is kept of a page *)

Section FailureFacts.
Context `{Externals}.

(** The entry the handler of [_searchOnTitle] logs for an exception. *)
Definition failure (e : Py.exn) : YGG.level * YGG.message :=
  (YGG.ERROR,
   YGG.Traceback ("Failed searching release from " +:+ getName +:+ ": ") e).

Lemma searchOnTitle_raised depth title media quality offset s e s1 :
  YGG.protected depth title media quality offset s = (Py.Raise e, s1) ->
  YGG._searchOnTitle depth title media quality offset s
  = (Py.Ok tt, (logged [failure e] s1.1, s1.2)).
Proof.
  intros Hrun. rewrite _searchOnTitle_eq. unfold Py.try_except.
  rewrite Hrun. apply search_failed_ok.
Qed.

(** X9. A provider whose configured url does not match has no search:
    after [refreshUrls], every [_searchOnTitle] returns at once, with no
    request made, nothing appended and no recursive call, the missing
    endpoint showing as one error in the log. *)
Theorem invalid_url_disables_search (st : YGG.state) (u : string) :
  YGG.conf st !! "url" = Some u ->
  (forall base, ~ matches_url_regexp u base) ->
  exists st',
    YGG.refreshUrls st = (Py.Ok tt, st')
    /\ forall depth title media quality offset k,
         YGG._searchOnTitle depth title media quality offset (st', k)
         = (Py.Ok tt, (logged [failure Py.AttributeError] st', k)).
Proof.
  intros Hconf Hno. rewrite (refreshUrls_run st u Hconf).
  eexists. split; [reflexivity|].
  intros depth title media quality offset k.
  apply (searchOnTitle_raised depth title media quality offset _ _ (_, k)).
  unfold YGG.protected, YGG.search_page.
  erewrite bind_raise; [reflexivity|].
  unfold YGG.on_self, YGG.buildUrl, YGG.url_, Py.bind, Py.get, Py.getitem.
  cbn [fst snd YGG.urls]. unfold search_endpoints.
  pose proof (derived_spec u) as Hspec.
  destruct (derived u) as [base|]; [destruct (Hno base Hspec)|].
  simplify_map_eq. reflexivity.
Qed.

(** X10. When the request for the page fails, or its body does not
    parse, [_searchOnTitle] returns with that exception as the one new
    entry of the log: nothing is appended and no recursive call is
    made. *)
Theorem searchOnTitle_page_unavailable (depth : nat) (title : string)
    (media quality : YGG.dict) (offset : Z) (st : YGG.state) (k : YGG.sink)
    (url : string) :
  YGG.buildUrl title offset st = (Py.Ok url, st) ->
  (forall e w,
      getHTMLData url (YGG.site st) = (Py.Raise e, w) ->
      YGG._searchOnTitle depth title media quality offset (st, k)
      = (Py.Ok tt, (logged [failure e] (YGG.set_site w st), k)))
  /\ (forall data w e,
        getHTMLData url (YGG.site st) = (Py.Ok data, w) ->
        BeautifulSoup data = Py.Raise e ->
        YGG._searchOnTitle depth title media quality offset (st, k)
        = (Py.Ok tt, (logged [failure e] (YGG.set_site w st), k))).
Proof.
  intros Hbuild. split.
  - intros e w Hfetch.
    apply (searchOnTitle_raised depth title media quality offset _ _
             (YGG.set_site w st, k)).
    unfold YGG.protected, YGG.search_page.
    erewrite bind_ok
      by (unfold YGG.on_self; cbn [fst snd]; rewrite Hbuild; reflexivity).
    erewrite bind_raise by (run; rewrite Hfetch; reflexivity). reflexivity.
  - intros data w e Hfetch Hparse.
    apply (searchOnTitle_raised depth title media quality offset _ _
             (YGG.set_site w st, k)).
    unfold YGG.protected, YGG.search_page.
    erewrite bind_ok
      by (unfold YGG.on_self; cbn [fst snd]; rewrite Hbuild; reflexivity).
    step_with Hfetch.
    erewrite bind_raise by (run; rewrite Hparse; reflexivity). reflexivity.
Qed.

(** The loop over the links, up to a given link: one result for each
    link before it that qualifies. *)
Lemma scan_links_then (base : string) (before rest : list Html.element) :
  forall st k,
    YGG.urls st !! "url"
      = Some (Py.VStr (base +:+ "/engine/download_torrent?id={}")) ->
    brace_free base ->
    Forall (fun l => is_Some (Html.attr "href" (Html.here l))) before ->
    Forall well_formed (List.filter qualifies before) ->
    exists new entries,
      Forall2 (describes base) (List.filter qualifies before) new
      /\ Py.for_each (before ++ rest) YGG.scan_link (st, k)
         = Py.for_each rest YGG.scan_link
             (logged entries st,
              YGG.Sink (YGG.results k ++ new) (YGG.calls k)).
Proof.
  induction before as [|link before IH]; intros st k Hurl Hbase Hhref Hwf.
  - exists [], []. split; [constructor|]. cbn [app].
    rewrite logged_nil, app_nil_r. destruct k. reflexivity.
  - apply Forall_cons in Hhref as [Hh Hhref]. cbn [List.filter app] in *.
    cbn [Py.for_each].
    destruct (qualifies link) eqn:Hq.
    + apply Forall_cons in Hwf as [Hw Hwf].
      destruct (scan_link_kept base link st k Hurl Hbase Hq Hw)
        as (r & Hr & Hrun).
      erewrite bind_ok by exact Hrun.
      destruct (IH (logged [(YGG.DEBUG, YGG.Dict r)] st)
                   (YGG.Sink (YGG.results k ++ [r]) (YGG.calls k))
                   Hurl Hbase Hhref Hwf) as (new & entries & Hnew & Hloop).
      exists (r :: new), ((YGG.DEBUG, YGG.Dict r) :: entries).
      split; [constructor; assumption|].
      rewrite Hloop, logged_logged. cbn [YGG.results YGG.calls].
      rewrite <- app_assoc. reflexivity.
    + erewrite bind_ok by (apply scan_link_skipped; assumption).
      apply IH; assumption.
Qed.

(** The row of the link has fewer than nine cells. *)
Definition row_too_short (link : Html.element) : Prop :=
  exists row,
    row_of link = Some row
    /\ length (Html.find_all (Html.is_tag "td") row) < 9.

Lemma scan_link_short_row (link : Html.element) s :
  qualifies link = true ->
  is_Some (parsed_id link) ->
  row_too_short link ->
  YGG.scan_link link s = (Py.Raise Py.IndexError, s).
Proof.
  intros Hq [id Hid] (row & Hrow & Hlen).
  unfold qualifies in Hq.
  destruct (Html.attr "href" (Html.here link)) as [h|] eqn:Hh;
    [|discriminate].
  apply bool_decide_eq_true in Hq as [mc Hmc].
  unfold parsed_id in Hid. rewrite Hh in Hid.
  unfold mbind, option_bind in Hid.
  destruct (Re.search YGG.id_regexp h) as [m|] eqn:Hm; [|discriminate].
  destruct (Re.group m 1) as [g|] eqn:Hg; [|discriminate].
  unfold row_of, mbind, option_bind in Hrow.
  destruct (Html.parent link) as [p|] eqn:Hp; [|discriminate].
  unfold YGG.scan_link, YGG.href. rewrite Hh.
  erewrite bind_ok by reflexivity. rewrite Hmc.
  erewrite bind_ok by reflexivity.
  step_with Hm. step_with Hg. step_with Hp. step_with Hrow.
  set (cells := Html.find_all (Html.is_tag "td") row) in *.
  destruct (cells !! 5) as [c5|] eqn:H5;
    [|erewrite bind_raise by (run; rewrite H5; reflexivity); reflexivity].
  step_with H5.
  destruct (cells !! 7) as [c7|] eqn:H7;
    [|erewrite bind_raise by (run; rewrite H7; reflexivity); reflexivity].
  step_with H7.
  destruct (cells !! 8) as [c8|] eqn:H8;
    [|erewrite bind_raise by (run; rewrite H8; reflexivity); reflexivity].
  apply lookup_lt_Some in H8. lia.
Qed.


Lemma pages_no_link depth title media quality offset
    (before rest : list Html.element) page (s : YGG.state * YGG.sink) :
  Forall (at_most (offset + 1)) before ->
  label_of page = None ->
  Py.for_each (before ++ page :: rest)
    (YGG.scan_page
       (YGG.recursive_call (YGG.callee depth title media quality)
          title media quality) offset) s
  = (Py.Raise Py.AttributeError, s).
Proof.
  intros Hb Hn. induction Hb as [|p before Hp _ IH]; cbn [app Py.for_each].
  - erewrite bind_raise by (apply scan_page_no_link, Hn). reflexivity.
  - erewrite bind_ok by (apply scan_page_low, Hp). exact IH.
Qed.



End FailureFacts.

(** ** Trimmed text and the id of a link *)

Section TextFacts.

Lemma rev_onto_app (s acc : string) :
  Str.rev_onto s acc = Str.rev s +:+ acc.
Proof.
  unfold Str.rev. revert acc.
  induction s as [|c s IH]; intros acc; cbn [Str.rev_onto]; [reflexivity|].
  rewrite (IH (String c acc)), (IH (String c EmptyString)), append_assoc.
  reflexivity.
Qed.

Lemma rev_cons c (s : string) :
  Str.rev (String c s) = Str.rev s +:+ String c EmptyString.
Proof. unfold Str.rev at 1. cbn [Str.rev_onto]. apply rev_onto_app. Qed.

Lemma rev_app (a b : string) : Str.rev (a +:+ b) = Str.rev b +:+ Str.rev a.
Proof.
  induction a as [|c a IH]; cbn [String.append].
  - change (Str.rev EmptyString) with EmptyString.
    rewrite append_nil_r. reflexivity.
  - rewrite !rev_cons, IH, append_assoc. reflexivity.
Qed.

Lemma rev_involutive (s : string) : Str.rev (Str.rev s) = s.
Proof.
  induction s as [|c s IH]; [reflexivity|].
  rewrite rev_cons, rev_app, IH. reflexivity.
Qed.

Lemma all_chars_rev p (s : string) :
  Str.all_chars p (Str.rev s) = Str.all_chars p s.
Proof.
  induction s as [|c s IH]; [reflexivity|].
  rewrite rev_cons, all_chars_app, IH. cbn [Str.all_chars].
  rewrite andb_true_r, andb_comm. reflexivity.
Qed.

(** The string is empty or starts with a byte that is not whitespace. *)
Definition starts_clean (s : string) : Prop :=
  match s with
  | EmptyString => True
  | String c _ => Str.is_space c = false
  end.

Lemma lstrip_spec (s : string) :
  exists l, s = l +:+ Str.lstrip s
            /\ Str.all_chars Str.is_space l = true
            /\ starts_clean (Str.lstrip s).
Proof.
  induction s as [|c s (l & Hs & Hl & Hc)]; cbn [Str.lstrip].
  - exists EmptyString. repeat split.
  - destruct (Str.is_space c) eqn:E.
    + exists (String c l). cbn [String.append Str.all_chars].
      rewrite E, Hl, <- Hs. repeat split. exact Hc.
    + exists EmptyString. repeat split. exact E.
Qed.

Lemma rstrip_spec (s : string) :
  exists r, s = Str.rstrip s +:+ r
            /\ Str.all_chars Str.is_space r = true
            /\ starts_clean (Str.rev (Str.rstrip s)).
Proof.
  destruct (lstrip_spec (Str.rev s)) as (l & Hs & Hl & Hc).
  exists (Str.rev l). unfold Str.rstrip. split; [|split].
  - rewrite <- rev_app, <- Hs, rev_involutive. reflexivity.
  - rewrite all_chars_rev. exact Hl.
  - rewrite rev_involutive. exact Hc.
Qed.

Lemma starts_clean_head (a b : string) :
  starts_clean (a +:+ b) -> Str.all_chars Str.is_space b = true ->
  starts_clean a.
Proof.
  destruct a as [|c a]; [exact (fun _ _ => I)|]. intros Hc _. exact Hc.
Qed.


Lemma strip_clean (s : string) :
  Str.all_chars (fun c => negb (Str.is_space c)) s = true ->
  Str.strip s = s.
Proof.
  intros Hs.
  assert (Hl : forall t, Str.all_chars (fun c => negb (Str.is_space c)) t
                         = true -> Str.lstrip t = t).
  { intros [|c t]; cbn [Str.lstrip Str.all_chars]; [reflexivity|].
    intros Ht. apply andb_true_iff in Ht as [Hc _].
    apply negb_true_iff in Hc. rewrite Hc. reflexivity. }
  unfold Str.strip, Str.rstrip. rewrite (Hl s Hs), Hl.
  - apply rev_involutive.
  - rewrite all_chars_rev. exact Hs.
Qed.

Lemma all_chars_impl (p q : ascii -> bool) (s : string) :
  (forall c, p c = true -> q c = true) ->
  Str.all_chars p s = true -> Str.all_chars q s = true.
Proof.
  intros Hpq. induction s as [|c s IH]; cbn [Str.all_chars]; [done|].
  intros Hs. apply andb_true_iff in Hs as [Hc Hs].
  rewrite (Hpq c Hc), (IH Hs). reflexivity.
Qed.

Lemma digit_plain (c : ascii) :
  Str.is_digit c = true ->
  Str.is_space c = false /\ Ascii.eqb c "-" = false
  /\ Ascii.eqb c "+" = false /\ Ascii.eqb c "/" = false.
Proof.
  destruct c as [[] [] [] [] [] [] [] []]; vm_compute;
    first [discriminate | intros _; repeat split].
Qed.

(** [tryInt] on a run of decimal digits. *)
Lemma tryInt_digits `{Externals} (digits : string) :
  digits <> EmptyString ->
  Str.all_chars Str.is_digit digits = true ->
  Host.tryInt digits = Str.digits_val digits 0.
Proof.
  intros Hne Hd. unfold Host.tryInt, Py.py_int.
  rewrite strip_clean.
  2:{ eapply all_chars_impl; [|exact Hd]. intros c Hc.
      apply negb_true_iff, (digit_plain c Hc). }
  destruct digits as [|c d]; [done|].
  pose proof Hd as Hd'. cbn [Str.all_chars] in Hd'.
  apply andb_true_iff in Hd' as [Hc _].
  destruct (digit_plain c Hc) as (_ & -> & -> & _).
  cbn [fst snd]. rewrite Hd. cbn [default from_option id].
  apply Z.mul_1_l.
Qed.

End TextFacts.

Section IdFacts.

(** The subject still has a [/] ahead. *)
Fixpoint has_slash (s : string) : bool :=
  match s with
  | EmptyString => false
  | String c s' => Ascii.eqb c "/" || has_slash s'
  end.

Definition slashed (m : Re.mstate) : Prop := has_slash (Re.rest m) = true.

Lemma has_slash_app (a b : string) :
  has_slash (a +:+ b) = has_slash a || has_slash b.
Proof.
  induction a as [|c a IH]; cbn [String.append has_slash]; [reflexivity|].
  rewrite IH, orb_assoc. reflexivity.
Qed.

Lemma runs_slashed p hi s :
  (forall c, p c = true -> Ascii.eqb c "/" = false) ->
  has_slash s = true ->
  Forall (fun nr => has_slash nr.2 = true) (Re.runs p hi s).
Proof.
  intros Hp. revert hi. induction s as [|c s IH]; intros hi Hs.
  - discriminate.
  - cbn [Re.runs]. destruct (p c && Re.allows hi) eqn:E.
    + apply andb_true_iff in E as [Hc _].
      cbn [has_slash] in Hs. rewrite (Hp c Hc) in Hs. cbn [orb] in Hs.
      apply Forall_app. split.
      * apply Forall_map. cbn [snd]. apply IH, Hs.
      * apply Forall_singleton. cbn [snd has_slash].
        rewrite Hs. apply orb_true_r.
    + apply Forall_singleton. exact Hs.
Qed.

Lemma rep_slashed p lo hi m :
  (forall c, p c = true -> Ascii.eqb c "/" = false) ->
  slashed m -> Forall slashed (Re.rmatch (Re.Rep p lo hi) m).
Proof.
  intros Hp Hm. cbn [Re.rmatch]. apply Forall_map.
  apply Forall_forall. intros nr Hnr.
  apply list_elem_of_In, filter_In in Hnr as [Hnr _].
  apply list_elem_of_In in Hnr.
  pose proof (runs_slashed p hi (Re.rest m) Hp Hm) as Hall.
  rewrite Forall_forall in Hall. exact (Hall nr Hnr).
Qed.

Lemma grp_slashed r m :
  Forall slashed (Re.rmatch r m) -> Forall slashed (Re.rmatch (Re.Grp r) m).
Proof. intros Hr. cbn [Re.rmatch]. apply Forall_map. exact Hr. Qed.

Lemma dash_slashed m :
  slashed m -> Forall slashed (Re.rmatch (Re.Lit "-") m).
Proof.
  unfold slashed. intros Hm. cbn [Re.rmatch Str.drop_prefix].
  destruct (Re.rest m) as [|c t]; [constructor|].
  destruct (Ascii.eqb "-" c) eqn:E; [|constructor].
  apply Ascii.eqb_eq in E. subst c. apply Forall_singleton. exact Hm.
Qed.

Lemma eos_slashed m : slashed m -> Re.rmatch Re.Eos m = [].
Proof.
  unfold slashed. cbn [Re.rmatch]. destruct (Re.rest m) as [|c [|d t]];
    [discriminate | | reflexivity].
  cbn [has_slash]. rewrite orb_false_r. intros Hc.
  apply Ascii.eqb_eq in Hc. subst c. reflexivity.
Qed.

Lemma seq_nil r1 r2 m :
  Forall (fun m' => Re.rmatch r2 m' = []) (Re.rmatch r1 m) ->
  Re.rmatch (Re.Seq r1 r2) m = [].
Proof.
  cbn [Re.rmatch]. induction 1 as [|a l Ha _ IH]; [reflexivity|].
  cbn [map List.concat]. rewrite Ha, IH. reflexivity.
Qed.

Lemma not_slash_space_plain c :
  Re.not_slash_space c = true -> Ascii.eqb c "/" = false.
Proof.
  unfold Re.not_slash_space. intros Hc.
  apply andb_true_iff in Hc as [Hc _]. apply negb_true_iff, Hc.
Qed.

Lemma lit_slash p c t g :
  Re.rmatch (Re.Lit "/") (Re.MState p (String c t) g)
  = if Ascii.eqb "/" c then [Re.MState (p + 1) t g] else [].
Proof.
  cbn [Re.rmatch Str.drop_prefix Re.rest Re.pos Re.groups String.length].
  destruct (Ascii.eqb "/" c); reflexivity.
Qed.

(** Before the last [/] of the subject, the id expression does not
    match. *)
Lemma id_regexp_early p c t :
  has_slash t = true ->
  Re.match_at YGG.id_regexp p (String c t) = None.
Proof.
  intros Ht. unfold Re.match_at, YGG.id_regexp.
  rewrite seq_nil; [reflexivity|].
  rewrite lit_slash. destruct (Ascii.eqb "/" c); [|constructor].
  apply Forall_singleton.
  set (m1 := Re.MState _ t _).
  assert (Hm1 : slashed m1) by exact Ht.
  apply seq_nil.
  eapply Forall_impl;
    [apply grp_slashed, rep_slashed;
       [intros d Hd; apply (digit_plain d Hd) | exact Hm1]|].
  intros m2 Hm2. apply seq_nil.
  eapply Forall_impl; [apply dash_slashed, Hm2|].
  intros m3 Hm3. apply seq_nil.
  eapply Forall_impl;
    [apply rep_slashed; [apply not_slash_space_plain | exact Hm3]|].
  intros m4 Hm4. apply eos_slashed, Hm4.
Qed.

Lemma head_concat_some {A B} (f : A -> list B) (l : list A) a b :
  head l = Some a -> head (f a) = Some b ->
  head (List.concat (map f l)) = Some b.
Proof.
  destruct l as [|a' l]; [discriminate|]. intros [= ->] Hb.
  cbn [map List.concat]. destruct (f a); [discriminate|]. exact Hb.
Qed.

Lemma drop_bytes_app (a b : string) :
  Host.drop_bytes (String.length a) (a +:+ b) = b.
Proof. induction a as [|c a IH]; [destruct b|]; cbn; auto. Qed.

Lemma drop_bytes_length (a : string) :
  Host.drop_bytes (String.length a) a = EmptyString.
Proof.
  pose proof (drop_bytes_app a EmptyString) as Ha.
  rewrite append_nil_r in Ha. exact Ha.
Qed.

(** At the last [/], followed by the digits, a dash and the slug, the id
    expression matches with the digits as its group. *)
Lemma id_regexp_last p (digits slug : string) :
  digits <> EmptyString ->
  Str.all_chars Str.is_digit digits = true ->
  slug <> EmptyString ->
  Str.all_chars Re.not_slash_space slug = true ->
  exists m,
    Re.match_at YGG.id_regexp p ("/" +:+ digits +:+ "-" +:+ slug) = Some m
    /\ Re.group m 1 = Some digits.
Proof.
  intros Hd Hdigits Hs Hslug.
  assert (Hspan : span_len Re.digit (digits +:+ "-" +:+ slug)
                  = String.length digits)
    by (apply span_len_app; [exact Hdigits | reflexivity]).
  assert (Hspan' : span_len Re.not_slash_space (slug +:+ EmptyString)
                   = String.length slug)
    by (apply span_len_app; [exact Hslug | exact I]).
  rewrite append_nil_r in Hspan'.
  eexists. split.
  - unfold Re.match_at, YGG.id_regexp.
    change (Re.rmatch (Re.Seq ?a ?b) ?m)
      with (List.concat (map (Re.rmatch b) (Re.rmatch a m))).
    eapply head_concat_some; [reflexivity|].
    cbn [Re.pos Re.rest Re.groups String.length].
    change (Re.rmatch (Re.Seq ?a ?b) ?m)
      with (List.concat (map (Re.rmatch b) (Re.rmatch a m))).
    eapply head_concat_some.
    { change (Re.rmatch (Re.Grp ?r) ?m0)
        with (map (fun m' => Re.MState (Re.pos m') (Re.rest m')
                     (Re.groups m'
                        ++ [Str.take (Re.pos m' - Re.pos m0) (Re.rest m0)]))
                (Re.rmatch r m0)).
      rewrite head_map, plus_head. cbn [Re.rest Re.pos Re.groups].
      rewrite Hspan.
      destruct (Nat.eqb (String.length digits) 0) eqn:E.
      { apply Nat.eqb_eq, take_length_nil in E. contradiction. }
      cbn [option_map Re.pos Re.rest Re.groups app].
      rewrite drop_bytes_app.
      replace (p + 1 + String.length digits - (p + 1))
        with (String.length digits) by lia.
      rewrite take_app_length. reflexivity. }
    change (Re.rmatch (Re.Seq ?a ?b) ?m)
      with (List.concat (map (Re.rmatch b) (Re.rmatch a m))).
    eapply head_concat_some.
    { cbn [Re.rmatch Re.rest Re.pos Re.groups Str.drop_prefix String.append].
      rewrite Ascii.eqb_refl. reflexivity. }
    change (Re.rmatch (Re.Seq ?a ?b) ?m)
      with (List.concat (map (Re.rmatch b) (Re.rmatch a m))).
    eapply head_concat_some.
    { rewrite plus_head. cbn [Re.rest Re.pos Re.groups]. rewrite Hspan'.
      destruct (Nat.eqb (String.length slug) 0) eqn:E.
      { apply Nat.eqb_eq, take_length_nil in E. contradiction. }
      rewrite drop_bytes_length. reflexivity. }
    reflexivity.
  - reflexivity.
Qed.

Lemma id_regexp_search p (pre digits slug : string) :
  digits <> EmptyString ->
  Str.all_chars Str.is_digit digits = true ->
  slug <> EmptyString ->
  Str.all_chars Re.not_slash_space slug = true ->
  exists m,
    Re.search_from YGG.id_regexp p
      (pre +:+ "/" +:+ digits +:+ "-" +:+ slug) = Some m
    /\ Re.group m 1 = Some digits.
Proof.
  intros Hd Hdigits Hs Hslug. revert p.
  induction pre as [|c pre IH]; intros p.
  - destruct (id_regexp_last p digits slug Hd Hdigits Hs Hslug)
      as (m & Hm & Hg).
    exists m. split; [|exact Hg].
    cbn [String.append] in *. cbn [Re.search_from]. rewrite Hm. reflexivity.
  - cbn [String.append Re.search_from].
    rewrite id_regexp_early; [apply IH|].
    rewrite has_slash_app. cbn [String.append has_slash].
    rewrite Ascii.eqb_refl. apply orb_true_r.
Qed.

Context `{Externals}.

(** X15. A href that ends in [/<digits>-<slug>], the slug made of one or
    more bytes that are neither [/] nor whitespace, gives the decimal
    value of the digits as id, whatever comes before that last [/]. *)
Theorem href_id (link : Html.element) (pre digits slug : string) :
  Html.attr "href" (Html.here link)
    = Some (pre +:+ "/" +:+ digits +:+ "-" +:+ slug) ->
  digits <> EmptyString ->
  Str.all_chars Str.is_digit digits = true ->
  slug <> EmptyString ->
  Str.all_chars Re.not_slash_space slug = true ->
  parsed_id link = Some (Str.digits_val digits 0).
Proof.
  intros Hh Hd Hdigits Hs Hslug. unfold parsed_id. rewrite Hh.
  destruct (id_regexp_search 0 pre digits slug Hd Hdigits Hs Hslug)
    as (m & Hm & Hg).
  unfold mbind, option_bind, Re.search. rewrite Hm, Hg.
  rewrite (tryInt_digits digits Hd Hdigits). reflexivity.
Qed.

End IdFacts.

(** ** The log of the filter and the age of a result *)

Section OutcomeFacts.
Context {S : Type} (R Q : S -> S -> Prop).

(** [c] ends in a state related by [Q] when it returns, by [R] when it
    raises. *)
Definition ends {A} (c : Py.M S A) : Prop :=
  forall s o s',
    c s = (o, s') ->
    match o with Py.Ok _ => Q s s' | Py.Raise _ => R s s' end.

Hypothesis R_trans : Transitive R.
Hypothesis R_then_Q : forall a b c, R a b -> Q b c -> Q a c.

Lemma ends_bind {A B} (c : Py.M S A) (k : A -> Py.M S B) :
  respects R c -> (forall a, ends (k a)) -> ends (Py.bind c k).
Proof.
  intros Hc Hk s o s'. unfold Py.bind.
  destruct (c s) as [[a|e] s1] eqn:E; intros Hrun.
  - specialize (Hk a s1 o s' Hrun). specialize (Hc _ _ _ E).
    destruct o; [eapply R_then_Q | etrans]; eassumption.
  - injection Hrun as <- <-. exact (Hc _ _ _ E).
Qed.

End OutcomeFacts.

Section DetailFacts.
Context `{Externals}.

(** The result has the age it had and the log has not moved. *)
Definition undated (s s' : YGG.state * YGG.dict) : Prop :=
  s'.2 !! "age" = s.2 !! "age" /\ YGG.log s'.1 = YGG.log s.1.

(** The result has an integer age, which is the one new entry of the
    log. *)
Definition dated (s s' : YGG.state * YGG.dict) : Prop :=
  exists age,
    s'.2 !! "age" = Some (Py.VInt age)
    /\ YGG.log s'.1
       = YGG.log s.1 ++ [(YGG.DEBUG, YGG.Value (Py.VInt age))].

#[export] Instance undated_refl : Reflexive undated.
Proof. intros s. split; reflexivity. Qed.

#[export] Instance undated_trans : Transitive undated.
Proof. intros a b c [? ?] [? ?]. split; congruence. Qed.

Lemma undated_then_dated a b c : undated a b -> dated b c -> dated a c.
Proof.
  intros [_ Hlog] (age & Hage & Hlog'). exists age.
  split; [exact Hage|]. rewrite Hlog', Hlog. reflexivity.
Qed.

Lemma undated_read : respects undated (YGG.on_arg Py.get).
Proof. intros [st d] o s' [= <- <-]. reflexivity. Qed.

Lemma undated_fetch u : respects undated (YGG.on_self (YGG.fetch u)).
Proof.
  intros [st d] o s'. unfold YGG.on_self, YGG.fetch. cbn [fst snd].
  destruct (getHTMLData u (YGG.site st)). intros [= <- <-].
  split; reflexivity.
Qed.

Lemma undated_now : respects undated (YGG.on_self YGG.now).
Proof.
  intros [st d] o s'. unfold YGG.on_self, YGG.now. cbn [fst snd].
  destruct (datetime_now (YGG.site st)). intros [= <- <-].
  split; reflexivity.
Qed.

Lemma undated_description v :
  respects undated (YGG.on_arg (YGG.setitem "description" v)).
Proof.
  intros [st d] o s' [= <- <-]. split; [|reflexivity].
  cbn. apply lookup_insert_ne. discriminate.
Qed.

Hint Resolve undated_read undated_fetch undated_now undated_description
  : respects.

(** X16. [getMoreInfo] dates a result only when it returns: on return the
    result has an integer [age], which is the one new entry of the log;
    when it raises, the [age] of the result is what it was and nothing
    has been logged. *)
Theorem getMoreInfo_age (st : YGG.state) (nzb : YGG.dict) :
  match YGG.getMoreInfo (st, nzb) with
  | (Py.Ok _, (st', nzb')) =>
      exists age,
        nzb' !! "age" = Some (Py.VInt age)
        /\ YGG.log st'
           = YGG.log st ++ [(YGG.DEBUG, YGG.Value (Py.VInt age))]
  | (Py.Raise _, (st', nzb')) =>
      nzb' !! "age" = nzb !! "age" /\ YGG.log st' = YGG.log st
  end.
Proof.
  assert (He : ends undated dated YGG.getMoreInfo).
  { unfold YGG.getMoreInfo.
    repeat (apply ends_bind;
            [apply _ | apply undated_then_dated | solve [respect]
            | intros ?]).
    intros [st0 d0] o s'.
    unfold Py.bind, YGG.on_arg, YGG.on_self, YGG.setitem, YGG.log_,
      Py.modify, Py.get, Py.getitem. cbn [fst snd].
    rewrite lookup_insert_eq. intros [= <- <-].
    eexists. split; [apply lookup_insert_eq | reflexivity]. }
  specialize (He (st, nzb)).
  destruct (YGG.getMoreInfo (st, nzb)) as [o [st' nzb']].
  exact (He _ _ eq_refl).
Qed.


(** X18. What [extraCheck] writes to the log: nothing when it accepts
    the result, and when it rejects it one entry that lists the
    identifiers found, two or more of them; it raises only on a
    [description] that is not a string, and logs nothing then. *)
Theorem extraCheck_log (st : YGG.state) (nzb : YGG.dict) :
  match YGG.extraCheck (st, nzb) with
  | (Py.Ok true, (st', _)) => st' = st
  | (Py.Ok false, (st', _)) =>
      exists description,
        description_of nzb = Some description
        /\ 2 <= length (Host.getImdb description)
        /\ st' = YGG.add_log YGG.INFO
                   (YGG.Message
                      ("Too much IMDB ids: "
                         +:+ Str.join ", " (Host.getImdb description)))
                   st
  | (Py.Raise e, (st', _)) =>
      e = Py.TypeError /\ st' = st /\ description_of nzb = None
  end.
Proof.
  unfold YGG.extraCheck, description_of.
  unfold Py.bind, YGG.on_arg, YGG.on_self, Py.get, YGG.as_str, YGG.log_,
    Py.modify, Py.ret, Py.raise. cbn [fst snd].
  destruct (nzb !! "description") as [[]|]; cbn [default from_option id];
    cbv zeta; try (repeat split; reflexivity);
    match goal with
    | |- context [Host.getImdb ?d] =>
        destruct (length (Host.getImdb d)) as [|[|n]] eqn:E;
          cbn [Nat.eqb orb negb fst snd]; try reflexivity;
          exists d; rewrite E; repeat split; lia
    end.
Qed.

(** X19. A link whose href has none of the three category paths is
    passed over without effect, whatever its row looks like: nothing is
    appended, nothing logged, and the scan goes on. *)
Theorem scan_link_other_category (link : Html.element) (h : string)
    (s : YGG.state * YGG.sink) :
  Html.attr "href" (Html.here link) = Some h ->
  Str.contains "/filmvidéo/film/" h = false ->
  Str.contains "/filmvidéo/animation/" h = false ->
  Str.contains "/filmvidéo/documentaire/" h = false ->
  YGG.scan_link link s = (Py.Ok Py.Continue, s).
Proof.
  intros Hh Hf Ha Hd. apply scan_link_skipped; [eexists; exact Hh|].
  rewrite (qualifies_category link h Hh), Hf, Ha, Hd. reflexivity.
Qed.


End DetailFacts.

(** ** A second site, with pages that stop a scan half way *)

Module Mirror.

Import Html.

(** A page with a film, then a film in a row of three cells, then a
    third film. *)
Definition mixed : node :=
  Fixture.document
    [Fixture.results
       [Fixture.row "https://ygg/torrent/filmvidéo/film/401-un"
          "Un" "1Go" "10" "1";
        Fixture.short_row "https://ygg/torrent/filmvidéo/film/402-deux"
          "Deux";
        Fixture.row "https://ygg/torrent/filmvidéo/film/403-trois"
          "Trois" "2Go" "5" "0"];
     Fixture.pager ["1"; "2"; "3"]].

(** A page with one film, whose pagination control has an item without
    a link between its first page and a later one. *)
Definition gapped : node :=
  Fixture.document
    [Fixture.results
       [Fixture.row "https://ygg/torrent/filmvidéo/animation/501-seul"
          "Seul" "3Go" "8" "2"];
     Tag "ul" [("class", "pagination")]
       [Tag "li" [] [Tag "a" [("href", "#")] [Text "1"]];
        Tag "li" [] [Text "..."];
        Tag "li" [] [Tag "a" [("href", "#")] [Text "9"]]]].

Definition pages : list (string * node) :=
  [("mixte", mixed); ("lacune", gapped)].

Definition serve (url : string) : Py.outcome string :=
  if Str.contains "name=mixte" url then Py.Ok "mixte"
  else if Str.contains "name=lacune" url then Py.Ok "lacune"
  else if Str.contains "name=illisible" url then Py.Ok "illisible"
  else Py.Raise (Py.HostError "404").

#[export] Instance site : Externals := {|
  world := list string;
  getHTMLData url requests := (serve url, requests ++ [url]);
  BeautifulSoup data :=
    match Fixture.page_named data pages with
    | Some t => Py.Ok t
    | None => Py.Raise (Py.HostError "parser")
    end;
  prettify := get_text;
  re_compile := Fixture.compile;
  parseSize text := Py.VInt (Str.digits_val (Fixture.digits_of text) 0);
  simplifyString text := text;
  imdb_max_digits := 7;
  strptime := Fixture.parse_date;
  datetime_now requests := (6771600%Z, requests);
  getName := "YGG"
|}.

Definition fresh : YGG.state :=
  YGG.State (<["url" := "https://ygg/"]> ∅) ∅ false [] [].

Definition ready : YGG.state := snd (YGG.refreshUrls fresh).

Definition no_results : YGG.sink := YGG.Sink [] [].

Definition search_url (title : string) : string :=
  "https://ygg/engine/search?sub_category=all&category=2145&uploader=&name="
    +:+ title +:+ "&file=&do=search&description=".

End Mirror.

Section MirrorRuns.

Import Mirror.

Lemma fetched_mixed :
  page_fetched ready "mixte" 0 [search_url "mixte"] mixed.
Proof. exists (search_url "mixte"), "mixte". vm_compute. auto. Qed.

Lemma fetched_gapped :
  page_fetched ready "lacune" 0 [search_url "lacune"] gapped.
Proof. exists (search_url "lacune"), "lacune". vm_compute. auto. Qed.

Lemma searchOnTitle_page_unavailable_witness :
  YGG._searchOnTitle 5 "perdu" ∅ ∅ 0 (ready, no_results)
  = (Py.Ok tt,
     (logged [failure (Py.HostError "404")]
        (YGG.set_site [search_url "perdu"] ready), no_results))
  /\ YGG._searchOnTitle 5 "illisible" ∅ ∅ 0 (ready, no_results)
     = (Py.Ok tt,
        (logged [failure (Py.HostError "parser")]
           (YGG.set_site [search_url "illisible"] ready), no_results)).
Proof.
  split.
  - destruct (searchOnTitle_page_unavailable 5 "perdu" ∅ ∅ 0 ready
                no_results (search_url "perdu")) as [Hfetch _];
      [vm_compute; reflexivity|].
    apply Hfetch. vm_compute. reflexivity.
  - destruct (searchOnTitle_page_unavailable 5 "illisible" ∅ ∅ 0 ready
                no_results (search_url "illisible")) as [_ Hparse];
      [vm_compute; reflexivity|].
    apply (Hparse "illisible"); vm_compute; reflexivity.
Defined.



End MirrorRuns.

(** ** The further properties on the first site *)

Section SiteExtras.

Import Fixture.

(** The provider with both urls configured. *)
Definition configured : YGG.state :=
  YGG.State
    (<["login_url" := "https://login.ygg/signin"]>
       (<["url" := "https://ygg/"]> ∅))
    ∅ true [] [].

Lemma matches_ygg : matches_url_regexp "https://ygg/" "https://ygg".
Proof. exists "ygg", "/". repeat split; try reflexivity. discriminate. Qed.

Lemma refreshLoginUrl_endpoint_witness :
  exists st',
    YGG.refreshLoginUrl configured = (Py.Ok tt, st')
    /\ YGG.last_login_check st' = false
    /\ YGG.urls st' !! "login"
       = Some (Py.VStr "https://login.ygg/user/login").
Proof.
  destruct (refreshLoginUrl_endpoint configured "https://login.ygg/signin"
              eq_refl)
    as (st' & Hrun & Hflag & Hyes & _).
  exists st'. split; [exact Hrun|]. split; [exact Hflag|].
  apply (Hyes "https://login.ygg").
  exists "login.ygg", "/signin". repeat split; try reflexivity. discriminate.
Defined.

Lemma refreshUrls_frame_witness :
  exists st' entry,
    YGG.refreshUrls plain_http = (Py.Ok tt, st')
    /\ YGG.last_login_check st' = false
    /\ YGG.log st' = [entry]
    /\ entry.1 = YGG.WARNING.
Proof.
  destruct (refreshUrls_frame plain_http "http://ygg/" eq_refl)
    as (st' & entry & Hrun & Hflag & Hlog & Hwarn & _).
  exists st', entry. split; [exact Hrun|]. split; [exact Hflag|].
  split; [exact Hlog|]. apply Hwarn.
  intros base (host & tail & -> & Hu & _). discriminate.
Defined.

Lemma refreshes_commute_witness :
  exists a b,
    Py.bind YGG.refreshUrls (fun _ => YGG.refreshLoginUrl) configured
    = (Py.Ok tt, a)
    /\ Py.bind YGG.refreshLoginUrl (fun _ => YGG.refreshUrls) configured
       = (Py.Ok tt, b)
    /\ YGG.urls a = YGG.urls b.
Proof.
  destruct (refreshes_commute configured "https://ygg/"
              "https://login.ygg/signin" eq_refl eq_refl)
    as (a & b & Ha & Hb & Hurls & _).
  exists a, b. split; [exact Ha|]. split; [exact Hb | exact Hurls].
Defined.

Lemma buildUrl_parameters_witness :
  exists query,
    YGG.buildUrl "the matrix" 0 ready
    = (Py.Ok ("https://ygg/engine/search?" +:+ query), ready)
    /\ query_param "name" query = Some "the+matrix"
    /\ length (query_params query) = 7.
Proof.
  destruct (buildUrl_parameters ready "the matrix" "https://ygg" 0)
    as (query & Hrun & _ & _ & _ & _ & _ & _ & Hname & Hlen);
    [vm_compute; reflexivity | reflexivity |].
  exists query. split; [exact Hrun|]. split; [exact Hname | exact Hlen].
Defined.

Lemma buildUrl_query_safe_witness :
  exists query,
    YGG.buildUrl "l'été & après ?" 3 ready
    = (Py.Ok ("https://ygg/engine/search?" +:+ query), ready)
    /\ Str.all_chars url_safe query = true.
Proof.
  destruct (buildUrl_query_safe ready "l'été & après ?" "https://ygg" 3)
    as (query & Hrun & Hsafe); [vm_compute; reflexivity | reflexivity |].
  exists query. split; [exact Hrun | exact Hsafe].
Defined.

Lemma invalid_url_disables_search_witness :
  exists st',
    YGG.refreshUrls plain_http = (Py.Ok tt, st')
    /\ YGG._searchOnTitle 5 "matrix" ∅ ∅ 0 (st', no_results)
       = (Py.Ok tt, (logged [failure Py.AttributeError] st', no_results)).
Proof.
  destruct (invalid_url_disables_search plain_http "http://ygg/" eq_refl)
    as (st' & Hrun & Hsearch).
  { intros base (host & tail & -> & Hu & _). discriminate. }
  exists st'. split; [exact Hrun | apply Hsearch].
Defined.


Definition matrix_link : Html.element :=
  Html.Element
    (Html.Tag "a"
       [("href", "https://ygg/torrent/filmvidéo/film/101-the-matrix-1999")]
       [Html.Text " The Matrix 1999 "])
    [].

Lemma href_id_witness : parsed_id matrix_link = Some 101%Z.
Proof.
  apply (href_id matrix_link "https://ygg/torrent/filmvidéo/film" "101"
           "the-matrix-1999");
    first [reflexivity | discriminate].
Defined.


Definition soundtrack : Html.element :=
  Html.Element
    (Html.Tag "a"
       [("href", "https://ygg/torrent/audio/musique/104-matrix-ost")]
       [Html.Text "Matrix OST"])
    [].

Lemma scan_link_other_category_witness :
  YGG.scan_link soundtrack (ready, no_results)
  = (Py.Ok Py.Continue, (ready, no_results)).
Proof.
  apply (scan_link_other_category soundtrack
           "https://ygg/torrent/audio/musique/104-matrix-ost");
    vm_compute; reflexivity.
Defined.


End SiteExtras.
